(** * Tailwind colour configuration: the rewriter of
      apps/studio/electron/main/assets/styles.ts

    A shallow embedding of the colour mutator (create, rename / recolour,
    delete), of the class-reference updater, of the two extractors and of
    the three public entry points, with the properties the specification
    states about them.

    Third-party libraries (the Babel parser and printer, PostCSS, the
    regular-expression engine) and the helpers of this repository that are
    imported from other files are interfaces (type classes below); the
    code of styles.ts is written over them. *)

From Stdlib Require Import String Ascii List Bool Arith Lia.
From stdpp Require Import base option list gmap strings.

Import ListNotations.
Local Open Scope string_scope.
Local Open Scope list_scope.

Set Default Proof Using "Type".

(* ================================================================= *)
(** ** JavaScript strings *)

(** Strings are sequences of 8-bit characters; the methods below follow
    the ECMAScript definitions on that alphabet. *)
Module Js.

(** Truthiness of a string: every string but the empty one. *)
Definition truthy (s : string) : bool :=
  match s with
  | EmptyString => false
  | String _ _ => true
  end.

(** Truthiness of an optional string ([undefined] is falsy). *)
Definition truthy_opt (o : option string) : bool :=
  match o with
  | Some s => truthy s
  | None => false
  end.

(** A template literal prints [undefined] as the word itself. *)
Definition to_string (o : option string) : string :=
  match o with
  | Some s => s
  | None => "undefined"
  end.

(** [s.startsWith(p)] *)
Definition startsWith (s p : string) : bool := String.prefix p s.

Fixpoint drop (n : nat) (s : string) : string :=
  match n, s with
  | O, _ => s
  | S _, EmptyString => EmptyString
  | S n', String _ s' => drop n' s'
  end.

(** [s.endsWith(p)] *)
Definition endsWith (s p : string) : bool :=
  (String.length p <=? String.length s)%nat &&
  String.eqb (drop (String.length s - String.length p) s) p.

(** [s.slice(n)] for a non-negative [n]. *)
Definition slice (n : nat) (s : string) : string := drop n s.

(** The first occurrence of [p] in [s]: the text before it and the text
    after it. *)
Fixpoint find_first (p s : string) : option (string * string) :=
  if String.prefix p s then Some (EmptyString, drop (String.length p) s)
  else match s with
       | EmptyString => None
       | String c s' =>
           match find_first p s' with
           | Some (before, after) => Some (String c before, after)
           | None => None
           end
       end.

(** GetSubstitution for a match without capture groups: [$$] is a
    dollar sign, [$&] the matched text, [$`] the text before the match,
    [$'] the text after it; every other character stands for itself. *)
Fixpoint GetSubstitution (matched before after template : string) : string :=
  match template with
  | EmptyString => EmptyString
  | String c rest =>
      if Ascii.eqb c "$" then
        match rest with
        | String d rest' =>
            if Ascii.eqb d "$" then
              String "$" (GetSubstitution matched before after rest')
            else if Ascii.eqb d "&" then
              matched +:+ GetSubstitution matched before after rest'
            else if Ascii.eqb d "`" then
              before +:+ GetSubstitution matched before after rest'
            else if Ascii.eqb d "'" then
              after +:+ GetSubstitution matched before after rest'
            else String c (GetSubstitution matched before after rest)
        | EmptyString => String c EmptyString
        end
      else String c (GetSubstitution matched before after rest)
  end.

(** [s.replace(p, r)] with a string pattern: the first occurrence only. *)
Definition replace (s p r : string) : string :=
  match find_first p s with
  | Some (before, after) => before +:+ GetSubstitution p before after r +:+ after
  | None => s
  end.

(** [s.replaceAll(p, r)] for a non-empty string pattern: every
    occurrence, left to right, without overlap. [before] is the text
    already passed and [n] bounds the characters left. *)
Fixpoint replaceAll_from (n : nat) (p r before rest : string) : string :=
  match n with
  | O => rest
  | S n' =>
      if String.prefix p rest then
        GetSubstitution p before (drop (String.length p) rest) r +:+
        replaceAll_from n' p r (before +:+ p) (drop (String.length p) rest)
      else
        match rest with
        | EmptyString => EmptyString
        | String c rest' =>
            String c (replaceAll_from n' p r (before +:+ String c EmptyString) rest')
        end
  end.

Definition replaceAll (s p r : string) : string :=
  match p with
  | EmptyString => s
  | _ => replaceAll_from (S (String.length s)) p r EmptyString s
  end.

(** The character occurs in the string. *)
Fixpoint has_char (c : ascii) (s : string) : bool :=
  match s with
  | EmptyString => false
  | String d s' => Ascii.eqb d c || has_char c s'
  end.

(** [s.includes(p)] *)
Definition includes (s p : string) : bool :=
  match find_first p s with
  | Some _ => true
  | None => false
  end.

(** [s.split(c)] for a one-character separator. *)
Fixpoint split (sep : ascii) (s : string) : list string :=
  match s with
  | EmptyString => [EmptyString]
  | String c s' =>
      if Ascii.eqb c sep then EmptyString :: split sep s'
      else match split sep s' with
           | piece :: pieces => String c piece :: pieces
           | [] => [String c EmptyString]
           end
  end.

(** [l.join(sep)] *)
Fixpoint join (sep : string) (l : list string) : string :=
  match l with
  | [] => EmptyString
  | [s] => s
  | s :: rest => s +:+ sep +:+ join sep rest
  end.

(** White space and line terminators of the 8-bit range: tab, line
    feed, vertical tab, form feed, carriage return, space and no-break
    space. *)
Definition is_white_space (c : ascii) : bool :=
  match nat_of_ascii c with
  | 9 | 10 | 11 | 12 | 13 | 32 | 160 => true
  | _ => false
  end.

Fixpoint trimStart (s : string) : string :=
  match s with
  | EmptyString => EmptyString
  | String c s' => if is_white_space c then trimStart s' else s
  end.

Fixpoint trimEnd (s : string) : string :=
  match s with
  | EmptyString => EmptyString
  | String c s' =>
      match trimEnd s' with
      | EmptyString => if is_white_space c then EmptyString else String c EmptyString
      | t => String c t
      end
  end.

(** [s.trim()] *)
Definition trim (s : string) : string := trimEnd (trimStart s).

End Js.

(* ================================================================= *)
(** ** Completions, promises and the file system *)

(** What a [throw] carries: an [Error] object with its message, or any
    other value, known by its [String(...)] rendering. *)
Inductive Thrown : Type :=
  | ErrorObject (message : string)
  | OtherValue (text : string).

(** [error instanceof Error ? error.message : String(error)] *)
Definition message_of (error : Thrown) : string :=
  match error with
  | ErrorObject message => message
  | OtherValue text => text
  end.

(** The completion of a synchronous call that touches no file. *)
Inductive Completion (A : Type) : Type :=
  | Normal (a : A)
  | Throw (error : Thrown).
Arguments Normal {A} a.
Arguments Throw {A} error.

Definition bindC {A B} (c : Completion A) (k : A -> Completion B) : Completion B :=
  match c with
  | Normal a => k a
  | Throw error => Throw error
  end.

(** [try { body } catch (error) { handler }] around synchronous code. *)
Definition tryC {A} (body : Completion A) (handler : Thrown -> Completion A)
  : Completion A :=
  match body with
  | Normal a => Normal a
  | Throw error => handler error
  end.

(** Files by path. *)
Abbreviation FileSystem := (gmap string string).

(** The state of a promise once the call has run: fulfilled, rejected, or
    not finished within the step budget of the run. *)
Inductive Settled (A : Type) : Type :=
  | Fulfilled (a : A)
  | Rejected (error : Thrown)
  | Unfinished.
Arguments Fulfilled {A} a.
Arguments Rejected {A} error.
Arguments Unfinished {A}.

(** Code that reads and writes files. The body of an [async] function is
    a task: a [throw] inside it rejects its promise. *)
Definition Task (A : Type) : Type := FileSystem -> FileSystem * Settled A.

Definition ret {A} (a : A) : Task A := fun fs => (fs, Fulfilled a).

Definition throw {A} (error : Thrown) : Task A := fun fs => (fs, Rejected error).

(** Sequencing; for a promise, [await]. *)
Definition bind {A B} (t : Task A) (k : A -> Task B) : Task B :=
  fun fs =>
    match t fs with
    | (fs', Fulfilled a) => k a fs'
    | (fs', Rejected error) => (fs', Rejected error)
    | (fs', Unfinished) => (fs', Unfinished)
    end.

Notation "'let*' x ':=' t 'in' k" := (bind t (fun x => k))
  (at level 10, x name, t at level 100, k at level 200).
Notation "'do' t 'then' k" := (bind t (fun _ => k))
  (at level 10, t at level 100, k at level 200).

Definition lift {A} (c : Completion A) : Task A :=
  match c with
  | Normal a => ret a
  | Throw error => throw error
  end.

(** [try { body } catch (error) { handler }]: only what is thrown while
    the body runs reaches the handler. *)
Definition try_catch {A} (body : Task A) (handler : Thrown -> Task A) : Task A :=
  fun fs =>
    match body fs with
    | (fs', Rejected error) => handler error fs'
    | other => other
    end.

(** Calling an [async] function without [await]: the call runs and the
    caller holds its promise as a value; a rejection is not a [throw] in
    the caller. *)
Definition promise {A} (call : Task A) : Task (Settled A) :=
  fun fs =>
    match call fs with
    | (fs', Unfinished) => (fs', Unfinished)
    | (fs', outcome) => (fs', Fulfilled outcome)
    end.

(** [return p] in an [async] function, for a promise [p]: the function's
    own promise takes the state of [p]. *)
Definition adopt {A} (p : Settled A) : Task A := fun fs => (fs, p).

(** [fs.writeFileSync(path, content)] *)
Definition writeFileSync (path content : string) : Task unit :=
  fun fs => (<[path := content]> fs, Fulfilled tt).

(** [Promise.all]: every call runs; the result is rejected with the first
    rejection, if any. *)
Fixpoint all_settled {A} (calls : list (Task A)) : Task (list (Settled A)) :=
  match calls with
  | [] => ret []
  | call :: rest =>
      let* p := promise call in
      let* ps := all_settled rest in
      ret (p :: ps)
  end.

Fixpoint first_rejection {A} (ps : list (Settled A)) : Completion (list A) :=
  match ps with
  | [] => Normal []
  | Fulfilled a :: rest => bindC (first_rejection rest) (fun l => Normal (a :: l))
  | Rejected error :: _ => Throw error
  | Unfinished :: rest => first_rejection rest
  end.

Definition Promise_all {A} (calls : list (Task A)) : Task (list A) :=
  let* ps := all_settled calls in
  lift (first_rejection ps).

(* ================================================================= *)
(** ** The syntax tree of a configuration file (after @babel/types) *)

Inductive Key : Type :=
  | Identifier (name : string)
  | OtherKey (source : string).

(** Expressions: string literals, object literals, and every other node
    kind with the expressions below it in traversal order. A member of an
    object literal is a property, or a spread element or method. *)
#[warnings="-register-all"]
Inductive Expression : Type :=
  | StringLiteral (value : string)
  | ObjectExpression (properties : list ObjectMember)
  | OtherExpression (kind : string) (children : list Expression)
with ObjectMember : Type :=
  | ObjectProperty (key : Key) (value : Expression)
  | OtherMember (kind : string) (children : list Expression).

(** A parsed file is its root node. *)
Definition File : Type := Expression.

(** What a visitor of object properties is handed: the node and the keys
    of the properties enclosing it, innermost first. *)
Record NodePath : Type := {
  node : ObjectMember;
  enclosing : list Key;
}.

(** A visitor of object properties works on the variables [S] its closure
    captures. It answers [Some node'] when it rewrote the node and [None]
    when it left it alone, or throws. *)
Definition Visitor (S : Type) : Type :=
  NodePath -> S -> Completion (option ObjectMember * S).

(** Running [step] over a list from left to right, the captured
    variables passed along; the first [throw] ends the run. *)
Definition mapS {A B S : Type} (step : A -> S -> Completion (B * S))
  : list A -> S -> Completion (list B * S) :=
  fix each (l : list A) (s : S) : Completion (list B * S) :=
    match l with
    | [] => Normal ([], s)
    | a :: l' =>
        bindC (step a s) (fun r1 =>
        bindC (each l' (snd r1)) (fun r2 =>
        Normal (fst r1 :: fst r2, snd r2)))
    end.

(** [traverse(ast, { ObjectProperty(path) { ... } })]: nodes are entered
    before their children. The visitors of this file rewrite the object
    literal of a [colors] property only; what such a visitor returns is
    not entered again, so a [colors] property lying inside another one is
    outside this model. *)
Fixpoint traverse {S : Type} (visit : Visitor S) (trail : list Key)
    (e : Expression) (s : S) : Completion (Expression * S) :=
  match e with
  | StringLiteral value => Normal (StringLiteral value, s)
  | ObjectExpression properties =>
      bindC (mapS (traverse_member visit trail) properties s) (fun r =>
      Normal (ObjectExpression (fst r), snd r))
  | OtherExpression kind children =>
      bindC (mapS (traverse visit trail) children s) (fun r =>
      Normal (OtherExpression kind (fst r), snd r))
  end
with traverse_member {S : Type} (visit : Visitor S) (trail : list Key)
    (m : ObjectMember) (s : S) : Completion (ObjectMember * S) :=
  match m with
  | ObjectProperty key value =>
      bindC (visit {| node := m; enclosing := trail |} s) (fun r =>
        match fst r with
        | Some m' => Normal (m', snd r)
        | None =>
            bindC (traverse visit (key :: trail) value (snd r)) (fun r' =>
            Normal (ObjectProperty key (fst r'), snd r'))
        end)
  | OtherMember kind children =>
      bindC (mapS (traverse visit trail) children s) (fun r =>
      Normal (OtherMember kind (fst r), snd r))
  end.

(** The object literals of a tree in the order a traversal enters them. *)
Fixpoint object_expressions (e : Expression) : list (list ObjectMember) :=
  match e with
  | StringLiteral _ => []
  | ObjectExpression properties =>
      properties :: flat_map object_expressions_member properties
  | OtherExpression _ children => flat_map object_expressions children
  end
with object_expressions_member (m : ObjectMember) : list (list ObjectMember) :=
  match m with
  | ObjectProperty _ value => object_expressions value
  | OtherMember _ children => flat_map object_expressions children
  end.

(* ================================================================= *)
(** ** The tree of a stylesheet (after PostCSS) *)

(** A rule holds declarations, blocks nested in it (an at-rule such as
    [@media], or a nested rule, under its header) and whatever else
    (comments). [walkDecls] on a rule descends into its blocks. Rules
    stand at the top level or inside at-rules; a rule nested in a rule is
    a block of that rule, on which the walks over rules do not call back:
    a stylesheet with a [:root] or [.dark] rule nested in another rule
    is outside this model. *)
#[warnings="-register-all"]
Inductive Child : Type :=
  | Declaration (prop value : string)
  | Block (header : string) (nodes : list Child)
  | OtherChild (text : string).

#[warnings="-register-all"]
Inductive Node : Type :=
  | Rule (selector : string) (nodes : list Child)
  | AtRule (name params : string) (nodes : list Node)
  | OtherNode (text : string).

Definition Root : Type := list Node.

Definition bindS {A B} (s : Settled A) (k : A -> Settled B) : Settled B :=
  match s with
  | Fulfilled a => k a
  | Rejected error => Rejected error
  | Unfinished => Unfinished
  end.

Definition settle {A} (s : Settled A) : Task A := fun fs => (fs, s).

(** [root.walkRules(selector, callback)]: every rule whose selector is
    accepted, at the top level and inside at-rules at any depth, in
    document order; the callback works on the rule's children. *)
Fixpoint walkRules (accepts : string -> bool)
    (callback : string -> list Child -> Settled (list Child)) (n : Node)
  : Settled Node :=
  match n with
  | Rule selector nodes =>
      if accepts selector
      then bindS (callback selector nodes) (fun nodes' => Fulfilled (Rule selector nodes'))
      else Fulfilled n
  | AtRule name params nodes =>
      bindS
        ((fix each (l : list Node) : Settled (list Node) :=
            match l with
            | [] => Fulfilled []
            | c :: l' =>
                bindS (walkRules accepts callback c) (fun c' =>
                bindS (each l') (fun l'' => Fulfilled (c' :: l'')))
            end) nodes)
        (fun nodes' => Fulfilled (AtRule name params nodes'))
  | OtherNode text => Fulfilled n
  end.

Fixpoint walkRules_root (accepts : string -> bool)
    (callback : string -> list Child -> Settled (list Child)) (root : Root)
  : Settled Root :=
  match root with
  | [] => Fulfilled []
  | n :: rest =>
      bindS (walkRules accepts callback n) (fun n' =>
      bindS (walkRules_root accepts callback rest) (fun rest' =>
      Fulfilled (n' :: rest')))
  end.

(** What a callback of [walkDecls] did with the declaration it was
    handed: the declaration as it stays in place ([None] once removed),
    and the declarations it appended to the rule. *)
Definition Edit : Type := option Child * list Child.

(** The walk on one child of the rule: the callback on a declaration,
    and on every declaration inside a block, in document order. What the
    callback appends goes to the end of the rule, not of the block, so
    the children of a block are a fixed list while it is walked; a
    declaration that is removed leaves no gap. The result is what stays
    in place of the child and what was appended to the rule. *)
Fixpoint walk_block (callback : string -> string -> Completion Edit) (child : Child)
  : Completion (list Child * list Child) :=
  match child with
  | Declaration prop value =>
      bindC (callback prop value) (fun e =>
      Normal (match fst e with Some d => [d] | None => [] end, snd e))
  | Block header nodes =>
      bindC
        ((fix each (l : list Child) : Completion (list Child * list Child) :=
            match l with
            | [] => Normal ([], [])
            | c :: l' =>
                bindC (walk_block callback c) (fun r =>
                bindC (each l') (fun r' =>
                Normal (fst r ++ fst r', snd r ++ snd r')))
            end) nodes)
        (fun r => Normal ([Block header (fst r)], snd r))
  | OtherChild _ => Normal ([child], [])
  end.

(** [rule.walkDecls(callback)]: the children of the rule are taken in
    order by a live index, so a declaration appended by the callback is
    reached later in the same walk; the walk descends into the blocks of
    the rule. One unit of [fuel] is spent per child of the rule
    visited. *)
Fixpoint walkDecls (fuel : nat) (callback : string -> string -> Completion Edit)
    (visited pending : list Child) : Settled (list Child) :=
  match pending with
  | [] => Fulfilled visited
  | child :: rest =>
      match fuel with
      | O => Unfinished
      | S fuel' =>
          match walk_block callback child with
          | Throw error => Rejected error
          | Normal (kept, appended) =>
              walkDecls fuel' callback (visited ++ kept) (rest ++ appended)
          end
      end
  end.

(** The rules a read-only [walkRules] calls back on, in document order. *)
Fixpoint rules_of (accepts : string -> bool) (n : Node) : list (list Child) :=
  match n with
  | Rule selector nodes => if accepts selector then [nodes] else []
  | AtRule _ _ nodes =>
      (fix each (l : list Node) : list (list Child) :=
         match l with
         | [] => []
         | c :: l' => rules_of accepts c ++ each l'
         end) nodes
  | OtherNode _ => []
  end.

Definition rules_of_root (accepts : string -> bool) (root : Root) : list (list Child) :=
  flat_map (rules_of accepts) root.

(* ================================================================= *)
(** ** The data contracts of @onlook/models *)

(** The located pair of files with what was read from each. *)
Record Located (A B : Type) : Type := {
  configPath : string;
  cssPath : string;
  configContent : A;
  cssContent : B;
}.
Arguments configPath {A B} _.
Arguments cssPath {A B} _.
Arguments configContent {A B} _.
Arguments cssContent {A B} _.

Definition ColorUpdate : Type := Located string string.

(** The custom properties read from the two scopes of a stylesheet. *)
Record CssVariables : Type := {
  root : gmap string string;
  dark : gmap string string;
}.

Record UpdateResult : Type := {
  success : bool;
  error : option string;
}.

Record ConfigUpdateResult : Type := {
  keyUpdated : bool;
  valueUpdated : bool;
  output : string;
}.

Record ClassReplacement : Type := {
  oldClass : string;
  newClass : string;
}.

Record CodeDiffRequest : Type := {
  oid : string;
  className : string;
  overrideClasses : bool;
}.

Inductive ClassParsingResult : Type :=
  | classes (value : list string)
  | parse_error (reason : string).

Inductive Theme : Type := theme_dark | theme_light.

(* ================================================================= *)
(** ** Interfaces of the libraries and of the imported helpers *)

(** @babel/parser and @babel/generator on a configuration file. *)
Class Babel : Type := {
  (** [parse(code, { sourceType: 'module', plugins })] *)
  parse : list string -> string -> Completion File;
  (** [generate(ast, options, code).code] *)
  generate : File -> string -> string;
}.

(** The same parser, traversal and printer on a project source file, seen
    through the JSX elements a traversal enters; with the helpers of
    ../code that read and rewrite them. *)
Class Jsx : Type := {
  SourceFile : Type;
  JSXElement : Type;
  parseSource : string -> Completion SourceFile;
  jsxElements : SourceFile -> list JSXElement;
  generateSource : SourceFile -> string -> string;
  getNodeClasses : JSXElement -> ClassParsingResult;
  getOidFromJsxElement : JSXElement -> option string;
  transformAst : SourceFile -> gmap string CodeDiffRequest -> Completion SourceFile;
}.

(** PostCSS: the parser and the stringifier. *)
Class PostCss : Type := {
  postcss_parse : string -> Completion Root;
  postcss_stringify : Root -> string;
}.

(** The regular-expression engine, by the source text of the pattern. *)
Class RegExpEngine : Type := {
  (** [new RegExp(source).test(s)] *)
  regexp_test : string -> string -> Completion bool;
  (** [s.replace(new RegExp(source, 'g'), replacement)] *)
  regexp_replace_all : string -> string -> string -> Completion string;
}.

(** Helpers imported from ./helpers, ../code/files, @onlook/utility and
    the [path] module. *)
Class Helpers : Type := {
  toCamelCase : string -> string;
  isColorsObjectProperty : NodePath -> bool;
  getConfigPath : string -> Task (option string * option string);
  initializeTailwindColorContent : string -> Task (option ColorUpdate);
  findSourceFiles : string -> Task (list string);
  readFile : string -> Task (option string);
  dirname : string -> string;
  Mapping : Type;
  empty_mapping : Mapping;
  extractObject : Expression -> Completion Mapping;
  Color : Type;
  parseHslValue : string -> Completion (option Color);
  toHex : Color -> Completion string;
}.

(* ================================================================= *)
(** ** styles.ts *)

Section Styles.

Context `{Babel} `{Jsx} `{PostCss} `{RegExpEngine} `{Helpers}.

(** The test of [find] and [findIndex] on the members of an object
    literal: a property keyed by the identifier [name]. *)
Definition keyed (name : string) (m : ObjectMember) : bool :=
  match m with
  | ObjectProperty (Identifier n) _ => String.eqb n name
  | _ => false
  end.

(** The first member that passes the test, rewritten by [f]. *)
Fixpoint update_first (test : ObjectMember -> bool) (f : ObjectMember -> ObjectMember)
    (l : list ObjectMember) : list ObjectMember :=
  match l with
  | [] => []
  | m :: l' => if test m then f m :: l' else m :: update_first test f l'
  end.

(** [l.splice(l.findIndex(test), 1)] when the index is found. *)
Fixpoint remove_first (test : ObjectMember -> bool) (l : list ObjectMember)
  : list ObjectMember :=
  match l with
  | [] => []
  | m :: l' => if test m then l' else m :: remove_first test l'
  end.

(** The shape shared by the visitors of this file:
    [if (isColorsObjectProperty(path)) { const colorObj = path.node.value;
    if (!isObjectExpression(colorObj)) return; ... }], where
    [isObjectExpression] is the type guard of @babel/types: the body runs
    on the members of an object literal. *)
Definition on_colors_object {S : Type}
    (body : list ObjectMember -> S -> Completion (list ObjectMember * S))
  : Visitor S :=
  fun path s =>
    if isColorsObjectProperty path then
      match node path with
      | ObjectProperty key (ObjectExpression properties) =>
          bindC (body properties s) (fun r =>
          Normal (Some (ObjectProperty key (ObjectExpression (fst r))), snd r))
      | _ => Normal (None, s)
      end
    else Normal (None, s).

Definition var_reference (name : string) : string := "var(--" +:+ name +:+ ")".

(** Modelled from the spec: [addTailwindRootColor] of ./helpers, which is
    not among the sources. Section 4.3: with no parent group, creation
    "inserts a new top-level key under the colors object whose value is
    the string var(--<property-name>)". *)
Definition addTailwindRootColor (colorObj : list ObjectMember)
    (newName newCssVarName : string) : list ObjectMember :=
  colorObj ++ [ObjectProperty (Identifier newName)
                 (StringLiteral (var_reference newCssVarName))].

Definition addTailwindNestedColor (colorObj : list ObjectMember)
    (parentName newName newCssVarName : string) : list ObjectMember :=
  update_first (keyed parentName)
    (fun parentColorObj =>
       match parentColorObj with
       | ObjectProperty key (ObjectExpression properties) =>
           ObjectProperty key
             (ObjectExpression
                (properties ++
                   [ObjectProperty (Identifier (toCamelCase newName))
                      (StringLiteral (var_reference newCssVarName))]))
       | _ => parentColorObj
       end)
    colorObj.

(** Helper to process CSS with PostCSS: parse, run the plugin's [Once],
    print. *)
Definition processCss (css : string) (plugin : Root -> Settled Root) : Task string :=
  let* tree := lift (postcss_parse css) in
  let* tree' := settle (plugin tree) in
  ret (postcss_stringify tree').

Definition append_declaration (prop value : string)
  : string -> list Child -> Settled (list Child) :=
  fun _ nodes => Fulfilled (nodes ++ [Declaration prop value]).

Definition addTailwindCssVariable (cssContent varName color : string) : Task string :=
  processCss cssContent (fun tree =>
    bindS (walkRules_root (String.eqb ":root")
             (append_declaration ("--" +:+ varName) color) tree) (fun tree1 =>
    walkRules_root (String.eqb ".dark")
      (append_declaration ("--" +:+ varName) color) tree1)).

(** The name of the custom property of a new colour. *)
Definition created_variable (newName : string) (parentName : option string) : string :=
  let camelCaseName := toCamelCase newName in
  match parentName with
  | Some parent =>
      if Js.truthy parent then parent +:+ "-" +:+ camelCaseName else camelCaseName
  | None => camelCaseName
  end.

Definition createTailwindColorVariable (update : ColorUpdate)
    (newColor newName : string) (parentName : option string) : Task UpdateResult :=
  let camelCaseName := toCamelCase newName in
  let newCssVarName := created_variable newName parentName in
  (* Update CSS file *)
  let* updatedCssContent :=
    addTailwindCssVariable (cssContent update) newCssVarName newColor in
  do writeFileSync (cssPath update) updatedCssContent then
  (* Update config file *)
  let* updateAst := lift (parse ["typescript"; "jsx"] (configContent update)) in
  let* traversed :=
    lift (traverse
            (on_colors_object (fun colorObj (_ : unit) =>
               Normal
                 (if negb (Js.truthy_opt parentName)
                  then addTailwindRootColor colorObj camelCaseName newCssVarName
                  else addTailwindNestedColor colorObj (Js.to_string parentName)
                         camelCaseName newCssVarName,
                  tt)))
            [] updateAst tt) in
  do writeFileSync (configPath update)
       (generate (fst traversed) (configContent update)) then
  ret {| success := true; error := None |}.

(** [l.map(f)] for an [f] that may throw. *)
Fixpoint mapC {A B : Type} (f : A -> Completion B) (l : list A) : Completion (list B) :=
  match l with
  | [] => Normal []
  | a :: l' =>
      bindC (f a) (fun b => bindC (mapC f l') (fun l'' => Normal (b :: l'')))
  end.

(** The flags [keyUpdated] and [valueUpdated] of updateTailwindConfigFile. *)
Definition Flags : Type := (bool * bool)%type.

(** Renaming a root colour: the reference held by one child of the group
    is moved to the new prefix. *)
Definition rename_reference (parentKey newName : string) (nestedProp : ObjectMember)
  : Completion ObjectMember :=
  match nestedProp with
  | ObjectProperty (Identifier name) (StringLiteral value) =>
      (* Special handling for DEFAULT *)
      let oldVarName :=
        if String.eqb name "DEFAULT" then parentKey else parentKey +:+ "-" +:+ name in
      let newVarName :=
        if String.eqb name "DEFAULT" then toCamelCase newName
        else toCamelCase newName +:+ "-" +:+ name in
      bindC (regexp_replace_all ("--" +:+ oldVarName) ("--" +:+ newVarName) value)
        (fun value' => Normal (ObjectProperty (Identifier name) (StringLiteral value')))
  | _ => Normal nestedProp
  end.

(** Renaming a child: one member of the group's object literal. *)
Definition rename_child (parentKey keyName newName newCssVarName : string)
    (nestedProp : ObjectMember) (flags : Flags) : ObjectMember * Flags :=
  match nestedProp with
  | ObjectProperty (Identifier name) value =>
      if String.eqb name keyName then
        let renamed := negb (String.eqb newName keyName) in
        let key' := if renamed then Identifier (toCamelCase newName) else Identifier name in
        let keyUpdated' := if renamed then true else fst flags in
        match value with
        | StringLiteral _ =>
            (* Special handling for DEFAULT values *)
            let varName :=
              if String.eqb keyName "DEFAULT" then parentKey else newCssVarName in
            (ObjectProperty key' (StringLiteral (var_reference varName)),
             (keyUpdated', true))
        | _ => (ObjectProperty key' value, (keyUpdated', snd flags))
        end
      else (nestedProp, flags)
  | _ => (nestedProp, flags)
  end.

Fixpoint rename_children (parentKey keyName newName newCssVarName : string)
    (l : list ObjectMember) (flags : Flags) : list ObjectMember * Flags :=
  match l with
  | [] => ([], flags)
  | nestedProp :: l' =>
      let r := rename_child parentKey keyName newName newCssVarName nestedProp flags in
      let r' := rename_children parentKey keyName newName newCssVarName l' (snd r) in
      (fst r :: fst r', snd r')
  end.

(** One member of the colours object, in the [forEach] of
    updateTailwindConfigFile. *)
Definition update_color_prop (parentKey : string) (keyName : option string)
    (newName newCssVarName : string) (colorProp : ObjectMember) (flags : Flags)
  : Completion (ObjectMember * Flags) :=
  match colorProp with
  | ObjectProperty (Identifier name) (ObjectExpression properties) =>
      if String.eqb name parentKey then
        (* If the keyName is not provided, we are renaming the root color *)
        if negb (Js.truthy_opt keyName) then
          if Js.truthy parentKey && negb (String.eqb newName parentKey) then
            (* Then we need to update the child css variables *)
            bindC (mapC (rename_reference parentKey newName) properties)
              (fun properties' =>
                 Normal (ObjectProperty (Identifier (toCamelCase newName))
                           (ObjectExpression properties'),
                         (true, snd flags)))
          else Normal (colorProp, flags)
        else
          let r := rename_children parentKey (Js.to_string keyName) newName
                     newCssVarName properties flags in
          Normal (ObjectProperty (Identifier name) (ObjectExpression (fst r)), snd r)
      else Normal (colorProp, flags)
  | _ => Normal (colorProp, flags)
  end.

(** [colorObj.properties.forEach((colorProp) => { ... })] *)
Definition update_color_props (parentKey : string) (keyName : option string)
    (newName newCssVarName : string)
  : list ObjectMember -> Flags -> Completion (list ObjectMember * Flags) :=
  mapS (update_color_prop parentKey keyName newName newCssVarName).

Definition updateTailwindConfigFile (configContent : string) (parentKey : string)
    (keyName : option string) (newName newCssVarName : string)
  : Completion ConfigUpdateResult :=
  bindC (parse ["typescript"; "jsx"] configContent) (fun updateAst =>
  bindC (traverse
           (on_colors_object
              (update_color_props parentKey keyName newName newCssVarName))
           [] updateAst (false, false)) (fun r =>
  Normal {| keyUpdated := fst (snd r);
            valueUpdated := snd (snd r);
            output := generate (fst r) configContent |})).

(** The callback of [rule.walkDecls] in updateTailwindCssVariable, on one
    declaration of a rule whose selector is [selector]. *)
Definition update_declaration (selector originalName newVarName newColor : string)
    (theme : option Theme) (prop value : string) : Completion Edit :=
  let isDarkTheme := String.eqb selector ".dark" in
  let shouldUpdateValue :=
    Js.truthy newColor &&
    match theme with
    | None => true
    | Some theme_dark => isDarkTheme
    | Some theme_light => negb isDarkTheme
    end in
  let renamed := Js.truthy newVarName && negb (String.eqb newVarName originalName) in
  let first : Edit :=
    if String.eqb prop ("--" +:+ originalName) then
      if renamed then
        (None, [Declaration ("--" +:+ newVarName)
                  (if shouldUpdateValue then newColor else value)])
      else if shouldUpdateValue then (Some (Declaration prop newColor), [])
      else (Some (Declaration prop value), [])
    else (Some (Declaration prop value), []) in
  if renamed then
    bindC (regexp_test ("^--" +:+ originalName +:+ "-") prop) (fun nested =>
      if nested then
        let newProp := Js.replace prop originalName newVarName in
        Normal (None, snd first ++ [Declaration newProp value])
      else Normal first)
  else Normal first.

(** Update existing CSS variable *)
Definition updateTailwindCssVariable (fuel : nat)
    (cssContent originalName newVarName newColor : string) (theme : option Theme)
  : Task string :=
  processCss cssContent
    (* Process both :root and .dark rules to handle variable renames *)
    (walkRules_root (fun selector => String.eqb selector ":root" || String.eqb selector ".dark")
       (fun selector nodes =>
          walkDecls fuel
            (update_declaration selector originalName newVarName newColor theme)
            [] nodes)).

(** The class a token becomes: for the first replacement whose old class
    the token equals or ends with after a hyphen, the token with the old
    class replaced; [None] when no replacement applies. *)
Fixpoint replace_class (replacements : list ClassReplacement) (currentClass : string)
  : option string :=
  match replacements with
  | [] => None
  | r :: rest =>
      (* For each replacement, check if the current class ends with the old
         class name and replace only that part while preserving any prefix *)
      if String.eqb currentClass (oldClass r) ||
         Js.endsWith currentClass ("-" +:+ oldClass r)
      then Some (Js.replace currentClass (oldClass r) (newClass r))
      else replace_class rest currentClass
  end.

Definition newClasses (replacements : list ClassReplacement) (oldClasses : list string)
  : list string :=
  map (fun currentClass =>
         match replace_class replacements currentClass with
         | Some replaced => replaced
         | None => currentClass
         end) oldClasses.

Definition hasChanges (replacements : list ClassReplacement) (oldClasses : list string)
  : bool :=
  existsb (fun currentClass =>
             match replace_class replacements currentClass with
             | Some _ => true
             | None => false
             end) oldClasses.

(** The [JSXElement] visitor of updateClassReferences on one element. *)
Definition visit_element (replacements : list ClassReplacement) (element : JSXElement)
    (updates : gmap string CodeDiffRequest) : gmap string CodeDiffRequest :=
  match getNodeClasses element with
  | classes oldClasses =>
      if hasChanges replacements oldClasses then
        match getOidFromJsxElement element with
        | Some id =>
            if Js.truthy id then
              <[id := {| oid := id;
                         className := Js.join " " (newClasses replacements oldClasses);
                         overrideClasses := true |}]> updates
            else updates
        | None => updates
        end
      else updates
  | parse_error _ => updates
  end.

Definition update_source_file (replacements : list ClassReplacement) (file : string)
  : Task unit :=
  let* content := readFile file in
  match content with
  | None => ret tt
  | Some content =>
      if negb (Js.truthy content) then ret tt
      else
        let* ast := lift (parseSource content) in
        let updates :=
          fold_left (fun updates element => visit_element replacements element updates)
            (jsxElements ast) ∅ in
        if decide (updates = ∅) then ret tt
        else
          let* ast' := lift (transformAst ast updates) in
          writeFileSync file (generateSource ast' content)
  end.

Definition updateClassReferences (projectRoot : string)
    (replacements : list ClassReplacement) : Task unit :=
  let* sourceFiles := findSourceFiles projectRoot in
  do Promise_all (map (update_source_file replacements) sourceFiles) then
  ret tt.

(** [const [parentKey, keyName] = originalName.split('-')] *)
Definition split_name (originalName : string) : string * option string :=
  match Js.split "-" originalName with
  | parentKey :: keyName :: _ => (parentKey, Some keyName)
  | [parentKey] => (parentKey, None)
  | [] => (EmptyString, None)
  end.

(** The name of the custom property after a rename, with the name of the
    property the rename starts from. *)
Definition renamed_variable (parentKey : string) (keyName : option string)
    (originalName newName : string) : string * string :=
  (* If the keyName is not provided, we are renaming the root color *)
  if negb (Js.truthy_opt keyName) then
    (if negb (String.eqb newName parentKey) then newName else originalName,
     originalName)
  else
    (* Special handling for DEFAULT *)
    if String.eqb (Js.to_string keyName) "DEFAULT" then (parentKey, parentKey)
    else
      (if negb (String.eqb newName (Js.to_string keyName))
       then parentKey +:+ "-" +:+ newName else originalName,
       originalName).

Definition updateTailwindColorVariable (fuel : nat) (update : ColorUpdate)
    (originalName newColor newName : string) (theme : option Theme)
  : Task UpdateResult :=
  let parentKey := fst (split_name originalName) in
  let keyName := snd (split_name originalName) in
  if negb (Js.truthy parentKey) then
    ret {| success := false;
           error := Some ("Invalid color key format: " +:+ originalName) |}
  else
    let newCssVarName := fst (renamed_variable parentKey keyName originalName newName) in
    let originalName := snd (renamed_variable parentKey keyName originalName newName) in
    (* Update CSS file *)
    let* updatedCssContent :=
      updateTailwindCssVariable fuel (cssContent update) originalName newCssVarName
        newColor theme in
    do writeFileSync (cssPath update) updatedCssContent then
    (* Update config file *)
    let* result :=
      lift (updateTailwindConfigFile (configContent update) parentKey keyName newName
              newCssVarName) in
    do (if keyUpdated result || valueUpdated result then
          do writeFileSync (configPath update) (output result) then
          (* Update class references if the name changed *)
          if keyUpdated result then
            let projectRoot := dirname (configPath update) in
            updateClassReferences projectRoot
              [{| oldClass := parentKey +:+ "-" +:+ Js.to_string keyName;
                  newClass := parentKey +:+ "-" +:+ newName |}]
          else ret tt
        else ret tt) then
    ret {| success := true; error := None |}.

Definition updateTailwindColorConfig (fuel : nat) (projectRoot originalName newColor
    newName : string) (theme : option Theme) (parentName : option string)
  : Task UpdateResult :=
  let* returned :=
    try_catch
      (let* colorUpdate := initializeTailwindColorContent projectRoot in
       match colorUpdate with
       | None =>
           ret (Fulfilled {| success := false;
                             error := Some "Failed to prepare color update" |})
       | Some colorUpdate =>
           promise
             (if Js.truthy originalName
              then updateTailwindColorVariable fuel colorUpdate originalName newColor
                     newName theme
              else createTailwindColorVariable colorUpdate newColor newName parentName)
       end)
      (fun error =>
         ret (Fulfilled {| success := false; error := Some (message_of error) |})) in
  adopt returned.

(** [configs.root[varName] = text] on the plain object that holds a
    scope: an assignment to [__proto__] goes to the setter of
    [Object.prototype], which ignores a string, and no property is
    created. *)
Definition assign (scope : gmap string string) (varName text : string)
  : gmap string string :=
  if String.eqb varName "__proto__" then scope else <[varName := text]> scope.

(** [rule.walkDecls(/^--/, ...)] in extractTailwindCssVariables, on one
    child of the rule: a declaration whose property opens with two
    hyphens is recorded in the scope, and so are those inside a block, in
    document order. *)
Fixpoint record_declaration (scope : gmap string string) (child : Child)
  : gmap string string :=
  match child with
  | Declaration prop value =>
      if Js.startsWith prop "--" then
        let varName := Js.slice 2 prop in
        (* Convert HSL to hex if needed *)
        match tryC (bindC (parseHslValue value) (fun color =>
                      match color with
                      | Some color => bindC (toHex color) (fun hex => Normal (Some hex))
                      | None => Normal None
                      end))
                   (fun _ => Normal None) with
        | Normal (Some hex) => assign scope varName hex
        | _ => assign scope varName value
        end
      else scope
  | Block _ nodes =>
      (fix each (l : list Child) (scope : gmap string string) : gmap string string :=
         match l with
         | [] => scope
         | c :: l' => each l' (record_declaration scope c)
         end) nodes scope
  | OtherChild _ => scope
  end.

Definition record_rules (selector : string) (tree : Root) : gmap string string :=
  fold_left (fun scope nodes => fold_left record_declaration nodes scope)
    (rules_of_root (String.eqb selector) tree) ∅.

(** Extract CSS variables from stylesheet *)
Definition extractTailwindCssVariables (content : string) : Completion CssVariables :=
  bindC (postcss_parse content) (fun result =>
  Normal {| root := record_rules ":root" result;
            dark := record_rules ".dark" result |}).

(** The values of the properties keyed [name] among the members of an
    object literal, in order. *)
Definition values_keyed (name : string) (properties : list ObjectMember)
  : list Expression :=
  flat_map (fun prop =>
              match prop with
              | ObjectProperty (Identifier n) value =>
                  if String.eqb n name then [value] else []
              | _ => []
              end) properties.

Definition object_values_keyed (name : string) (e : Expression) : list Expression :=
  match e with
  | ObjectExpression properties => values_keyed name properties
  | _ => []
  end.

(** The [ObjectExpression] visitor of extractColorsFromTailwindConfig on
    one object literal: every [theme] > [extend] > [colors] value below it
    is extracted in turn, the last one staying in [colors]. *)
Definition visit_object (properties : list ObjectMember) (colors : Mapping)
  : Completion Mapping :=
  fold_left
    (fun colors value =>
       bindC colors (fun _ => extractObject value))
    (flat_map (object_values_keyed "colors")
       (flat_map (object_values_keyed "extend") (values_keyed "theme" properties)))
    (Normal colors).

Definition extractColorsFromTailwindConfig (fileContent : string) : Mapping :=
  match tryC
          (bindC (parse ["typescript"] fileContent) (fun ast =>
           fold_left (fun colors properties => bindC colors (visit_object properties))
             (object_expressions ast) (Normal empty_mapping)))
          (fun _ => Normal empty_mapping) with
  | Normal colors => colors
  | Throw _ => empty_mapping
  end.

(** The removal deleteColorGroup makes in one colours object. *)
Definition delete_from_colors (camelCaseName : string) (colorName : option string)
    (colorObj : list ObjectMember) : list ObjectMember :=
  (* Find the group *)
  match List.find (keyed camelCaseName) colorObj with
  | Some (ObjectProperty _ (ObjectExpression properties)) =>
      if Js.truthy_opt colorName then
        (* Delete specific color within group *)
        if existsb (keyed (Js.to_string colorName)) properties then
          match remove_first (keyed (Js.to_string colorName)) properties with
          | [] =>
              (* If group is empty after deletion, remove the entire group *)
              remove_first (keyed camelCaseName) colorObj
          | remaining =>
              update_first (keyed camelCaseName)
                (fun groupProp =>
                   match groupProp with
                   | ObjectProperty key _ => ObjectProperty key (ObjectExpression remaining)
                   | _ => groupProp
                   end)
                colorObj
          end
        else colorObj
      else
        (* Delete entire group *)
        remove_first (keyed camelCaseName) colorObj
  | _ => colorObj
  end.

(** The test of the line filter of deleteColorGroup. *)
Definition shouldKeep (camelCaseName : string) (colorName : option string)
    (line : string) : bool :=
  let trimmedLine := Js.trim line in
  if Js.truthy_opt colorName then
    (* Only remove the specific color variable *)
    negb (Js.startsWith trimmedLine
            ("--" +:+ camelCaseName +:+ "-" +:+ Js.to_string colorName))
  else
    (* Remove all variables that start with the group name *)
    negb (Js.startsWith trimmedLine ("--" +:+ camelCaseName)).

Definition updatedCssLines (camelCaseName : string) (colorName : option string)
    (cssContent : string) : list string :=
  List.filter (shouldKeep camelCaseName colorName) (Js.split "010" cssContent).

Definition deleteColorGroup (update : ColorUpdate) (groupName : string)
    (colorName : option string) : Task UpdateResult :=
  let camelCaseName := toCamelCase groupName in
  (* Update config file *)
  let* updateAst := lift (parse ["typescript"; "jsx"] (configContent update)) in
  let* traversed :=
    lift (traverse
            (on_colors_object (fun colorObj (_ : unit) =>
               Normal (delete_from_colors camelCaseName colorName colorObj, tt)))
            [] updateAst tt) in
  (* Update CSS file *)
  let updatedCssContent :=
    Js.join (String "010" EmptyString)
      (updatedCssLines camelCaseName colorName (cssContent update)) in
  do writeFileSync (cssPath update) updatedCssContent then
  do writeFileSync (configPath update)
       (generate (fst traversed) (configContent update)) then
  ret {| success := true; error := None |}.

Definition deleteTailwindColorGroup (projectRoot groupName : string)
    (colorName : option string) : Task UpdateResult :=
  let* returned :=
    try_catch
      (let* colorUpdate := initializeTailwindColorContent projectRoot in
       match colorUpdate with
       | None =>
           ret (Fulfilled {| success := false;
                             error := Some "Failed to prepare color update" |})
       | Some colorUpdate => promise (deleteColorGroup colorUpdate groupName colorName)
       end)
      (fun error =>
         ret (Fulfilled {| success := false; error := Some (message_of error) |})) in
  adopt returned.

Definition ScanResult : Type := Located Mapping CssVariables.

Definition scanTailwindConfig (projectRoot : string) : Task (option ScanResult) :=
  try_catch
    (let* paths := getConfigPath projectRoot in
     match paths with
     | (Some configPath, Some cssPath) =>
         if negb (Js.truthy configPath) || negb (Js.truthy cssPath) then ret None
         else
           let* configContent := readFile configPath in
           if negb (Js.truthy_opt configContent) then ret None
           else
             let* cssContent := readFile cssPath in
             if negb (Js.truthy_opt cssContent) then
               let* variables := lift (extractTailwindCssVariables "") in
               ret (Some {| configPath := configPath;
                            configContent :=
                              extractColorsFromTailwindConfig (Js.to_string configContent);
                            cssPath := cssPath;
                            cssContent := variables |})
             else
               let* variables :=
                 lift (extractTailwindCssVariables (Js.to_string cssContent)) in
               ret (Some {| configPath := configPath;
                            configContent :=
                              extractColorsFromTailwindConfig (Js.to_string configContent);
                            cssPath := cssPath;
                            cssContent := variables |})
     | _ => ret None
     end)
    (fun _ => ret None).

End Styles.

(* ================================================================= *)
(** ** What the properties are stated with *)

Section Observations.

Context `{Helpers}.

(** The tree in which the member list of every colours object (the object
    literal of a property that [isColorsObjectProperty] accepts) is
    replaced by [f] of it. *)
Fixpoint rewrite_colors_objects (f : list ObjectMember -> list ObjectMember)
    (trail : list Key) (e : Expression) : Expression :=
  match e with
  | StringLiteral value => StringLiteral value
  | ObjectExpression properties =>
      ObjectExpression (map (rewrite_colors_member f trail) properties)
  | OtherExpression kind children =>
      OtherExpression kind (map (rewrite_colors_objects f trail) children)
  end
with rewrite_colors_member (f : list ObjectMember -> list ObjectMember)
    (trail : list Key) (m : ObjectMember) : ObjectMember :=
  match m with
  | ObjectProperty key value =>
      if isColorsObjectProperty {| node := m; enclosing := trail |} then
        match value with
        | ObjectExpression properties => ObjectProperty key (ObjectExpression (f properties))
        | _ => ObjectProperty key (rewrite_colors_objects f (key :: trail) value)
        end
      else ObjectProperty key (rewrite_colors_objects f (key :: trail) value)
  | OtherMember kind children =>
      OtherMember kind (map (rewrite_colors_objects f trail) children)
  end.

(** The member lists of the colours objects of a tree, in traversal
    order. *)
Fixpoint colors_objects (trail : list Key) (e : Expression) : list (list ObjectMember) :=
  match e with
  | StringLiteral _ => []
  | ObjectExpression properties => flat_map (colors_objects_member trail) properties
  | OtherExpression _ children => flat_map (colors_objects trail) children
  end
with colors_objects_member (trail : list Key) (m : ObjectMember)
  : list (list ObjectMember) :=
  match m with
  | ObjectProperty key value =>
      if isColorsObjectProperty {| node := m; enclosing := trail |} then
        match value with
        | ObjectExpression properties => [properties]
        | _ => colors_objects (key :: trail) value
        end
      else colors_objects (key :: trail) value
  | OtherMember _ children => flat_map (colors_objects trail) children
  end.

End Observations.

(** The pair updateTailwindColorVariable computes from its arguments: the
    name of the custom property after the rename, and the name of the
    property the rename starts from. *)
Definition rename_names (originalName newName : string) : string * string :=
  renamed_variable (fst (split_name originalName)) (snd (split_name originalName))
    originalName newName.

(** The last character of the string is [c]. *)
Fixpoint last_is (c : ascii) (s : string) : bool :=
  match s with
  | EmptyString => false
  | String d EmptyString => Ascii.eqb d c
  | String _ s' => last_is c s'
  end.

(** A reference [var(--name)]: the text opens with [var(--] and closes
    with a parenthesis. *)
Definition is_reference (value : string) : bool :=
  String.prefix "var(--" value && last_is ")" value.

(** Every leaf colour value below is a reference: a string leaf reads
    [var(--name)], a group holds such leaves, and no leaf is any other
    kind of expression. *)
Fixpoint references_only (e : Expression) : bool :=
  match e with
  | StringLiteral value => is_reference value
  | ObjectExpression properties =>
      forallb (fun m =>
                 match m with
                 | ObjectProperty _ value => references_only value
                 | OtherMember _ _ => true
                 end) properties
  | OtherExpression _ _ => false
  end.

(** A member of a colours object or of a group holds references only. *)
Definition member_ok (m : ObjectMember) : bool :=
  match m with
  | ObjectProperty _ value => references_only value
  | OtherMember _ _ => true
  end.

(** The two expressions are nodes of one kind. *)
Definition same_kind (e e' : Expression) : Prop :=
  match e, e' with
  | StringLiteral _, StringLiteral _ => True
  | ObjectExpression _, ObjectExpression _ => True
  | OtherExpression kind _, OtherExpression kind' _ => kind = kind'
  | _, _ => False
  end.

(** [isColorsObjectProperty] looks at the key of a property, at the kind
    of its value and at the enclosing keys, not into the value. *)
Definition colors_test_stable `{Helpers} : Prop :=
  forall key value value' trail,
    same_kind value value' ->
    isColorsObjectProperty {| node := ObjectProperty key value; enclosing := trail |}
    = isColorsObjectProperty {| node := ObjectProperty key value'; enclosing := trail |}.

(** Every leaf colour value of every colours object of the tree is a
    reference. *)
Definition colors_referenced `{Helpers} (ast : File) : Prop :=
  Forall (fun colorObj => references_only (ObjectExpression colorObj) = true)
    (colors_objects [] ast).

(** The text has none of the characters that are special in a regular
    expression. *)
Definition is_syntax_character (c : ascii) : bool :=
  existsb (Ascii.eqb c)
    ["^"; "$"; "\"; "."; "*"; "+"; "?"; "("; ")"; "["; "]"; "{"; "}"; "|"; "/"]%char.

Fixpoint plain (s : string) : bool :=
  match s with
  | EmptyString => true
  | String c s' => negb (is_syntax_character c) && plain s'
  end.

(** On a pattern that is plain text, the engine replaces the occurrences
    of that text. *)
Definition engine_plain `{RegExpEngine} : Prop :=
  forall source replacement s,
    plain source = true -> source <> EmptyString ->
    regexp_replace_all source replacement s
    = Normal (Js.replaceAll s source replacement).

(** The names of the identifier-keyed string leaves of a group. *)
Definition leaf_names (properties : list ObjectMember) : list string :=
  flat_map (fun m =>
              match m with
              | ObjectProperty (Identifier name) (StringLiteral _) => [name]
              | _ => []
              end) properties.

(** What the rename of a root group asks of the member [m] of a colours
    object: when it is the group keyed [name], the names of its string
    leaves are plain text. *)
Definition plain_group (name : string) (m : ObjectMember) : Prop :=
  match m with
  | ObjectProperty (Identifier n) (ObjectExpression properties) =>
      String.eqb n name = true ->
      Forall (fun leaf => plain leaf = true) (leaf_names properties)
  | _ => True
  end.

(** The names of the string leaves of a group, for the groups keyed
    [name] in the colours objects of the tree. *)
Definition plain_leaf_names `{Helpers} (name : string) (ast : File) : Prop :=
  Forall (fun colorObj => Forall (plain_group name) colorObj) (colors_objects [] ast).

(** The groups keyed [name] among the members of a colours object. *)
Definition groups_keyed (name : string) (colorObj : list ObjectMember)
  : list (list ObjectMember) :=
  flat_map (fun m =>
              match m with
              | ObjectProperty (Identifier n) (ObjectExpression properties) =>
                  if String.eqb n name then [properties] else []
              | _ => []
              end) colorObj.

(** The string leaves keyed [name] among the members of a group. *)
Definition leaves_keyed (name : string) (properties : list ObjectMember) : list string :=
  flat_map (fun m =>
              match m with
              | ObjectProperty (Identifier n) (StringLiteral value) =>
                  if String.eqb n name then [value] else []
              | _ => []
              end) properties.

(** The stylesheet in which [d] is appended to every rule whose selector
    is accepted. *)
Fixpoint append_to_rules (accepts : string -> bool) (d : Child) (n : Node) : Node :=
  match n with
  | Rule selector nodes => if accepts selector then Rule selector (nodes ++ [d]) else n
  | AtRule name params nodes => AtRule name params (map (append_to_rules accepts d) nodes)
  | OtherNode _ => n
  end.

(** In every colours object of the tree, every string leaf keyed
    [keyName] in a group keyed [parentKey] reads [reference]. *)
Definition references_in_place `{Helpers} (parentKey keyName reference : string)
    (ast : File) : Prop :=
  Forall (fun colorObj =>
            Forall (fun members =>
                      Forall (fun value => value = reference)
                        (leaves_keyed keyName members))
              (groups_keyed parentKey colorObj))
    (colors_objects [] ast).

(** The number of children under the rules of a stylesheet. *)
Fixpoint children_count (n : Node) : nat :=
  match n with
  | Rule _ nodes => List.length nodes
  | AtRule _ _ nodes =>
      (fix each (l : list Node) : nat :=
         match l with
         | [] => 0
         | c :: l' => children_count c + each l'
         end) nodes
  | OtherNode _ => 0
  end.

Definition children_count_root (tree : Root) : nat :=
  fold_right (fun n total => children_count n + total) 0 tree.

(* ================================================================= *)
(** ** A sample project *)

(** Concrete libraries and helpers to run the code on: printers for the
    two kinds of file, parsers that read back what the printers print of
    a given list of trees and reject every other text, an engine for
    patterns without syntax characters, and a project laid out as
    [<root>/tailwind.config.ts] and [<root>/app/globals.css]. *)
Module Sample.

Definition is_upper (c : ascii) : bool :=
  (65 <=? nat_of_ascii c)%nat && (nat_of_ascii c <=? 90)%nat.
Definition is_lower (c : ascii) : bool :=
  (97 <=? nat_of_ascii c)%nat && (nat_of_ascii c <=? 122)%nat.
Definition is_digit (c : ascii) : bool :=
  (48 <=? nat_of_ascii c)%nat && (nat_of_ascii c <=? 57)%nat.
Definition to_lower (c : ascii) : ascii :=
  if is_upper c then ascii_of_nat (nat_of_ascii c + 32) else c.
Definition to_upper (c : ascii) : ascii :=
  if is_lower c then ascii_of_nat (nat_of_ascii c - 32) else c.

Fixpoint camel (capitalise : bool) (s : string) : string :=
  match s with
  | EmptyString => EmptyString
  | String c s' =>
      if is_upper c || is_lower c || is_digit c then
        String (if capitalise then to_upper c else to_lower c) (camel false s')
      else camel true s'
  end.

(** Modelled from the spec: [toCamelCase] of ./helpers, which is not
    among the sources and which the spec only names ("camelCase(name)",
    "identifier-safe casing"): the words of the name joined, the first in
    lower case, each later one capitalised. *)
Definition camelCase (s : string) : string :=
  match s with
  | EmptyString => EmptyString
  | String c s' =>
      if is_upper c || is_lower c || is_digit c
      then String (to_lower c) (camel false s')
      else camel false s'
  end.

Definition print_key (k : Key) : string :=
  match k with
  | Identifier name => name
  | OtherKey source => "[" +:+ source +:+ "]"
  end.

Fixpoint print_expression (e : Expression) : string :=
  match e with
  | StringLiteral value => "'" +:+ value +:+ "'"
  | ObjectExpression properties =>
      "{ " +:+
      (fix members (l : list ObjectMember) : string :=
         match l with
         | [] => EmptyString
         | m :: l' => print_member m +:+ ", " +:+ members l'
         end) properties +:+ "}"
  | OtherExpression kind children =>
      kind +:+ "(" +:+
      (fix each (l : list Expression) : string :=
         match l with
         | [] => EmptyString
         | c :: l' => print_expression c +:+ "; " +:+ each l'
         end) children +:+ ")"
  end
with print_member (m : ObjectMember) : string :=
  match m with
  | ObjectProperty key value => print_key key +:+ ": " +:+ print_expression value
  | OtherMember kind children =>
      "..." +:+ kind +:+ "(" +:+
      (fix each (l : list Expression) : string :=
         match l with
         | [] => EmptyString
         | c :: l' => print_expression c +:+ "; " +:+ each l'
         end) children +:+ ")"
  end.

Definition newline : string := String "010" EmptyString.

Fixpoint print_child (c : Child) : string :=
  match c with
  | Declaration prop value => "  " +:+ prop +:+ ": " +:+ value +:+ ";"
  | Block header nodes =>
      "  " +:+ header +:+ " {" +:+ newline +:+
      (fix each (l : list Child) : string :=
         match l with
         | [] => "  }"
         | c :: l' => "  " +:+ print_child c +:+ newline +:+ each l'
         end) nodes
  | OtherChild text => "  " +:+ text
  end.

Fixpoint print_node (n : Node) : string :=
  match n with
  | Rule selector nodes =>
      selector +:+ " {" +:+ newline +:+
      fold_right (fun c text => print_child c +:+ newline +:+ text) "}" nodes
  | AtRule name params nodes =>
      "@" +:+ name +:+ " " +:+ params +:+ " {" +:+ newline +:+
      (fix each (l : list Node) : string :=
         match l with
         | [] => "}"
         | c :: l' => print_node c +:+ newline +:+ each l'
         end) nodes
  | OtherNode text => text
  end.

Definition print_root (tree : Root) : string :=
  fold_right (fun n text => print_node n +:+ newline +:+ text) EmptyString tree.

(** The parser that reads back the printing of the trees in [known]. *)
Definition read_back {T : Type} (print : T -> string) (known : list T) (code : string)
  : Completion T :=
  match List.find (fun t => String.eqb (print t) code) known with
  | Some t => Normal t
  | None => Throw (ErrorObject "SyntaxError: unexpected token")
  end.

Definition babel (known : list File) : Babel :=
  {| parse := fun _ code => read_back print_expression known code;
     generate := fun ast _ => print_expression ast |}.

Definition postcss (known : list Root) : PostCss :=
  {| postcss_parse := fun css => read_back print_root ([] :: known) css;
     postcss_stringify := print_root |}.

(** The engine on patterns that are plain text, a leading [^] apart. *)
Definition engine : RegExpEngine :=
  {| regexp_test := fun source s =>
       match source with
       | String "^" text => Normal (String.prefix text s)
       | _ => Normal (Js.includes s source)
       end;
     regexp_replace_all := fun source replacement s =>
       Normal (Js.replaceAll s source replacement) |}.

(** A project without JSX source files. *)
Definition jsx : Jsx :=
  {| SourceFile := unit;
     JSXElement := Empty_set;
     parseSource := fun _ => Normal tt;
     jsxElements := fun _ => [];
     generateSource := fun _ code => code;
     getNodeClasses := fun _ => parse_error "not an element";
     getOidFromJsxElement := fun _ => None;
     transformAst := fun ast _ => Normal ast |}.

Definition config_file (projectRoot : string) : string :=
  projectRoot +:+ "/tailwind.config.ts".
Definition css_file (projectRoot : string) : string :=
  projectRoot +:+ "/app/globals.css".

(** Modelled from the spec: the locator and the read step of ./helpers
    and ../code/files, which are not among the sources. Section 4.1: the
    two files are found "using project convention (fixed candidate
    filenames/paths)", and the locator "returns both paths or signals not
    found (both null) without throwing". *)
Definition helpers : Helpers :=
  {| toCamelCase := camelCase;
     isColorsObjectProperty := fun path =>
       match node path with
       | ObjectProperty (Identifier name) (ObjectExpression _) => String.eqb name "colors"
       | _ => false
       end;
     getConfigPath := fun projectRoot fs =>
       match fs !! config_file projectRoot, fs !! css_file projectRoot with
       | Some _, Some _ =>
           (fs, Fulfilled (Some (config_file projectRoot), Some (css_file projectRoot)))
       | _, _ => (fs, Fulfilled (None, None))
       end;
     initializeTailwindColorContent := fun projectRoot fs =>
       match fs !! config_file projectRoot, fs !! css_file projectRoot with
       | Some config, Some css =>
           (fs, Fulfilled (Some {| configPath := config_file projectRoot;
                                   cssPath := css_file projectRoot;
                                   configContent := config;
                                   cssContent := css |}))
       | _, _ => (fs, Fulfilled None)
       end;
     findSourceFiles := fun _ => ret [];
     readFile := fun path fs => (fs, Fulfilled (fs !! path));
     dirname := fun path => Js.join "/" (removelast (Js.split "/" path));
     Mapping := Expression;
     empty_mapping := ObjectExpression [];
     extractObject := fun e => Normal e;
     Color := string;
     parseHslValue := fun _ => Normal None;
     toHex := fun color => Normal color |}.

(** A configuration file with the given members in its
    [theme.extend.colors] object. *)
Definition config_with (colors : list ObjectMember) : File :=
  OtherExpression "module.exports ="
    [ObjectExpression
       [ObjectProperty (Identifier "theme")
          (ObjectExpression
             [ObjectProperty (Identifier "extend")
                (ObjectExpression
                   [ObjectProperty (Identifier "colors") (ObjectExpression colors)])])]].

Definition group (name : string) (members : list ObjectMember) : ObjectMember :=
  ObjectProperty (Identifier name) (ObjectExpression members).

Definition leaf (name value : string) : ObjectMember :=
  ObjectProperty (Identifier name) (StringLiteral value).

Definition stylesheet : Root :=
  [Rule ":root" [Declaration "--brand-accent" "#ff0000"];
   Rule ".dark" [Declaration "--brand-accent" "#00ff00"]].

(** The project [/project] with the two files holding the given texts. *)
Definition project (config css : string) : FileSystem :=
  <[config_file "/project" := config]> (<[css_file "/project" := css]> ∅).

(** The same project behind a read step that fails: the locate-and-read
    helper rejects with the error of the file system. *)
Definition unreadable : Helpers :=
  {| toCamelCase := camelCase;
     isColorsObjectProperty := isColorsObjectProperty (Helpers := helpers);
     getConfigPath := fun _ => throw (ErrorObject "EACCES: permission denied");
     initializeTailwindColorContent := fun _ =>
       throw (ErrorObject "EACCES: permission denied");
     findSourceFiles := fun _ => ret [];
     readFile := fun _ => throw (ErrorObject "EACCES: permission denied");
     dirname := dirname (Helpers := helpers);
     Mapping := Expression;
     empty_mapping := ObjectExpression [];
     extractObject := fun e => Normal e;
     Color := string;
     parseHslValue := fun _ => Normal None;
     toHex := fun color => Normal color |}.

(** A project with one JSX source file, [/project/app/page.tsx]: a
    parsed file is the list of its elements, each with its class tokens
    and its identifier. *)
Definition page_file : string := "/project/app/page.tsx".

Definition jsx_pages (known : list (string * list (list string * option string))) : Jsx :=
  {| SourceFile := list (list string * option string);
     JSXElement := (list string * option string)%type;
     parseSource := fun code =>
       match List.find (fun entry => String.eqb (fst entry) code) known with
       | Some entry => Normal (snd entry)
       | None => Throw (ErrorObject "SyntaxError: unexpected token")
       end;
     jsxElements := fun ast => ast;
     generateSource := fun _ code => code;
     getNodeClasses := fun element => classes (fst element);
     getOidFromJsxElement := fun element => snd element;
     transformAst := fun ast _ => Normal ast |}.

End Sample.

(* ================================================================= *)
(** ** Further observations *)

(** On a pattern that is [^] and plain text, the engine tests for that
    text at the start. *)
Definition engine_plain_test `{RegExpEngine} : Prop :=
  forall text s,
    plain text = true ->
    regexp_test (String "^" text) s = Normal (String.prefix text s).

(** The stylesheet in which the children of every rule whose selector is
    accepted are replaced by [g] of the selector and of them. *)
Fixpoint rewrite_rules (accepts : string -> bool)
    (g : string -> list Child -> list Child) (n : Node) : Node :=
  match n with
  | Rule selector nodes => if accepts selector then Rule selector (g selector nodes) else n
  | AtRule name params nodes => AtRule name params (map (rewrite_rules accepts g) nodes)
  | OtherNode _ => n
  end.

(** The two scopes updateTailwindCssVariable walks. *)
Definition is_scope (selector : string) : bool :=
  String.eqb selector ":root" || String.eqb selector ".dark".

(** The scope is one a recolouring for [theme] applies to: every scope
    without a theme, the [.dark] rule for the dark theme, the other scope
    for the light theme. *)
Definition in_theme (theme : option Theme) (selector : string) : bool :=
  match theme with
  | None => true
  | Some theme_dark => String.eqb selector ".dark"
  | Some theme_light => negb (String.eqb selector ".dark")
  end.

(** A child with the value of the declaration of [--name] set to
    [newColor], when one is given, in the scopes of the theme; the
    declarations inside a block follow the scope of the rule that holds
    the block. *)
Fixpoint recolored (name newColor : string) (theme : option Theme) (selector : string)
    (child : Child) : Child :=
  match child with
  | Declaration prop value =>
      if String.eqb prop ("--" +:+ name) && (Js.truthy newColor && in_theme theme selector)
      then Declaration prop newColor
      else child
  | Block header nodes =>
      Block header (map (recolored name newColor theme selector) nodes)
  | OtherChild _ => child
  end.

(** The declaration is the one of [--name] or of a variable derived from
    it, [--name-...]. *)
Definition addressed (name : string) (child : Child) : bool :=
  match child with
  | Declaration prop _ =>
      String.eqb prop ("--" +:+ name) || String.prefix ("--" +:+ name +:+ "-") prop
  | _ => false
  end.

(** What a rename appends to the rule for a child: the declaration of
    [--name] under the new name, with the new colour in the scopes of the
    theme; a derived declaration [--name-rest] as [--newVarName-rest];
    for a block, what it appends for the children of the block, in
    order. *)
Fixpoint moved (name newVarName newColor : string) (theme : option Theme)
    (selector : string) (child : Child) : list Child :=
  match child with
  | Declaration prop value =>
      if String.eqb prop ("--" +:+ name) then
        [Declaration ("--" +:+ newVarName)
           (if Js.truthy newColor && in_theme theme selector then newColor else value)]
      else if String.prefix ("--" +:+ name +:+ "-") prop then
        [Declaration ("--" +:+ newVarName +:+ Js.drop (2 + String.length name) prop) value]
      else []
  | Block _ nodes => flat_map (moved name newVarName newColor theme selector) nodes
  | OtherChild _ => []
  end.

(** What a rename leaves in place of a child: nothing for an addressed
    declaration, the block without the addressed declarations inside it,
    and any other child as it is. *)
Fixpoint remaining (name : string) (child : Child) : list Child :=
  match child with
  | Declaration _ _ => if addressed name child then [] else [child]
  | Block header nodes => [Block header (flat_map (remaining name) nodes)]
  | OtherChild _ => [child]
  end.

(** The children of a rule after a rename: what remains of them, in
    order, then what the rename appended, in order. *)
Definition renamed_rule (name newVarName newColor : string) (theme : option Theme)
    (selector : string) (nodes : list Child) : list Child :=
  flat_map (remaining name) nodes ++
  flat_map (moved name newVarName newColor theme selector) nodes.

(** What stays in place of a child under a callback that answers [e],
    and what the callback appends to the rule for it. *)
Fixpoint stays (e : string -> string -> Edit) (child : Child) : list Child :=
  match child with
  | Declaration prop value =>
      match fst (e prop value) with Some d => [d] | None => [] end
  | Block header nodes => [Block header (flat_map (stays e) nodes)]
  | OtherChild _ => [child]
  end.

Fixpoint appends (e : string -> string -> Edit) (child : Child) : list Child :=
  match child with
  | Declaration prop value => snd (e prop value)
  | Block _ nodes => flat_map (appends e) nodes
  | OtherChild _ => []
  end.

(** The walk leaves the child as it is and appends nothing for it. *)
Definition left_alone (callback : string -> string -> Completion Edit) (child : Child)
  : Prop :=
  walk_block callback child = Normal ([child], []).

(** The answer of the callback of a rename, on a declaration. *)
Definition rename_answer (name newVarName newColor : string) (theme : option Theme)
    (selector prop value : string) : Edit :=
  (if addressed name (Declaration prop value) then None else Some (Declaration prop value),
   moved name newVarName newColor theme selector (Declaration prop value)).

(** No block is headed by the selector of a scope: no [:root] or
    [.dark] rule is nested in a rule of the stylesheet. *)
Fixpoint scope_free (child : Child) : bool :=
  match child with
  | Block header nodes => negb (is_scope header) && forallb scope_free nodes
  | _ => true
  end.

Fixpoint scopes_on_top (n : Node) : bool :=
  match n with
  | Rule _ nodes => forallb scope_free nodes
  | AtRule _ _ nodes => forallb scopes_on_top nodes
  | OtherNode _ => true
  end.

(** The name opens with a character other than a hyphen. *)
Definition opens_plainly (name : string) : bool :=
  match name with
  | EmptyString => false
  | String c _ => negb (Ascii.eqb c "-")
  end.

(** The element gives the visitor of updateClassReferences nothing to
    record: its classes are not parsed, or no token of them is to
    replace, or it has no identifier. *)
Definition unaffected `{Jsx} (replacements : list ClassReplacement) (element : JSXElement)
  : Prop :=
  match getNodeClasses element with
  | classes oldClasses =>
      hasChanges replacements oldClasses = false
      \/ Js.truthy_opt (getOidFromJsxElement element) = false
  | parse_error _ => True
  end.

(** A member of a group after the rename of the key [keyName], and a
    member of a colours object after it: the members of the groups keyed
    [parentKey] are renamed. *)
Definition renamed_member `{Helpers} (parentKey keyName newName newCssVarName : string)
    (nestedProp : ObjectMember) : ObjectMember :=
  fst (rename_child parentKey keyName newName newCssVarName nestedProp (false, false)).

Definition renamed_group `{Helpers} (parentKey keyName newName newCssVarName : string)
    (colorProp : ObjectMember) : ObjectMember :=
  match colorProp with
  | ObjectProperty (Identifier name) (ObjectExpression properties) =>
      if String.eqb name parentKey then
        ObjectProperty (Identifier name)
          (ObjectExpression
             (map (renamed_member parentKey keyName newName newCssVarName) properties))
      else colorProp
  | _ => colorProp
  end.

(** A string leaf keyed [name]. *)
Definition string_leaf_keyed (name : string) (m : ObjectMember) : bool :=
  match m with
  | ObjectProperty (Identifier n) (StringLiteral _) => String.eqb n name
  | _ => false
  end.

(** Some group keyed [parentKey] of the colours object has a member that
    passes the test. *)
Definition group_holds (parentKey : string) (test : ObjectMember -> bool)
    (colorObj : list ObjectMember) : bool :=
  existsb (existsb test) (groups_keyed parentKey colorObj).

(** The steps the walks over the accepted rules of a stylesheet need,
    for a walk that needs [steps] of the children of a rule. *)
Fixpoint rules_steps (steps : list Child -> nat) (n : Node) : nat :=
  match n with
  | Rule _ nodes => steps nodes
  | AtRule _ _ nodes =>
      (fix each (l : list Node) : nat :=
         match l with
         | [] => 0
         | c :: l' => rules_steps steps c + each l'
         end) nodes
  | OtherNode _ => 0
  end.

Definition rules_steps_root (steps : list Child -> nat) (tree : Root) : nat :=
  fold_right (fun n total => rules_steps steps n + total) 0 tree.

(** The number of declarations of a child, those inside its blocks
    counted. *)
Fixpoint declarations (child : Child) : nat :=
  match child with
  | Declaration _ _ => 1
  | Block _ nodes => list_sum (map declarations nodes)
  | OtherChild _ => 0
  end.

(** The steps of the walk of a rename over the children of a rule: one
    for each child, and one for each declaration it may append. *)
Definition rename_steps (nodes : list Child) : nat :=
  List.length nodes + list_sum (map declarations nodes).

(* ================================================================= *)
(** ** VersionRow.tsx *)

(** [a || b] on optional strings. *)
Definition or_else (a b : option string) : option string :=
  if Js.truthy_opt a then a else b.

(** The title of a row:
    [commit.displayName || commit.message || 'Backup']. *)
Definition row_title (displayName message : option string) : option string :=
  or_else (or_else displayName message) (Some "Backup").

(* ================================================================= *)
(** * Properties *)

(** ** JavaScript strings *)

Example split_two : Js.split "-" "brand-accent" = ["brand"; "accent"].
Proof. reflexivity. Qed.

Example split_three : Js.split "-" "my-brand-DEFAULT" = ["my"; "brand"; "DEFAULT"].
Proof. reflexivity. Qed.

Example split_none : Js.split "-" "" = [""].
Proof. reflexivity. Qed.

Example replace_first_only : Js.replace "a-a" "a" "b" = "b-a".
Proof. reflexivity. Qed.

Example replace_dollar : Js.replace "a-b" "b" "[$&$$]" = "a-[b$]".
Proof. reflexivity. Qed.

Example replaceAll_twice : Js.replaceAll "--a --a-b" "--a" "--c" = "--c --c-b".
Proof. reflexivity. Qed.

Example trim_both : Js.trim "   --brand-accent: #fff;  " = "--brand-accent: #fff;".
Proof. reflexivity. Qed.

Example ends_with_hyphen : Js.endsWith "bg-brand-accent" "-brand-accent" = true.
Proof. reflexivity. Qed.

Example camel_words : Sample.camelCase "Primary Color" = "primaryColor".
Proof. reflexivity. Qed.

Example camel_fixed : Sample.camelCase "brand" = "brand".
Proof. reflexivity. Qed.

Lemma split_nonempty (sep : ascii) (s : string) : Js.split sep s <> [].
Proof.
  destruct s as [|c s]; simpl; [discriminate|].
  destruct (Ascii.eqb c sep); [discriminate|].
  destruct (Js.split sep s); discriminate.
Qed.

(** A text without the separator is one piece. *)
Lemma split_without (sep : ascii) (s : string) :
  Js.has_char sep s = false -> Js.split sep s = [s].
Proof.
  induction s as [|c s IH]; simpl; [reflexivity|].
  intros Hc. apply orb_false_iff in Hc as [Hc Hs].
  rewrite Hc, (IH Hs). reflexivity.
Qed.

Lemma split_app (sep : ascii) (s t : string) :
  Js.has_char sep s = false ->
  Js.split sep (s +:+ String sep t) = s :: Js.split sep t.
Proof.
  induction s as [|c s IH]; simpl.
  - intros _. rewrite Ascii.eqb_refl. reflexivity.
  - intros Hc. apply orb_false_iff in Hc as [Hc Hs].
    rewrite Hc, (IH Hs). reflexivity.
Qed.

(* ================================================================= *)
(** ** Class references *)

(** X1. With a single replacement pair, a class token is rewritten
    exactly when it equals the old class or ends with a hyphen and the
    old class. *)
Lemma replace_class_single (r : ClassReplacement) (currentClass : string) :
  replace_class [r] currentClass <> None <->
  currentClass = oldClass r \/ Js.endsWith currentClass ("-" +:+ oldClass r) = true.
Proof.
  simpl. destruct (String.eqb_spec currentClass (oldClass r)) as [->|Hne]; simpl.
  - split; [intros _; left; reflexivity | discriminate].
  - destruct (Js.endsWith currentClass ("-" +:+ oldClass r)).
    + split; [intros _; right; reflexivity | discriminate].
    + split; [congruence | intros [?|?]; congruence].
Qed.

(** C5. A class token that ends with a hyphen and the old class is
    rewritten by replacing the first occurrence of the old class in it:
    for the old class [ring-ring], the new class [ring-halo] and the token
    [ring-ring-ring] the result is [ring-halo-ring], where the trailing
    segment is untouched and the prefix is not preserved; replacing the
    trailing segment would give [ring-ring-halo]. *)
Theorem replace_class_rewrites_first_occurrence :
  replace_class [{| oldClass := "ring-ring"; newClass := "ring-halo" |}] "ring-ring-ring"
    = Some "ring-halo-ring"
  /\ Js.endsWith "ring-ring-ring" ("-" +:+ "ring-ring") = true
  /\ "ring-halo-ring" <> "ring-" +:+ "ring-halo".
Proof. split; [reflexivity|]. split; [reflexivity | discriminate]. Qed.

(* ================================================================= *)
(** ** Names of custom properties *)

Section Names.

Context `{RegExpEngine} `{Helpers}.

Lemma created_variable_root (newName : string) :
  created_variable newName None = toCamelCase newName.
Proof. reflexivity. Qed.

Lemma created_variable_child (newName parentName : string) :
  parentName <> EmptyString ->
  created_variable newName (Some parentName) = parentName +:+ "-" +:+ toCamelCase newName.
Proof. destruct parentName; [congruence | reflexivity]. Qed.

(** A root rename to a different name takes the new name as it is. *)
Lemma renamed_variable_root (parentKey newName : string) :
  newName <> parentKey ->
  renamed_variable parentKey None parentKey newName = (newName, parentKey).
Proof.
  intros Hne. unfold renamed_variable.
  cbn [Js.truthy_opt Js.truthy Js.to_string negb].
  destruct (String.eqb_spec newName parentKey); [contradiction | reflexivity].
Qed.

(** A child rename to a different name takes the new name as it is. *)
Lemma renamed_variable_child (parentKey keyName originalName newName : string) :
  keyName <> EmptyString -> keyName <> "DEFAULT" -> newName <> keyName ->
  renamed_variable parentKey (Some keyName) originalName newName
  = (parentKey +:+ "-" +:+ newName, originalName).
Proof.
  intros Hk Hd Hne. unfold renamed_variable.
  destruct keyName as [|c k]; [contradiction|].
  cbn [Js.truthy_opt Js.truthy Js.to_string negb].
  destruct (String.eqb_spec (String c k) "DEFAULT"); [contradiction|].
  destruct (String.eqb_spec newName (String c k)); [contradiction | reflexivity].
Qed.

(** X4. A child rename whose new name is the name the key has (not
    DEFAULT, not empty) reuses the original property name exactly. *)
Lemma renamed_variable_unchanged (parentKey keyName originalName : string) :
  keyName <> EmptyString -> keyName <> "DEFAULT" ->
  renamed_variable parentKey (Some keyName) originalName keyName
  = (originalName, originalName).
Proof.
  intros Hk Hd. unfold renamed_variable.
  destruct keyName as [|c k]; [contradiction|].
  cbn [Js.truthy_opt Js.truthy Js.to_string negb].
  destruct (String.eqb_spec (String c k) "DEFAULT"); [contradiction|].
  rewrite String.eqb_refl. reflexivity.
Qed.

Lemma split_name_default (g : string) :
  Js.has_char "-" g = false ->
  split_name (g +:+ "-DEFAULT") = (g, Some "DEFAULT").
Proof.
  intros Hg. unfold split_name.
  change (g +:+ "-DEFAULT") with (g +:+ String "-" "DEFAULT").
  rewrite (split_app _ _ _ Hg). reflexivity.
Qed.

Lemma split_name_plain (g : string) :
  Js.has_char "-" g = false -> split_name g = (g, None).
Proof. intros Hg. unfold split_name. rewrite (split_without _ _ Hg). reflexivity. Qed.

End Names.

(** C3. The rename computes the new property name from the new name as
    given, without camel-casing it: renaming the root group [brand] to
    [Primary Color] gives the property name [Primary Color], and renaming
    the child [brand-accent] to [Deep Blue] gives [brand-Deep Blue], where
    the creation rule gives [primaryColor] and [brand-deepBlue]. In the
    same root rename the reference of a child in the configuration tree
    moves to the camel-cased prefix, [var(--primaryColor-accent)]. *)
Theorem renamed_variable_not_camel_cased :
  fst (rename_names "brand" "Primary Color") = "Primary Color"
  /\ @created_variable Sample.helpers "Primary Color" None = "primaryColor"
  /\ fst (rename_names "brand-accent" "Deep Blue") = "brand-Deep Blue"
  /\ @created_variable Sample.helpers "Deep Blue" (Some "brand") = "brand-deepBlue"
  /\ @rename_reference Sample.engine Sample.helpers "brand" "Primary Color"
       (Sample.leaf "accent" "var(--brand-accent)")
     = Normal (Sample.leaf "accent" "var(--primaryColor-accent)").
Proof. repeat split. Qed.

(** The DEFAULT rename keeps the name [brand] where the rename of the
    group itself takes the new name [main]. *)
Lemma default_rename_differs_from_group_rename :
  fst (rename_names "brand-DEFAULT" "main") = "brand"
  /\ fst (rename_names "brand" "main") = "main"
  /\ fst (rename_names "brand-DEFAULT" "main") <> fst (rename_names "brand" "main").
Proof. split; [reflexivity|]. split; [reflexivity | discriminate]. Qed.

(** With a hyphen in the group name the split takes the first two pieces,
    and the DEFAULT handling is not reached. *)
Example hyphenated_group_default :
  rename_names "my-brand-DEFAULT" "main" = ("my-main", "my-brand-DEFAULT").
Proof. reflexivity. Qed.

(* ================================================================= *)
(** ** Extractors and the scan entry point *)

Section Extractors.

Context `{Babel} `{PostCss} `{Helpers}.

(** X3. The configuration extractor answers the empty mapping when the
    parser throws. *)
Lemma extractColorsFromTailwindConfig_parse_failure (fileContent : string)
    (error : Thrown) :
  parse ["typescript"] fileContent = Throw error ->
  extractColorsFromTailwindConfig fileContent = empty_mapping.
Proof. intros Hp. unfold extractColorsFromTailwindConfig. rewrite Hp. reflexivity. Qed.

(** C7. The stylesheet extractor has no handler around the parser: when
    PostCSS throws on the text, extractTailwindCssVariables throws the
    same error to its caller instead of answering empty mappings. *)
Theorem extractTailwindCssVariables_propagates (content : string) (error : Thrown) :
  postcss_parse content = Throw error ->
  extractTailwindCssVariables content = Throw error.
Proof. intros Hp. unfold extractTailwindCssVariables. rewrite Hp. reflexivity. Qed.

Lemma extractTailwindCssVariables_empty_tree (content : string) :
  postcss_parse content = Normal [] ->
  extractTailwindCssVariables content = Normal {| root := ∅; dark := ∅ |}.
Proof. intros Hp. unfold extractTailwindCssVariables. rewrite Hp. reflexivity. Qed.

(** X2. The scan entry point never rejects: whatever is thrown inside
    is turned into [null]. *)
Lemma scanTailwindConfig_never_rejects (projectRoot : string) (fs : FileSystem)
    (error : Thrown) :
  snd (scanTailwindConfig projectRoot fs) <> Rejected error.
Proof.
  unfold scanTailwindConfig, try_catch.
  match goal with |- context [match ?t with _ => _ end] => destruct t as [fs' [r| |]] end;
    simpl; discriminate.
Qed.

(** C10. When the locator finds both paths, the configuration file is
    read with some content and the read of the stylesheet yields nothing
    ([null] or an empty text), the scan does not answer [null]: it
    answers the two paths, the colours extracted from the configuration
    text, and the empty [root] and [dark] mappings that the extractor
    gives for the empty stylesheet. *)
Theorem scanTailwindConfig_without_stylesheet (projectRoot : string)
    (fs fs1 fs2 fs3 : FileSystem) (config css content : string)
    (cssRead : option string) :
  getConfigPath projectRoot fs = (fs1, Fulfilled (Some config, Some css)) ->
  Js.truthy config = true ->
  Js.truthy css = true ->
  readFile config fs1 = (fs2, Fulfilled (Some content)) ->
  Js.truthy content = true ->
  readFile css fs2 = (fs3, Fulfilled cssRead) ->
  Js.truthy_opt cssRead = false ->
  postcss_parse "" = Normal [] ->
  scanTailwindConfig projectRoot fs
  = (fs3, Fulfilled (Some {| configPath := config;
                             configContent := extractColorsFromTailwindConfig content;
                             cssPath := css;
                             cssContent := {| root := ∅; dark := ∅ |} |})).
Proof.
  intros Hpaths Hconfig Hcss Hread Hcontent Hread' Hnone Hempty.
  unfold scanTailwindConfig, try_catch, bind. rewrite Hpaths.
  rewrite Hconfig, Hcss. cbn [negb orb]. rewrite Hread.
  cbn [Js.truthy_opt]. rewrite Hcontent. cbn [negb]. rewrite Hread', Hnone.
  cbn [negb]. rewrite (extractTailwindCssVariables_empty_tree _ Hempty).
  reflexivity.
Qed.

End Extractors.

Lemma extractTailwindCssVariables_propagates_witness :
  @postcss_parse (Sample.postcss []) "a {"
  = Throw (ErrorObject "SyntaxError: unexpected token")
  /\ @extractTailwindCssVariables (Sample.postcss []) Sample.helpers "a {"
     = Throw (ErrorObject "SyntaxError: unexpected token").
Proof.
  split; [reflexivity|].
  apply (@extractTailwindCssVariables_propagates (Sample.postcss []) Sample.helpers).
  reflexivity.
Defined.

(* ================================================================= *)
(** ** Trees *)

Section Induction.

Variables (P : Expression -> Prop) (Q : ObjectMember -> Prop).
Hypothesis P_string : forall value, P (StringLiteral value).
Hypothesis P_object : forall properties, Forall Q properties -> P (ObjectExpression properties).
Hypothesis P_other :
  forall kind children, Forall P children -> P (OtherExpression kind children).
Hypothesis Q_property : forall key value, P value -> Q (ObjectProperty key value).
Hypothesis Q_other : forall kind children, Forall P children -> Q (OtherMember kind children).

Lemma Expression_members_ind : (forall e, P e) /\ (forall m, Q m).
Proof using All.
  assert (expressions : forall e, P e).
  { fix IH 1. intros [value|properties|kind children].
    - apply P_string.
    - apply P_object. induction properties as [|m l IHl]; constructor; [|exact IHl].
      destruct m as [key value|kind children].
      + apply Q_property, IH.
      + apply Q_other. induction children as [|c l' IHl']; constructor;
          [apply IH | exact IHl'].
    - apply P_other. induction children as [|c l IHl]; constructor;
        [apply IH | exact IHl]. }
  split; [exact expressions|].
  intros [key value|kind children]; [apply Q_property, expressions|].
  apply Q_other. induction children as [|c l IHl]; constructor;
    [apply expressions | exact IHl].
Qed.

End Induction.

Lemma Node_nested_ind (P : Node -> Prop) :
  (forall selector nodes, P (Rule selector nodes)) ->
  (forall name params nodes, Forall P nodes -> P (AtRule name params nodes)) ->
  (forall text, P (OtherNode text)) ->
  forall n, P n.
Proof.
  intros HR HA HO. fix IH 1. intros [selector nodes|name params nodes|text].
  - apply HR.
  - apply HA. induction nodes as [|c l IHl]; constructor; [apply IH | exact IHl].
  - apply HO.
Qed.

Section Runs.

Context {A B S : Type}.

Lemma mapS_pure (step : A -> S -> Completion (B * S)) (g : A -> B) (l : list A) :
  Forall (fun a => forall s, step a s = Normal (g a, s)) l ->
  forall s, mapS step l s = Normal (map g l, s).
Proof.
  induction 1 as [|a l Ha _ IH]; intros s; simpl; [reflexivity|].
  rewrite Ha. simpl. rewrite IH. reflexivity.
Qed.


End Runs.


Section Traversal.

Context `{Helpers}.

(** A visitor that rewrites colours objects by a function does what
    [rewrite_colors_objects] describes. *)
Lemma traverse_rewrites {S : Type}
    (body : list ObjectMember -> S -> Completion (list ObjectMember * S))
    (f : list ObjectMember -> list ObjectMember) :
  (forall colorObj s, body colorObj s = Normal (f colorObj, s)) ->
  (forall e trail (s : S),
     traverse (on_colors_object body) trail e s
     = Normal (rewrite_colors_objects f trail e, s))
  /\ (forall m trail (s : S),
        traverse_member (on_colors_object body) trail m s
        = Normal (rewrite_colors_member f trail m, s)).
Proof.
  intros Hbody. apply Expression_members_ind.
  - reflexivity.
  - intros properties IH trail s. simpl.
    rewrite (mapS_pure _ (rewrite_colors_member f trail)); [reflexivity|].
    eapply Forall_impl; [exact IH|]. intros m Hm s'. apply Hm.
  - intros kind children IH trail s. simpl.
    rewrite (mapS_pure _ (rewrite_colors_objects f trail)); [reflexivity|].
    eapply Forall_impl; [exact IH|]. intros c Hc s'. apply Hc.
  - intros key value IH trail s.
    cbn [traverse_member rewrite_colors_member]. unfold on_colors_object at 1.
    cbn [node]. destruct (isColorsObjectProperty _).
    + destruct value as [v|properties|kind children];
        cbn [bindC fst snd]; try rewrite IH; try rewrite Hbody; reflexivity.
    + cbn [bindC fst snd]. rewrite IH. reflexivity.
  - intros kind children IH trail s. simpl.
    rewrite (mapS_pure _ (rewrite_colors_objects f trail)); [reflexivity|].
    eapply Forall_impl; [exact IH|]. intros c Hc s'. apply Hc.
Qed.

End Traversal.

(* ================================================================= *)
(** ** Stylesheets *)

Lemma walkRules_append (accepts : string -> bool) (prop value : string) (n : Node) :
  walkRules accepts (append_declaration prop value) n
  = Fulfilled (append_to_rules accepts (Declaration prop value) n).
Proof.
  induction n as [selector nodes|name params nodes IH|text] using Node_nested_ind; simpl.
  - destruct (accepts selector); reflexivity.
  - induction IH as [|c l Hc _ IHl]; simpl; [reflexivity|].
    rewrite Hc. simpl.
    match type of IHl with
    | bindS ?run _ = _ => destruct run as [l'| |] eqn:Hrun; simpl in IHl; try discriminate
    end.
    simpl. injection IHl as <-. reflexivity.
  - reflexivity.
Qed.

Lemma walkRules_root_append (accepts : string -> bool) (prop value : string)
    (tree : Root) :
  walkRules_root accepts (append_declaration prop value) tree
  = Fulfilled (map (append_to_rules accepts (Declaration prop value)) tree).
Proof.
  induction tree as [|n tree IH]; simpl; [reflexivity|].
  rewrite walkRules_append. simpl. rewrite IH. reflexivity.
Qed.

Lemma rules_of_AtRule (accepts : string -> bool) (name params : string)
    (nodes : list Node) :
  rules_of accepts (AtRule name params nodes) = flat_map (rules_of accepts) nodes.
Proof. simpl. induction nodes as [|c l IH]; simpl; [reflexivity | rewrite IH; reflexivity]. Qed.

(** Appending to the accepted rules, seen on the rules a second test
    accepts: each one that the first test accepts too has the declaration
    at its end, the others are as before. *)
Lemma rules_of_append (accepts accepts' : string -> bool) (d : Child) (n : Node) :
  (forall selector, accepts' selector = true -> accepts selector = true) ->
  rules_of accepts' (append_to_rules accepts d n)
  = map (fun nodes => nodes ++ [d]) (rules_of accepts' n).
Proof.
  intros Hsub.
  induction n as [selector nodes|name params nodes IH|text] using Node_nested_ind.
  - simpl. destruct (accepts' selector) eqn:Ha'.
    + rewrite (Hsub _ Ha'). simpl. rewrite Ha'. reflexivity.
    + destruct (accepts selector); simpl; rewrite Ha'; reflexivity.
  - cbn [append_to_rules]. rewrite !rules_of_AtRule.
    induction IH as [|c l Hc _ IHl]; simpl; [reflexivity|].
    rewrite Hc, IHl, map_app. reflexivity.
  - reflexivity.
Qed.

Lemma rules_of_append_apart (accepts accepts' : string -> bool) (d : Child) (n : Node) :
  (forall selector, accepts' selector = true -> accepts selector = false) ->
  rules_of accepts' (append_to_rules accepts d n) = rules_of accepts' n.
Proof.
  intros Hapart.
  induction n as [selector nodes|name params nodes IH|text] using Node_nested_ind.
  - simpl. destruct (accepts' selector) eqn:Ha'.
    + rewrite (Hapart _ Ha'). simpl. rewrite Ha'. reflexivity.
    + destruct (accepts selector); simpl; rewrite Ha'; reflexivity.
  - cbn [append_to_rules]. rewrite !rules_of_AtRule.
    induction IH as [|c l Hc _ IHl]; simpl; [reflexivity|].
    rewrite Hc, IHl. reflexivity.
  - reflexivity.
Qed.

Lemma rules_of_root_append (accepts accepts' : string -> bool) (d : Child) (tree : Root) :
  (forall selector, accepts' selector = true -> accepts selector = true) ->
  rules_of_root accepts' (map (append_to_rules accepts d) tree)
  = map (fun nodes => nodes ++ [d]) (rules_of_root accepts' tree).
Proof.
  intros Hsub. unfold rules_of_root.
  induction tree as [|n tree IH]; simpl; [reflexivity|].
  rewrite (rules_of_append _ _ _ _ Hsub), IH, map_app. reflexivity.
Qed.

Lemma rules_of_root_append_apart (accepts accepts' : string -> bool) (d : Child)
    (tree : Root) :
  (forall selector, accepts' selector = true -> accepts selector = false) ->
  rules_of_root accepts' (map (append_to_rules accepts d) tree)
  = rules_of_root accepts' tree.
Proof.
  intros Hapart. unfold rules_of_root.
  induction tree as [|n tree IH]; simpl; [reflexivity|].
  rewrite (rules_of_append_apart _ _ _ _ Hapart), IH. reflexivity.
Qed.

(* ================================================================= *)
(** ** Creation *)

Section Creation.

Context `{Babel} `{Jsx} `{PostCss} `{RegExpEngine} `{Helpers}.

Lemma addTailwindCssVariable_runs (cssContent varName color : string) (tree : Root)
    (fs : FileSystem) :
  postcss_parse cssContent = Normal tree ->
  addTailwindCssVariable cssContent varName color fs
  = (fs, Fulfilled
           (postcss_stringify
              (map (append_to_rules (String.eqb ".dark") (Declaration ("--" +:+ varName) color))
                 (map (append_to_rules (String.eqb ":root")
                         (Declaration ("--" +:+ varName) color)) tree)))).
Proof.
  intros Hp. unfold addTailwindCssVariable, processCss, bind, lift. rewrite Hp.
  unfold ret at 1. rewrite walkRules_root_append. cbn [bindS].
  rewrite walkRules_root_append. reflexivity.
Qed.


End Creation.


(* ================================================================= *)
(** ** Entry points *)

Section EntryPoints.

Context `{Babel} `{Jsx} `{PostCss} `{RegExpEngine} `{Helpers}.

(** A failure of the locate-and-read step is awaited inside the [try] and
    reaches the handler. *)
Lemma deleteTailwindColorGroup_catches_preparation (projectRoot groupName : string)
    (colorName : option string) (fs fs1 : FileSystem) (error : Thrown) :
  initializeTailwindColorContent projectRoot fs = (fs1, Rejected error) ->
  deleteTailwindColorGroup projectRoot groupName colorName fs
  = (fs1, Fulfilled {| success := false; error := Some (message_of error) |}).
Proof.
  intros Hinit. unfold deleteTailwindColorGroup, try_catch, bind. rewrite Hinit.
  reflexivity.
Qed.

(** C1. When the located configuration text does not parse, the promise
    of deleteTailwindColorGroup and, for a creation, the promise of
    updateTailwindColorConfig are rejected with the parser's error instead
    of being fulfilled with [{success: false, error}]: the mutator's
    promise is returned from inside the [try] without being awaited, so
    its rejection does not reach the handler. *)
Theorem entry_points_reject (fuel : nat) (projectRoot groupName newColor newName : string)
    (colorName parentName : option string) (theme : option Theme)
    (fs fs1 : FileSystem) (update : ColorUpdate) (tree : Root) (error : Thrown) :
  initializeTailwindColorContent projectRoot fs = (fs1, Fulfilled (Some update)) ->
  parse ["typescript"; "jsx"] (configContent update) = Throw error ->
  postcss_parse (cssContent update) = Normal tree ->
  deleteTailwindColorGroup projectRoot groupName colorName fs = (fs1, Rejected error)
  /\ exists fs',
       updateTailwindColorConfig fuel projectRoot "" newColor newName theme parentName fs
       = (fs', Rejected error).
Proof.
  intros Hinit Hconfig Hcss. split.
  - unfold deleteTailwindColorGroup, try_catch, bind at 1 2. rewrite Hinit.
    unfold promise, deleteColorGroup, bind, lift. rewrite Hconfig. reflexivity.
  - eexists. unfold updateTailwindColorConfig, try_catch, bind at 1 2. rewrite Hinit.
    cbn [Js.truthy]. unfold promise, createTailwindColorVariable, bind.
    rewrite (addTailwindCssVariable_runs _ _ _ _ _ Hcss).
    unfold writeFileSync at 1. unfold lift at 1. rewrite Hconfig. reflexivity.
Qed.

End EntryPoints.

Lemma entry_points_reject_witness :
  let babel := Sample.babel [] in
  let postcss := Sample.postcss [Sample.stylesheet] in
  let fs := Sample.project "module.exports = {" (Sample.print_root Sample.stylesheet) in
  let error := ErrorObject "SyntaxError: unexpected token" in
  @deleteTailwindColorGroup babel Sample.helpers "/project" "brand" (Some "accent") fs
  = (fs, Rejected error)
  /\ exists fs',
       @updateTailwindColorConfig babel Sample.jsx postcss Sample.engine Sample.helpers
         0 "/project" "" "#3366ff" "accent" None None fs
       = (fs', Rejected error).
Proof.
  intros babel postcss fs error.
  apply (@entry_points_reject babel Sample.jsx postcss Sample.engine Sample.helpers
           0 "/project" "brand" "#3366ff" "accent" (Some "accent") None None fs fs
           {| configPath := Sample.config_file "/project";
              cssPath := Sample.css_file "/project";
              configContent := "module.exports = {";
              cssContent := Sample.print_root Sample.stylesheet |}
           Sample.stylesheet error); reflexivity.
Defined.

Lemma extractColorsFromTailwindConfig_parse_failure_witness :
  @extractColorsFromTailwindConfig (Sample.babel []) Sample.helpers "module.exports = {"
  = ObjectExpression [].
Proof.
  apply (@extractColorsFromTailwindConfig_parse_failure (Sample.babel []) Sample.helpers
           "module.exports = {" (ErrorObject "SyntaxError: unexpected token")).
  reflexivity.
Defined.

Lemma renamed_variable_unchanged_witness :
  renamed_variable "brand" (Some "accent") "brand-accent" "accent"
  = ("brand-accent", "brand-accent").
Proof.
  apply (renamed_variable_unchanged "brand" "accent" "brand-accent"); discriminate.
Defined.

Lemma scanTailwindConfig_without_stylesheet_witness :
  let colors := [Sample.group "brand" [Sample.leaf "accent" "var(--brand-accent)"]] in
  let babel := Sample.babel [Sample.config_with colors] in
  let fs := Sample.project (Sample.print_expression (Sample.config_with colors)) "" in
  @scanTailwindConfig babel (Sample.postcss []) Sample.helpers "/project" fs
  = (fs, Fulfilled
           (Some {| configPath := Sample.config_file "/project";
                    configContent := ObjectExpression colors;
                    cssPath := Sample.css_file "/project";
                    cssContent := {| root := ∅; dark := ∅ |} |})).
Proof.
  intros colors babel fs.
  apply (@scanTailwindConfig_without_stylesheet babel (Sample.postcss []) Sample.helpers
           "/project" fs fs fs fs (Sample.config_file "/project")
           (Sample.css_file "/project")
           (Sample.print_expression (Sample.config_with colors)) (Some ""));
    reflexivity.
Defined.

(* ================================================================= *)
(** ** Deletion *)

Lemma split_pieces (sep : ascii) (s : string) :
  Forall (fun piece => Js.has_char sep piece = false) (Js.split sep s).
Proof.
  induction s as [|c s IH]; simpl.
  - constructor; [reflexivity | constructor].
  - destruct (Ascii.eqb c sep) eqn:Hc.
    + constructor; [reflexivity | exact IH].
    + destruct (Js.split sep s) as [|piece pieces]; simpl.
      * constructor; [simpl; rewrite Hc; reflexivity | constructor].
      * inversion IH as [|? ? Hpiece Hpieces]; subst.
        constructor; [simpl; rewrite Hc; exact Hpiece | exact Hpieces].
Qed.

(** Joining pieces that are free of the separator and splitting again
    gives the pieces back. *)
Lemma split_join (sep : ascii) (l : list string) :
  l <> [] ->
  Forall (fun piece => Js.has_char sep piece = false) l ->
  Js.split sep (Js.join (String sep EmptyString) l) = l.
Proof.
  induction l as [|s l IH]; [congruence|]. intros _ Hl.
  inversion Hl as [|? ? Hs Hrest]; subst.
  destruct l as [|s' l].
  - simpl. apply split_without, Hs.
  - change (Js.join (String sep EmptyString) (s :: s' :: l))
      with (s +:+ String sep (Js.join (String sep EmptyString) (s' :: l))).
    rewrite (split_app _ _ _ Hs), IH; [reflexivity | discriminate | exact Hrest].
Qed.

Lemma find_skip {A : Type} (test : A -> bool) (before after : list A) (x : A) :
  existsb test before = false -> test x = true ->
  List.find test (before ++ x :: after) = Some x.
Proof.
  induction before as [|a l IH]; simpl; intros Hb Hx.
  - rewrite Hx. reflexivity.
  - apply orb_false_iff in Hb as [Ha Hl]. rewrite Ha. apply IH; assumption.
Qed.

Section Deletion.

Context `{Babel} `{Helpers}.

Lemma remove_first_skip (test : ObjectMember -> bool) (before after : list ObjectMember)
    (x : ObjectMember) :
  existsb test before = false -> test x = true ->
  remove_first test (before ++ x :: after) = before ++ after.
Proof.
  induction before as [|a l IH]; simpl; intros Hb Hx.
  - rewrite Hx. reflexivity.
  - apply orb_false_iff in Hb as [Ha Hl]. rewrite Ha, IH; auto.
Qed.

(** Deleting the only member of a group removes the group. *)
Lemma delete_from_colors_only_member (g c : string) (value : Expression)
    (before after : list ObjectMember) :
  existsb (keyed g) before = false ->
  delete_from_colors g (Some c)
    (before ++
     [ObjectProperty (Identifier g)
        (ObjectExpression [ObjectProperty (Identifier c) value])] ++ after)
  = before ++ after.
Proof.
  intros Hb. unfold delete_from_colors.
  assert (Hg : keyed g (ObjectProperty (Identifier g)
                          (ObjectExpression [ObjectProperty (Identifier c) value])) = true)
    by apply String.eqb_refl.
  cbn [app]. rewrite (find_skip _ _ _ _ Hb Hg).
  destruct (Js.truthy_opt (Some c)).
  - cbn [Js.to_string existsb keyed]. rewrite String.eqb_refl. cbn [orb remove_first keyed].
    rewrite String.eqb_refl. apply remove_first_skip; assumption.
  - apply remove_first_skip; assumption.
Qed.

(** Deleting a whole group removes its entry. *)
Lemma delete_from_colors_group (g : string) (members : list ObjectMember)
    (before after : list ObjectMember) :
  existsb (keyed g) before = false ->
  delete_from_colors g None
    (before ++ [ObjectProperty (Identifier g) (ObjectExpression members)] ++ after)
  = before ++ after.
Proof.
  intros Hb. unfold delete_from_colors.
  assert (Hg : keyed g (ObjectProperty (Identifier g) (ObjectExpression members)) = true)
    by apply String.eqb_refl.
  cbn [app]. rewrite (find_skip _ _ _ _ Hb Hg). cbn [Js.truthy_opt].
  apply remove_first_skip; assumption.
Qed.

(** No line of the text that deleteColorGroup writes passes the removal
    test, and every line of the old text that fails it is still there. *)
Lemma updatedCssLines_lines (g : string) (colorName : option string) (css : string) :
  let written := Js.join (String "010" EmptyString) (updatedCssLines g colorName css) in
  (forall line, In line (Js.split "010" written) -> shouldKeep g colorName line = true)
  /\ (forall line, In line (Js.split "010" css) -> shouldKeep g colorName line = true ->
        In line (Js.split "010" written)).
Proof.
  intros written. subst written. unfold updatedCssLines.
  destruct (List.filter (shouldKeep g colorName) (Js.split "010" css)) as [|l0 l] eqn:Hf.
  - split.
    + simpl. intros line [<-|[]]. unfold shouldKeep. destruct (Js.truthy_opt colorName); reflexivity.
    + intros line Hin Hkeep.
      assert (Hin' : In line (List.filter (shouldKeep g colorName) (Js.split "010" css)))
        by (apply filter_In; auto).
      rewrite Hf in Hin'. destruct Hin'.
  - rewrite split_join; [|discriminate|].
    + rewrite <- Hf. split.
      * intros line Hin. apply filter_In in Hin. apply Hin.
      * intros line Hin Hkeep. apply filter_In. auto.
    + rewrite <- Hf. apply List.Forall_forall. intros piece Hin.
      apply filter_In in Hin as [Hin _].
      exact (proj1 (List.Forall_forall _ _) (split_pieces "010" css) piece Hin).
Qed.

Lemma deleteTailwindColorGroup_runs (projectRoot groupName : string)
    (colorName : option string) (fs fs1 : FileSystem) (update : ColorUpdate) (ast : File) :
  initializeTailwindColorContent projectRoot fs = (fs1, Fulfilled (Some update)) ->
  parse ["typescript"; "jsx"] (configContent update) = Normal ast ->
  deleteTailwindColorGroup projectRoot groupName colorName fs
  = (<[configPath update :=
         generate
           (rewrite_colors_objects (delete_from_colors (toCamelCase groupName) colorName)
              [] ast)
           (configContent update)]>
       (<[cssPath update :=
            Js.join (String "010" EmptyString)
              (updatedCssLines (toCamelCase groupName) colorName (cssContent update))]> fs1),
     Fulfilled {| success := true; error := None |}).
Proof.
  intros Hinit Hconfig.
  unfold deleteTailwindColorGroup, try_catch, bind at 1 2. rewrite Hinit.
  unfold promise, deleteColorGroup, bind. unfold lift at 1. rewrite Hconfig.
  unfold ret at 1.
  match goal with
  | |- context [traverse (on_colors_object ?body) [] ast tt] =>
      assert (Hbody : forall colorObj s,
                body colorObj s
                = Normal (delete_from_colors (toCamelCase groupName) colorName colorObj, s))
        by (intros colorObj []; reflexivity);
      rewrite (proj1 (traverse_rewrites body _ Hbody))
  end.
  reflexivity.
Qed.

(** C8, as the code has it. Through the delete entry point, with the
    group named in its identifier-safe casing [g = toCamelCase(groupName)]
    and the entries found by their identifier keys. Deleting the colour
    [c] (a non-empty name): in every colours object where the first entry
    keyed by the identifier [g] is a group whose only member is keyed by
    the identifier [c], that entry is removed, so the key [c] and the
    emptied group both disappear; the stylesheet written has no line
    whose trimmed text begins with [--g-c], and keeps every other line.
    Deleting the whole group: the first entry keyed by the identifier
    [g], a group, is removed; the stylesheet written has no line whose
    trimmed text begins with [--g], and keeps every other line. An entry
    under a key that is not an identifier is not found. *)
Theorem delete_color_and_group (projectRoot groupName c : string) (fs fs1 : FileSystem)
    (update : ColorUpdate) (ast : File) :
  initializeTailwindColorContent projectRoot fs = (fs1, Fulfilled (Some update)) ->
  parse ["typescript"; "jsx"] (configContent update) = Normal ast ->
  c <> EmptyString ->
  let g := toCamelCase groupName in
  let lines := Js.split "010" in
  (exists css' f,
     deleteTailwindColorGroup projectRoot groupName (Some c) fs
     = (<[configPath update :=
            generate (rewrite_colors_objects f [] ast) (configContent update)]>
          (<[cssPath update := css']> fs1),
        Fulfilled {| success := true; error := None |})
     /\ (forall value before after,
           existsb (keyed g) before = false ->
           f (before ++
              [ObjectProperty (Identifier g)
                 (ObjectExpression [ObjectProperty (Identifier c) value])] ++ after)
           = before ++ after)
     /\ (forall line, In line (lines css') ->
           Js.startsWith (Js.trim line) ("--" +:+ g +:+ "-" +:+ c) = false)
     /\ (forall line, In line (lines (cssContent update)) ->
           Js.startsWith (Js.trim line) ("--" +:+ g +:+ "-" +:+ c) = false ->
           In line (lines css')))
  /\ (exists css' f,
        deleteTailwindColorGroup projectRoot groupName None fs
        = (<[configPath update :=
               generate (rewrite_colors_objects f [] ast) (configContent update)]>
             (<[cssPath update := css']> fs1),
           Fulfilled {| success := true; error := None |})
        /\ (forall members before after,
              existsb (keyed g) before = false ->
              f (before ++
                 [ObjectProperty (Identifier g) (ObjectExpression members)] ++ after)
              = before ++ after)
        /\ (forall line, In line (lines css') ->
              Js.startsWith (Js.trim line) ("--" +:+ g) = false)
        /\ (forall line, In line (lines (cssContent update)) ->
              Js.startsWith (Js.trim line) ("--" +:+ g) = false ->
              In line (lines css'))).
Proof.
  intros Hinit Hconfig Hc g lines.
  assert (Hcolor : forall line,
            shouldKeep g (Some c) line
            = negb (Js.startsWith (Js.trim line) ("--" +:+ g +:+ "-" +:+ c))).
  { intros line. unfold shouldKeep. destruct c; [contradiction | reflexivity]. }
  split.
  - eexists _, _. split; [apply deleteTailwindColorGroup_runs; eassumption|].
    split; [intros; apply delete_from_colors_only_member; assumption|].
    destruct (updatedCssLines_lines g (Some c) (cssContent update)) as [Hgone Hkept].
    split.
    + intros line Hin. specialize (Hgone line Hin). rewrite Hcolor in Hgone.
      apply negb_true_iff, Hgone.
    + intros line Hin Hline. apply Hkept; [exact Hin|].
      rewrite Hcolor, Hline. reflexivity.
  - eexists _, _. split; [apply deleteTailwindColorGroup_runs; eassumption|].
    split; [intros; apply delete_from_colors_group; assumption|].
    destruct (updatedCssLines_lines g None (cssContent update)) as [Hgone Hkept].
    split.
    + intros line Hin. specialize (Hgone line Hin). apply negb_true_iff, Hgone.
    + intros line Hin Hline. apply Hkept; [exact Hin|].
      unfold shouldKeep. cbn [Js.truthy_opt]. rewrite Hline. reflexivity.
Qed.

End Deletion.

Lemma delete_color_and_group_witness :
  let colors :=
    [Sample.leaf "white" "var(--white)";
     Sample.group "brand" [Sample.leaf "accent" "var(--brand-accent)"]] in
  let babel := Sample.babel [Sample.config_with colors] in
  let fs := Sample.project (Sample.print_expression (Sample.config_with colors))
              (Sample.print_root Sample.stylesheet) in
  exists css',
    @deleteTailwindColorGroup babel Sample.helpers "/project" "brand" (Some "accent") fs
    = (<[Sample.config_file "/project" :=
           Sample.print_expression
             (Sample.config_with [Sample.leaf "white" "var(--white)"])]>
         (<[Sample.css_file "/project" := css']> fs),
       Fulfilled {| success := true; error := None |})
    /\ (forall line, In line (Js.split "010" css') ->
          Js.startsWith (Js.trim line) "--brand-accent" = false)
    /\ In ":root {" (Js.split "010" css').
Proof.
  intros colors babel fs.
  destruct (@delete_color_and_group babel Sample.helpers "/project" "brand" "accent" fs fs
              {| configPath := Sample.config_file "/project";
                 cssPath := Sample.css_file "/project";
                 configContent := Sample.print_expression (Sample.config_with colors);
                 cssContent := Sample.print_root Sample.stylesheet |}
              (Sample.config_with colors))
    as [(css' & f & Hrun & Hf & Hgone & Hkept) _];
    [reflexivity | reflexivity | discriminate |].
  exists css'. split; [|split; [exact Hgone|]].
  - assert (Hf' : f colors = [Sample.leaf "white" "var(--white)"])
      by exact (Hf (StringLiteral "var(--brand-accent)")
                  [Sample.leaf "white" "var(--white)"] [] eq_refl).
    rewrite Hrun.
    change (rewrite_colors_objects f [] (Sample.config_with colors))
      with (Sample.config_with (f colors)).
    rewrite Hf'. reflexivity.
  - apply Hkept; [|reflexivity]. cbn. left. reflexivity.
Defined.

(* ================================================================= *)
(** ** Renaming to the same name *)

Lemma Child_nested_ind (P : Child -> Prop) :
  (forall prop value, P (Declaration prop value)) ->
  (forall header nodes, Forall P nodes -> P (Block header nodes)) ->
  (forall text, P (OtherChild text)) ->
  forall child, P child.
Proof.
  intros HD HB HO. fix IH 1. intros [prop value|header nodes|text].
  - apply HD.
  - apply HB. induction nodes as [|c l IHl]; constructor; [apply IH | exact IHl].
  - apply HO.
Qed.

(** A callback that gives every declaration back as it is leaves a
    child, with the blocks inside it, as it is. *)
Lemma walk_block_keeps (callback : string -> string -> Completion Edit) (child : Child) :
  (forall prop value, callback prop value = Normal (Some (Declaration prop value), [])) ->
  left_alone callback child.
Proof.
  intros Hcb. unfold left_alone.
  induction child as [prop value|header nodes IH|text] using Child_nested_ind.
  - cbn [walk_block]. rewrite Hcb. reflexivity.
  - cbn [walk_block].
    match goal with
    | |- bindC ?run _ = _ => assert (Hrun : run = Normal (nodes, []))
    end.
    { induction IH as [|c l Hc _ IHl]; [reflexivity|].
      rewrite Hc. cbn [bindC]. rewrite IHl. reflexivity. }
    rewrite Hrun. reflexivity.
  - reflexivity.
Qed.

Lemma walkDecls_keeps (fuel : nat) (callback : string -> string -> Completion Edit)
    (pending : list Child) :
  Forall (left_alone callback) pending ->
  List.length pending <= fuel ->
  forall visited, walkDecls fuel callback visited pending = Fulfilled (visited ++ pending).
Proof.
  revert pending.
  induction fuel as [|fuel IH]; intros pending Hp Hlen visited.
  - destruct pending; [simpl; rewrite app_nil_r; reflexivity | simpl in Hlen; lia].
  - destruct pending as [|child rest]; [simpl; rewrite app_nil_r; reflexivity|].
    inversion Hp as [|? ? Hchild Hrest]; subst. simpl in Hlen.
    cbn [walkDecls]. unfold left_alone in Hchild. rewrite Hchild, app_nil_r.
    rewrite IH; [|exact Hrest|lia]. rewrite <- app_assoc. reflexivity.
Qed.

Lemma walkRules_keeps (accepts : string -> bool)
    (callback : string -> list Child -> Settled (list Child)) (fuel : nat) (n : Node) :
  (forall selector nodes, List.length nodes <= fuel ->
     callback selector nodes = Fulfilled nodes) ->
  children_count n <= fuel ->
  walkRules accepts callback n = Fulfilled n.
Proof.
  intros Hcb.
  induction n as [selector nodes|name params nodes IH|text] using Node_nested_ind;
    simpl; intros Hcount.
  - destruct (accepts selector); [|reflexivity]. rewrite Hcb; [reflexivity | exact Hcount].
  - match goal with
    | |- bindS ?run _ = _ => assert (Hrun : run = Fulfilled nodes)
    end.
    { induction IH as [|c l Hc _ IHl]; [reflexivity|].
      rewrite Hc; [|lia]. simpl. rewrite IHl; [reflexivity | lia]. }
    rewrite Hrun. reflexivity.
  - reflexivity.
Qed.

Lemma walkRules_root_keeps (accepts : string -> bool)
    (callback : string -> list Child -> Settled (list Child)) (fuel : nat) (tree : Root) :
  (forall selector nodes, List.length nodes <= fuel ->
     callback selector nodes = Fulfilled nodes) ->
  children_count_root tree <= fuel ->
  walkRules_root accepts callback tree = Fulfilled tree.
Proof.
  intros Hcb. induction tree as [|n tree IH]; simpl; intros Hcount; [reflexivity|].
  rewrite (walkRules_keeps _ _ fuel); [|exact Hcb|lia].
  simpl. rewrite IH; [reflexivity | lia].
Qed.

Section SameName.

Context `{Babel} `{Jsx} `{PostCss} `{RegExpEngine} `{Helpers}.

Lemma update_declaration_untouched (selector name : string) (theme : option Theme)
    (prop value : string) :
  update_declaration selector name name "" theme prop value
  = Normal (Some (Declaration prop value), []).
Proof.
  unfold update_declaration. rewrite String.eqb_refl, andb_false_r.
  cbn [Js.truthy andb]. destruct (String.eqb prop ("--" +:+ name)); reflexivity.
Qed.

(** Without a new name and without a colour, the stylesheet is printed
    from the tree as parsed. *)
Lemma updateTailwindCssVariable_untouched (fuel : nat) (cssContent name : string)
    (theme : option Theme) (tree : Root) (fs : FileSystem) :
  postcss_parse cssContent = Normal tree ->
  children_count_root tree <= fuel ->
  updateTailwindCssVariable fuel cssContent name name "" theme fs
  = (fs, Fulfilled (postcss_stringify tree)).
Proof.
  intros Hp Hfuel. unfold updateTailwindCssVariable, processCss, bind, lift.
  rewrite Hp. unfold ret at 1.
  rewrite (walkRules_root_keeps _ _ fuel); [reflexivity| |exact Hfuel].
  intros selector nodes Hlen. apply (walkDecls_keeps fuel _ nodes); [|exact Hlen].
  apply List.Forall_forall. intros child _. apply walk_block_keeps.
  intros prop value. apply update_declaration_untouched.
Qed.

End SameName.

Section Keeping.

Context {S : Type} (R : S -> S -> Prop).
Hypothesis R_refl : forall s, R s s.
Hypothesis R_trans : forall s1 s2 s3, R s1 s2 -> R s2 s3 -> R s1 s3.

Lemma mapS_keeps {A : Type} (step : A -> S -> Completion (A * S)) (l : list A) :
  Forall (fun a => forall s, exists s', step a s = Normal (a, s') /\ R s s') l ->
  forall s, exists s', mapS step l s = Normal (l, s') /\ R s s'.
Proof using R_refl R_trans.
  induction 1 as [|a l Ha _ IH]; intros s; simpl; [eauto|].
  destruct (Ha s) as (s1 & -> & H1). simpl.
  destruct (IH s1) as (s2 & -> & H2). simpl. eauto.
Qed.

Context `{Helpers}.

(** A visitor whose body gives every colours object of the tree back as
    it is returns the tree as it is. *)
Lemma traverse_keeps
    (body : list ObjectMember -> S -> Completion (list ObjectMember * S)) :
  (forall e trail,
     Forall (fun colorObj => forall s, exists s',
                 body colorObj s = Normal (colorObj, s') /\ R s s')
       (colors_objects trail e) ->
     forall s, exists s',
       traverse (on_colors_object body) trail e s = Normal (e, s') /\ R s s')
  /\ (forall m trail,
        Forall (fun colorObj => forall s, exists s',
                    body colorObj s = Normal (colorObj, s') /\ R s s')
          (colors_objects_member trail m) ->
        forall s, exists s',
          traverse_member (on_colors_object body) trail m s = Normal (m, s') /\ R s s').
Proof using R_refl R_trans.
  apply Expression_members_ind.
  - intros value trail _ s. simpl. eauto.
  - intros properties IH trail Hall s. simpl in *.
    apply List.Forall_flat_map in Hall.
    destruct (mapS_keeps (traverse_member (on_colors_object body) trail) properties)
      with (s := s) as (s' & -> & Hs'); [|simpl; eauto].
    rewrite List.Forall_forall in *. intros m Hm. apply IH; auto.
  - intros kind children IH trail Hall s. simpl in *.
    apply List.Forall_flat_map in Hall.
    destruct (mapS_keeps (traverse (on_colors_object body) trail) children)
      with (s := s) as (s' & -> & Hs'); [|simpl; eauto].
    rewrite List.Forall_forall in *. intros c Hc. apply IH; auto.
  - intros key value IH trail Hall s.
    cbn [traverse_member colors_objects_member] in *. unfold on_colors_object at 1.
    cbn [node]. destruct (isColorsObjectProperty _).
    + destruct value as [v|properties|kind children]; cbn [bindC fst snd].
      * destruct (IH (key :: trail) Hall s) as (s' & -> & Hs'). simpl. eauto.
      * inversion Hall as [|? ? Hbody _]; subst.
        destruct (Hbody s) as (s' & -> & Hs'). simpl. eauto.
      * destruct (IH (key :: trail) Hall s) as (s' & -> & Hs'). simpl. eauto.
    + cbn [bindC fst snd]. destruct (IH (key :: trail) Hall s) as (s' & -> & Hs').
      simpl. eauto.
  - intros kind children IH trail Hall s. simpl in *.
    apply List.Forall_flat_map in Hall.
    destruct (mapS_keeps (traverse (on_colors_object body) trail) children)
      with (s := s) as (s' & -> & Hs'); [|simpl; eauto].
    rewrite List.Forall_forall in *. intros c Hc. apply IH; auto.
Qed.

End Keeping.

Section SameNameConfig.

Context `{Babel} `{Jsx} `{PostCss} `{RegExpEngine} `{Helpers}.

Lemma rename_child_same (parentKey k newCssVarName : string) (nestedProp : ObjectMember)
    (flags : Flags) :
  Forall (fun value =>
            value = var_reference (if String.eqb k "DEFAULT" then parentKey
                                   else newCssVarName))
    (leaves_keyed k [nestedProp]) ->
  exists valueUpdated',
    rename_child parentKey k k newCssVarName nestedProp flags
    = (nestedProp, (fst flags, valueUpdated')).
Proof.
  intros Hleaf. destruct flags as [ku vu].
  destruct nestedProp as [[name|source] value|kind children]; simpl; eauto.
  simpl in Hleaf. destruct (String.eqb name k); [|eauto].
  rewrite String.eqb_refl. cbn [negb].
  destruct value as [v|properties|kind children]; eauto.
  simpl in Hleaf. inversion Hleaf as [|? ? Hv _]; subst. eauto.
Qed.

Lemma rename_children_same (parentKey k newCssVarName : string)
    (members : list ObjectMember) :
  Forall (fun value =>
            value = var_reference (if String.eqb k "DEFAULT" then parentKey
                                   else newCssVarName))
    (leaves_keyed k members) ->
  forall flags, exists valueUpdated',
    rename_children parentKey k k newCssVarName members flags
    = (members, (fst flags, valueUpdated')).
Proof.
  induction members as [|m l IH]; intros Hleaves flags.
  - destruct flags. simpl. eauto.
  - unfold leaves_keyed in Hleaves. cbn [flat_map] in Hleaves.
    apply Forall_app in Hleaves as [Hm Hl].
    cbn [rename_children].
    destruct (rename_child_same parentKey k newCssVarName m flags) as [vu ->].
    { unfold leaves_keyed. cbn [flat_map]. rewrite app_nil_r. exact Hm. }
    cbn [fst snd]. destruct (IH Hl (fst flags, vu)) as [vu' ->]. simpl. eauto.
Qed.

Lemma update_color_props_same (parentKey k newCssVarName : string)
    (colorObj : list ObjectMember) :
  k <> EmptyString ->
  Forall (fun members =>
            Forall (fun value =>
                      value = var_reference (if String.eqb k "DEFAULT" then parentKey
                                             else newCssVarName))
              (leaves_keyed k members))
    (groups_keyed parentKey colorObj) ->
  forall flags, exists flags',
    update_color_props parentKey (Some k) k newCssVarName colorObj flags
    = Normal (colorObj, flags') /\ fst flags' = fst flags.
Proof.
  intros Hk Hgroups. unfold update_color_props.
  apply (mapS_keeps (fun s s' : Flags => fst s' = fst s)); [reflexivity | congruence |].
  unfold groups_keyed in Hgroups.
  apply (proj1 (List.Forall_flat_map _ _ _)) in Hgroups.
  eapply Forall_impl; [exact Hgroups|]. clear Hgroups.
  intros [[name|source] value|kind children] Hm flags; simpl; eauto.
  destruct value as [v|members|kind children]; eauto.
  destruct (String.eqb name parentKey); [|eauto].
  destruct k as [|c k]; [contradiction|]. cbn [Js.truthy_opt Js.truthy negb Js.to_string].
  inversion Hm as [|? ? Hmembers _]; subst.
  destruct (rename_children_same parentKey (String c k) newCssVarName members Hmembers flags)
    as [vu ->].
  simpl. eauto.
Qed.

Lemma update_color_props_root_same (parentKey newCssVarName : string)
    (colorObj : list ObjectMember) (flags : Flags) :
  update_color_props parentKey None parentKey newCssVarName colorObj flags
  = Normal (colorObj, flags).
Proof.
  unfold update_color_props.
  rewrite (mapS_pure _ (fun m => m)); [rewrite map_id; reflexivity|].
  apply List.Forall_forall. intros [[name|source] value|kind children] _ s; simpl; auto.
  destruct value as [v|members|kind children]; auto.
  destruct (String.eqb name parentKey); [|reflexivity].
  rewrite String.eqb_refl, andb_false_r. reflexivity.
Qed.

(** Renaming to the name the key has: the tree printed is the tree read,
    provided the string leaves under the key already hold the reference;
    the key is not reported as updated. *)
Lemma updateTailwindConfigFile_same (configContent parentKey originalName : string)
    (keyName : option string) (newName : string) (ast : File) :
  parse ["typescript"; "jsx"] configContent = Normal ast ->
  (keyName = None /\ newName = parentKey)
  \/ (exists k,
        keyName = Some k /\ k <> EmptyString /\ newName = k /\
        references_in_place parentKey k
          (var_reference
             (if String.eqb k "DEFAULT" then parentKey
              else fst (renamed_variable parentKey keyName originalName newName)))
          ast) ->
  exists valueUpdated',
    updateTailwindConfigFile configContent parentKey keyName newName
      (fst (renamed_variable parentKey keyName originalName newName))
    = Normal {| keyUpdated := false;
                valueUpdated := valueUpdated';
                output := generate ast configContent |}.
Proof.
  intros Hparse Hcase. unfold updateTailwindConfigFile. rewrite Hparse. cbn [bindC].
  destruct Hcase as [[-> ->]|(k & -> & Hk & -> & Hrefs)].
  - destruct (proj1 (traverse_keeps (fun s s' : Flags => s' = s) ltac:(reflexivity)
                       ltac:(congruence)
                       (update_color_props parentKey None parentKey
                          (fst (renamed_variable parentKey None originalName parentKey))))
                ast [])
      with (s := (false, false)) as (s' & -> & ->).
    + apply List.Forall_forall. intros colorObj _ s. eexists. split; [|reflexivity].
      apply update_color_props_root_same.
    + simpl. eauto.
  - destruct (proj1 (traverse_keeps (fun s s' : Flags => fst s' = fst s)
                       ltac:(reflexivity) ltac:(congruence)
                       (update_color_props parentKey (Some k) k
                          (fst (renamed_variable parentKey (Some k) originalName k))))
                ast [])
      with (s := (false, false)) as ([ku vu] & -> & Hku).
    + eapply Forall_impl; [exact Hrefs|]. intros colorObj Hgroups s.
      apply update_color_props_same; assumption.
    + simpl in *. subst ku. eauto.
Qed.

End SameNameConfig.

Section SameNameRun.

Context `{Babel} `{Jsx} `{PostCss} `{RegExpEngine} `{Helpers}.

Lemma renamed_variable_same (parentKey originalName newName : string)
    (keyName : option string) :
  (keyName = None /\ newName = parentKey)
  \/ (exists k, keyName = Some k /\ k <> EmptyString /\ newName = k) ->
  renamed_variable parentKey keyName originalName newName
  = (if String.eqb (Js.to_string keyName) "DEFAULT" && Js.truthy_opt keyName
     then parentKey else originalName,
     if String.eqb (Js.to_string keyName) "DEFAULT" && Js.truthy_opt keyName
     then parentKey else originalName).
Proof.
  intros [[-> ->]|(k & -> & Hk & ->)]; unfold renamed_variable.
  - cbn [Js.truthy_opt negb Js.to_string]. rewrite String.eqb_refl, andb_false_r.
    reflexivity.
  - destruct k as [|c k]; [contradiction|].
    cbn [Js.truthy_opt Js.truthy negb Js.to_string]. rewrite andb_true_r.
    destruct (String.eqb (String c k) "DEFAULT"); [reflexivity|].
    rewrite String.eqb_refl. reflexivity.
Qed.

End SameNameRun.

(** A leaf that holds a literal is rewritten by a rename to the same
    name: the configuration file changes. *)
Lemma rename_to_same_name_rewrites_literal :
  let colors := [Sample.group "brand" [Sample.leaf "accent" "#ff0000"]] in
  let babel := Sample.babel [Sample.config_with colors] in
  let postcss := Sample.postcss [Sample.stylesheet] in
  let fs := Sample.project (Sample.print_expression (Sample.config_with colors))
              (Sample.print_root Sample.stylesheet) in
  exists fs' : gmap string string,
    @updateTailwindColorConfig babel Sample.jsx postcss Sample.engine Sample.helpers
      2 "/project" "brand-accent" "" "accent" None None fs
    = (fs', Fulfilled {| success := true; error := None |})
    /\ fs' !! Sample.css_file "/project" = fs !! Sample.css_file "/project"
    /\ fs' !! Sample.config_file "/project"
       = Some (Sample.print_expression
                 (Sample.config_with
                    [Sample.group "brand" [Sample.leaf "accent" "var(--brand-accent)"]]))
    /\ fs' !! Sample.config_file "/project" <> fs !! Sample.config_file "/project".
Proof.
  intros colors babel postcss fs. eexists. split; [vm_compute; reflexivity|].
  split; [vm_compute; reflexivity|]. split; [vm_compute; reflexivity|].
  vm_compute. discriminate.
Qed.

(* ================================================================= *)
(** ** References survive a replacement of the prefix *)

Lemma last_is_app (c : ascii) (s t : string) :
  t <> EmptyString -> last_is c (s +:+ t) = last_is c t.
Proof.
  intros Ht. induction s as [|d s IH]; [reflexivity|].
  simpl. rewrite IH. destruct (s +:+ t) eqn:Hst; [|reflexivity].
  destruct s; simpl in Hst; [contradiction | discriminate].
Qed.

Lemma last_is_nonempty (c : ascii) (s : string) : last_is c s = true -> s <> EmptyString.
Proof. destruct s; [discriminate | discriminate]. Qed.

Lemma prefix_drop (p s : string) :
  String.prefix p s = true -> s = p +:+ Js.drop (String.length p) s.
Proof.
  revert s. induction p as [|c p IH]; intros s Hp; [reflexivity|].
  destruct s as [|d s]; [discriminate|]. simpl in *.
  destruct (Ascii.ascii_dec c d) as [->|]; [|discriminate].
  change (String d s = String d (p +:+ Js.drop (String.length p) s)).
  f_equal. apply IH, Hp.
Qed.

(** What is left of a text closed by [c] after a leading piece without
    [c] is closed by [c]. *)
Lemma last_is_after (c : ascii) (p s : string) :
  Js.has_char c p = false -> last_is c (p +:+ s) = true -> last_is c s = true.
Proof.
  induction p as [|d p IH]; [intros _ Hs; exact Hs|].
  intros Hp Hs. simpl in Hp. apply orb_false_iff in Hp as [Hd Hp].
  apply IH; [exact Hp|]. simpl in Hs.
  destruct (p +:+ s) eqn:Hps; [|exact Hs]. congruence.
Qed.

Lemma replaceAll_from_last (c : ascii) (p r : string) (n : nat) :
  p <> EmptyString -> Js.has_char c p = false ->
  forall before rest,
    last_is c rest = true -> last_is c (Js.replaceAll_from n p r before rest) = true.
Proof.
  intros Hp Hc. induction n as [|n IH]; intros before rest Hrest; [exact Hrest|].
  simpl. destruct (String.prefix p rest) eqn:Hprefix.
  - assert (Hafter : last_is c (Js.drop (String.length p) rest) = true).
    { apply (last_is_after c p); [exact Hc|]. rewrite <- prefix_drop; assumption. }
    rewrite last_is_app; [apply IH, Hafter|].
    apply (last_is_nonempty c), IH, Hafter.
  - destruct rest as [|d rest]; [discriminate|].
    destruct rest as [|d' rest].
    + destruct n; simpl; [exact Hrest|]. destruct p; [contradiction|exact Hrest].
    + change (last_is c (String d (Js.replaceAll_from n p r (before +:+ String d "")
                                     (String d' rest))) = true).
      assert (Hnext : last_is c (Js.replaceAll_from n p r (before +:+ String d "")
                                   (String d' rest)) = true) by (apply IH; exact Hrest).
      simpl. destruct (Js.replaceAll_from n p r (before +:+ String d "") (String d' rest));
        [discriminate | exact Hnext].
Qed.

Lemma replaceAll_from_skip (n : nat) (p r before rest : string) (c : ascii) :
  String.prefix p (String c rest) = false ->
  Js.replaceAll_from (S n) p r before (String c rest)
  = String c (Js.replaceAll_from n p r (before +:+ String c EmptyString) rest).
Proof. intros Hp. cbn [Js.replaceAll_from]. rewrite Hp. reflexivity. Qed.

Lemma prefix_other_char (c d : ascii) (p s : string) :
  c <> d -> String.prefix (String c p) (String d s) = false.
Proof. intros Hcd. simpl. destruct (Ascii.ascii_dec c d); [contradiction | reflexivity]. Qed.

Lemma prefix_same_char (c : ascii) (p s : string) :
  String.prefix (String c p) (String c s) = String.prefix p s.
Proof. simpl. destruct (Ascii.ascii_dec c c); [reflexivity | contradiction]. Qed.

Lemma prefix_hyphens (s : string) : String.prefix "--" (String "-" (String "-" s)) = true.
Proof. rewrite !prefix_same_char. destruct s; reflexivity. Qed.

Lemma replaceAll_from_step (n : nat) (p r before rest : string) :
  Js.replaceAll_from (S n) p r before rest
  = if String.prefix p rest then
      Js.GetSubstitution p before (Js.drop (String.length p) rest) r +:+
      Js.replaceAll_from n p r (before +:+ p) (Js.drop (String.length p) rest)
    else
      match rest with
      | EmptyString => EmptyString
      | String c rest' =>
          String c (Js.replaceAll_from n p r (before +:+ String c EmptyString) rest')
      end.
Proof. reflexivity. Qed.

(** A text that opens with two hyphens still does after the occurrences
    of a pattern that opens with two hyphens are replaced by a text that
    opens with two hyphens. *)
Lemma replaceAll_from_hyphens (n : nat) (old new before w : string) :
  String.prefix "--"
    (Js.replaceAll_from (S (S n)) (String "-" (String "-" old))
       (String "-" (String "-" new)) before (String "-" (String "-" w))) = true.
Proof.
  rewrite replaceAll_from_step.
  destruct (String.prefix (String "-" (String "-" old)) (String "-" (String "-" w))).
  - apply prefix_hyphens.
  - rewrite replaceAll_from_step.
    destruct (String.prefix (String "-" (String "-" old)) (String "-" w)).
    + apply prefix_hyphens.
    + apply prefix_hyphens.
Qed.

(** Replacing every occurrence of [--old] by [--new] in a reference gives
    a reference, when [old] holds no closing parenthesis. *)
Lemma replaceAll_reference (value old new : string) :
  Js.has_char ")" old = false ->
  is_reference value = true ->
  is_reference (Js.replaceAll value ("--" +:+ old) ("--" +:+ new)) = true.
Proof.
  intros Hold Href. unfold is_reference in *. apply andb_true_iff in Href as [Hopen Hclose].
  change ("--" +:+ old) with (String "-" (String "-" old)).
  change ("--" +:+ new) with (String "-" (String "-" new)).
  apply andb_true_iff. split.
  - apply prefix_drop in Hopen.
    assert (Hw : exists w, value = "var(--" +:+ w) by (eexists; exact Hopen).
    clear Hopen Hclose Hold. destruct Hw as [w ->].
    change ("var(--" +:+ w)
      with (String "v" (String "a" (String "r" (String "(" (String "-" (String "-" w)))))).
    unfold Js.replaceAll. cbn [String.length].
    rewrite !replaceAll_from_skip by (apply prefix_other_char; discriminate).
    change (String.prefix "--"
              (Js.replaceAll_from (S (S (S (String.length w)))) (String "-" (String "-" old))
                 (String "-" (String "-" new)) (((("" +:+ "v") +:+ "a") +:+ "r") +:+ "(")
                 (String "-" (String "-" w))) = true).
    apply replaceAll_from_hyphens.
  - unfold Js.replaceAll.
    apply replaceAll_from_last; [discriminate|simpl; exact Hold|exact Hclose].
Qed.

(* ================================================================= *)
(** ** What a traversal keeps true of the colours objects *)

Lemma mapS_preserves {A B S : Type} (step : A -> S -> Completion (B * S))
    (F1 : A -> Prop) (F2 : B -> Prop) (l : list A) :
  Forall (fun a => forall s b s', step a s = Normal (b, s') -> F1 a -> F2 b) l ->
  forall s l' s', mapS step l s = Normal (l', s') -> Forall F1 l -> Forall F2 l'.
Proof.
  induction 1 as [|a l Ha _ IH]; intros s l' s'; simpl.
  - intros [= <- <-] _. constructor.
  - destruct (step a s) as [[b s1]|] eqn:Hstep; simpl; [|discriminate].
    destruct (mapS step l s1) as [[l1 s2]|] eqn:Hl; simpl; [|discriminate].
    intros [= <- <-] Hall. inversion Hall as [|? ? Hfirst Hrest]; subst.
    constructor; [eapply Ha; eauto | eapply IH; eauto].
Qed.


Section Preservation.

Context `{Helpers} {S : Type}.
Variables (P1 P2 : list ObjectMember -> Prop).
Variable body : list ObjectMember -> S -> Completion (list ObjectMember * S).
Hypothesis stable : colors_test_stable.
Hypothesis body_maps :
  forall colorObj s colorObj' s',
    body colorObj s = Normal (colorObj', s') -> P1 colorObj -> P2 colorObj'.

Lemma traverse_maps :
  (forall e trail s e' s',
     traverse (on_colors_object body) trail e s = Normal (e', s') ->
     same_kind e e' /\
     (Forall P1 (colors_objects trail e) -> Forall P2 (colors_objects trail e')))
  /\ (forall m trail s m' s',
        traverse_member (on_colors_object body) trail m s = Normal (m', s') ->
        Forall P1 (colors_objects_member trail m) ->
        Forall P2 (colors_objects_member trail m')).
Proof using stable body_maps.
  apply Expression_members_ind.
  - intros value trail s e' s'. simpl. intros [= <- <-]. split; [exact I | auto].
  - intros properties IH trail s e' s'. simpl.
    destruct (mapS _ properties s) as [[properties' s1]|] eqn:Hrun; simpl; [|discriminate].
    intros [= <- <-]. split; [exact I|]. simpl. intros Hall.
    apply List.Forall_flat_map. apply (proj1 (List.Forall_flat_map _ _ _)) in Hall.
    refine (mapS_preserves _ (fun m => Forall P1 (colors_objects_member trail m))
              (fun m => Forall P2 (colors_objects_member trail m)) properties _
              s properties' s1 Hrun Hall).
    eapply Forall_impl; [exact IH|]. intros m Hm s0 b s0' Hb. eapply Hm; eauto.
  - intros kind children IH trail s e' s'. simpl.
    destruct (mapS _ children s) as [[children' s1]|] eqn:Hrun; simpl; [|discriminate].
    intros [= <- <-]. split; [reflexivity|]. simpl. intros Hall.
    apply List.Forall_flat_map. apply (proj1 (List.Forall_flat_map _ _ _)) in Hall.
    refine (mapS_preserves _ (fun c => Forall P1 (colors_objects trail c))
              (fun c => Forall P2 (colors_objects trail c)) children _
              s children' s1 Hrun Hall).
    eapply Forall_impl; [exact IH|]. intros c Hc s0 b s0' Hb. eapply Hc; eauto.
  - intros key value IH trail s m' s'.
    cbn [traverse_member colors_objects_member]. unfold on_colors_object at 1. cbn [node].
    destruct (isColorsObjectProperty {| node := ObjectProperty key value;
                                        enclosing := trail |}) eqn:Htest.
    + destruct value as [v|properties|kind children]; cbn [bindC fst snd].
      * simpl. intros [= <- <-]. simpl. rewrite Htest. auto.
      * destruct (body properties s) as [[properties' s1]|] eqn:Hbody; simpl;
          [|discriminate].
        intros [= <- <-] Hall. simpl.
        rewrite <- (stable key (ObjectExpression properties)
                      (ObjectExpression properties') trail I), Htest.
        inversion Hall; subst. constructor; [eapply body_maps; eauto | constructor].
      * destruct (traverse _ (key :: trail) (OtherExpression kind children) s)
          as [[value' s1]|] eqn:Hrun; simpl; [|discriminate].
        intros [= <- <-] Hall. destruct (IH _ _ _ _ Hrun) as [Hkind Hmaps].
        simpl. rewrite <- (stable key _ value' trail Hkind), Htest.
        destruct value'; try contradiction. apply Hmaps, Hall.
    + cbn [bindC fst snd].
      destruct (traverse _ (key :: trail) value s) as [[value' s1]|] eqn:Hrun; simpl;
        [|discriminate].
      intros [= <- <-] Hall. destruct (IH _ _ _ _ Hrun) as [Hkind Hmaps].
      simpl. rewrite <- (stable key _ value' trail Hkind), Htest. apply Hmaps, Hall.
  - intros kind children IH trail s m' s'. simpl.
    destruct (mapS _ children s) as [[children' s1]|] eqn:Hrun; simpl; [|discriminate].
    intros [= <- <-]. simpl. intros Hall.
    apply List.Forall_flat_map. apply (proj1 (List.Forall_flat_map _ _ _)) in Hall.
    refine (mapS_preserves _ (fun c => Forall P1 (colors_objects trail c))
              (fun c => Forall P2 (colors_objects trail c)) children _
              s children' s1 Hrun Hall).
    eapply Forall_impl; [exact IH|]. intros c Hc s0 b s0' Hb. eapply Hc; eauto.
Qed.

End Preservation.

(* ================================================================= *)
(** ** References in the colours object *)

Lemma references_only_object (properties : list ObjectMember) :
  references_only (ObjectExpression properties) = forallb member_ok properties.
Proof. reflexivity. Qed.

Lemma is_reference_var (name : string) : is_reference (var_reference name) = true.
Proof.
  unfold is_reference, var_reference. apply andb_true_iff. split.
  - change ("var(--" +:+ name +:+ ")")
      with (String "v" (String "a" (String "r" (String "(" (String "-"
              (String "-" (name +:+ ")"))))))).
    rewrite !prefix_same_char. destruct (name +:+ ")"); reflexivity.
  - change ("var(--" +:+ name +:+ ")") with (("var(--" +:+ name) +:+ ")").
    + rewrite last_is_app; [reflexivity | discriminate].
Qed.

Lemma forallb_update_first (test : ObjectMember -> bool) (f : ObjectMember -> ObjectMember)
    (l : list ObjectMember) :
  (forall m, In m l -> member_ok m = true -> member_ok (f m) = true) ->
  forallb member_ok l = true -> forallb member_ok (update_first test f l) = true.
Proof.
  induction l as [|m l IH]; intros Hf Hl; [reflexivity|].
  simpl in Hl. apply andb_true_iff in Hl as [Hm Hl]. simpl.
  destruct (test m); simpl; apply andb_true_iff; split; auto.
  - apply Hf; [left; reflexivity | exact Hm].
  - apply IH; [|exact Hl]. intros m' Hin. apply Hf. right. exact Hin.
Qed.

Lemma forallb_remove_first (test : ObjectMember -> bool) (l : list ObjectMember) :
  forallb member_ok l = true -> forallb member_ok (remove_first test l) = true.
Proof.
  induction l as [|m l IH]; intros Hl; [reflexivity|].
  simpl in Hl. apply andb_true_iff in Hl as [Hm Hl]. simpl.
  destruct (test m); [exact Hl|]. simpl. rewrite Hm. apply IH, Hl.
Qed.

Lemma plain_app (s t : string) : plain (s +:+ t) = plain s && plain t.
Proof.
  induction s as [|c s IH]; [reflexivity|].
  change (String c s +:+ t) with (String c (s +:+ t)). simpl.
  rewrite IH, andb_assoc. reflexivity.
Qed.

Lemma plain_no_parenthesis (s : string) : plain s = true -> Js.has_char ")" s = false.
Proof.
  induction s as [|c s IH]; [reflexivity|]. simpl. intros Hs.
  apply andb_true_iff in Hs as [Hc Hs]. rewrite (IH Hs), orb_false_r.
  destruct (Ascii.eqb_spec c ")") as [->|]; [discriminate Hc | reflexivity].
Qed.

Section References.

Context `{Babel} `{Jsx} `{PostCss} `{RegExpEngine} `{Helpers}.

Lemma addTailwindRootColor_references (colorObj : list ObjectMember)
    (newName newCssVarName : string) :
  forallb member_ok colorObj = true ->
  forallb member_ok (addTailwindRootColor colorObj newName newCssVarName) = true.
Proof.
  intros Hl. unfold addTailwindRootColor. rewrite forallb_app, Hl. simpl.
  rewrite is_reference_var. reflexivity.
Qed.

Lemma addTailwindNestedColor_references (colorObj : list ObjectMember)
    (parentName newName newCssVarName : string) :
  forallb member_ok colorObj = true ->
  forallb member_ok (addTailwindNestedColor colorObj parentName newName newCssVarName)
  = true.
Proof.
  intros Hl. unfold addTailwindNestedColor. apply forallb_update_first; [|exact Hl].
  intros [key [v|properties|kind children]|kind children] _ Hm; try exact Hm.
  cbn [member_ok] in *. rewrite references_only_object in *.
  rewrite forallb_app, Hm. simpl. rewrite is_reference_var. reflexivity.
Qed.

Lemma delete_from_colors_references (camelCaseName : string) (colorName : option string)
    (colorObj : list ObjectMember) :
  forallb member_ok colorObj = true ->
  forallb member_ok (delete_from_colors camelCaseName colorName colorObj) = true.
Proof.
  intros Hl. unfold delete_from_colors.
  destruct (List.find (keyed camelCaseName) colorObj) as [[key value|kind children]|] eqn:Hfind;
    try exact Hl.
  destruct value as [v|properties|kind children]; try exact Hl.
  assert (Hgroup : forallb member_ok properties = true).
  { apply List.find_some in Hfind as [Hin _].
    exact (proj1 (forallb_forall _ _) Hl _ Hin). }
  destruct (Js.truthy_opt colorName); [|apply forallb_remove_first, Hl].
  destruct (existsb _ properties); [|exact Hl].
  destruct (remove_first (keyed (Js.to_string colorName)) properties) as [|m rest] eqn:Hrest.
  - apply forallb_remove_first, Hl.
  - apply forallb_update_first; [|exact Hl].
    intros [key' value'|kind children] _ Hm; [|exact Hm].
    cbn [member_ok]. rewrite references_only_object, <- Hrest.
    apply forallb_remove_first, Hgroup.
Qed.

Lemma rename_child_references (parentKey keyName newName newCssVarName : string)
    (nestedProp : ObjectMember) (flags : Flags) :
  member_ok nestedProp = true ->
  member_ok (fst (rename_child parentKey keyName newName newCssVarName nestedProp flags))
  = true.
Proof.
  intros Hm. destruct nestedProp as [[name|source] value|kind children]; try exact Hm.
  simpl. destruct (String.eqb name keyName); [|exact Hm].
  destruct value as [v|properties|kind children]; try exact Hm.
  simpl. apply is_reference_var.
Qed.

Lemma rename_children_references (parentKey keyName newName newCssVarName : string)
    (l : list ObjectMember) :
  forall flags,
    forallb member_ok l = true ->
    forallb member_ok
      (fst (rename_children parentKey keyName newName newCssVarName l flags)) = true.
Proof.
  induction l as [|m l IH]; intros flags Hl; [reflexivity|].
  simpl in Hl. apply andb_true_iff in Hl as [Hm Hl].
  cbn [rename_children fst forallb]. apply andb_true_iff. split.
  - apply rename_child_references, Hm.
  - apply IH, Hl.
Qed.

Lemma rename_reference_references (parentKey newName : string)
    (nestedProp nestedProp' : ObjectMember) :
  engine_plain -> plain parentKey = true ->
  Forall (fun leaf => plain leaf = true) (leaf_names [nestedProp]) ->
  rename_reference parentKey newName nestedProp = Normal nestedProp' ->
  member_ok nestedProp = true -> member_ok nestedProp' = true.
Proof.
  intros Hengine Hparent Hnames Hrun Hm.
  destruct nestedProp as [[name|source] value|kind children];
    try (injection Hrun as <-; exact Hm).
  destruct value as [v|properties|kind children]; try (injection Hrun as <-; exact Hm).
  simpl in Hnames. inversion Hnames as [|? ? Hname _]; subst.
  unfold rename_reference in Hrun.
  set (old := if String.eqb name "DEFAULT" then parentKey
              else parentKey +:+ "-" +:+ name) in Hrun.
  assert (Hold : plain old = true).
  { subst old. destruct (String.eqb name "DEFAULT"); [exact Hparent|].
    rewrite !plain_app, Hparent, Hname. reflexivity. }
  rewrite Hengine in Hrun; [|change ("--" +:+ old) with (String "-" (String "-" old));
                               simpl; exact Hold | discriminate].
  simpl in Hrun. injection Hrun as <-. cbn [member_ok references_only] in *.
  apply replaceAll_reference; [apply plain_no_parenthesis, Hold | exact Hm].
Qed.

Lemma rename_references_references (parentKey newName : string) (l : list ObjectMember) :
  engine_plain -> plain parentKey = true ->
  Forall (fun leaf => plain leaf = true) (leaf_names l) ->
  forall l',
    mapC (rename_reference parentKey newName) l = Normal l' ->
    forallb member_ok l = true -> forallb member_ok l' = true.
Proof.
  intros Hengine Hparent. induction l as [|m l IH]; intros Hnames l' Hrun Hl.
  - injection Hrun as <-. reflexivity.
  - unfold leaf_names in Hnames. cbn [flat_map] in Hnames.
    apply Forall_app in Hnames as [Hname Hnames].
    simpl in Hl. apply andb_true_iff in Hl as [Hm Hl]. simpl in Hrun.
    destruct (rename_reference parentKey newName m) as [m'|] eqn:Hm'; [|discriminate].
    simpl in Hrun.
    destruct (mapC (rename_reference parentKey newName) l) as [l1|] eqn:Hl1; [|discriminate].
    simpl in Hrun. injection Hrun as <-. simpl. apply andb_true_iff. split.
    + eapply rename_reference_references; eauto.
      unfold leaf_names. cbn [flat_map]. rewrite app_nil_r. exact Hname.
    + apply IH; auto.
Qed.

End References.

Section Invariant.

Context `{Babel} `{Jsx} `{PostCss} `{RegExpEngine} `{Helpers}.

Lemma update_color_prop_references (parentKey : string) (keyName : option string)
    (newName newCssVarName : string) (colorProp colorProp' : ObjectMember)
    (flags flags' : Flags) :
  (Js.truthy_opt keyName = false ->
   engine_plain /\ plain parentKey = true /\ plain_group parentKey colorProp) ->
  update_color_prop parentKey keyName newName newCssVarName colorProp flags
  = Normal (colorProp', flags') ->
  member_ok colorProp = true -> member_ok colorProp' = true.
Proof.
  intros Hroot Hrun Hm.
  destruct colorProp as [[name|source] value|kind children];
    try (injection Hrun as <- <-; exact Hm).
  destruct value as [v|properties|kind children];
    try (injection Hrun as <- <-; exact Hm).
  unfold update_color_prop in Hrun.
  destruct (String.eqb name parentKey) eqn:Hname; [|injection Hrun as <- <-; exact Hm].
  cbn [member_ok] in Hm. rewrite references_only_object in Hm.
  destruct (Js.truthy_opt keyName) eqn:Hkey; cbn [negb] in Hrun.
  - injection Hrun as <- <-. cbn [member_ok]. rewrite references_only_object.
    apply rename_children_references, Hm.
  - destruct (Hroot eq_refl) as (Hengine & Hparent & Hgroup).
    destruct (Js.truthy parentKey && negb (String.eqb newName parentKey));
      [|injection Hrun as <- <-; cbn [member_ok]; rewrite references_only_object; exact Hm].
    destruct (mapC (rename_reference parentKey newName) properties) as [properties'|]
      eqn:Hmap; [|discriminate].
    simpl in Hrun. injection Hrun as <- <-. cbn [member_ok].
    rewrite references_only_object.
    eapply rename_references_references; eauto.
Qed.

Lemma update_color_props_references (parentKey : string) (keyName : option string)
    (newName newCssVarName : string) (colorObj colorObj' : list ObjectMember)
    (flags flags' : Flags) :
  (Js.truthy_opt keyName = false ->
   engine_plain /\ plain parentKey = true /\ Forall (plain_group parentKey) colorObj) ->
  update_color_props parentKey keyName newName newCssVarName colorObj flags
  = Normal (colorObj', flags') ->
  forallb member_ok colorObj = true -> forallb member_ok colorObj' = true.
Proof.
  intros Hroot Hrun Hl. unfold update_color_props in Hrun.
  apply forallb_forall. apply List.Forall_forall.
  refine (mapS_preserves _
            (fun m => member_ok m = true /\
                      (Js.truthy_opt keyName = false ->
                       engine_plain /\ plain parentKey = true /\ plain_group parentKey m))
            (fun m => member_ok m = true) colorObj _ flags colorObj' flags' Hrun _).
  - apply List.Forall_forall. intros m _ s b s' Hstep [Hm Hpre].
    eapply update_color_prop_references; eauto.
  - apply List.Forall_forall. intros m Hin. split.
    + exact (proj1 (forallb_forall _ _) Hl m Hin).
    + intros Hkey. destruct (Hroot Hkey) as (Hengine & Hparent & Hgroups).
      repeat split; auto. exact (proj1 (List.Forall_forall _ _) Hgroups m Hin).
Qed.

(** C9, as the code has it. With a test for the colours property that
    does not look into the value: when every leaf colour value of every
    colours object is a reference [var(--name)] before a mutation, every
    one is a reference in the tree that a fulfilled create, the
    configuration step of a rename, or a fulfilled delete prints to the
    configuration file. For the rename of a root group this holds with an
    engine that takes a pattern of plain text as that text, and when the
    group name and the names of the string leaves of the group are plain
    text. *)
Theorem mutations_keep_references :
  colors_test_stable ->
  (forall (update : ColorUpdate) newColor newName parentName (fs fs' : gmap string string)
          result ast,
     createTailwindColorVariable update newColor newName parentName fs
     = (fs', Fulfilled result) ->
     parse ["typescript"; "jsx"] (configContent update) = Normal ast ->
     colors_referenced ast ->
     exists ast',
       fs' !! configPath update = Some (generate ast' (configContent update))
       /\ colors_referenced ast')
  /\ (forall configContent parentKey keyName newName newCssVarName result ast,
        updateTailwindConfigFile configContent parentKey keyName newName newCssVarName
        = Normal result ->
        parse ["typescript"; "jsx"] configContent = Normal ast ->
        colors_referenced ast ->
        (Js.truthy_opt keyName = false ->
         engine_plain /\ plain parentKey = true /\ plain_leaf_names parentKey ast) ->
        exists ast',
          output result = generate ast' configContent /\ colors_referenced ast')
  /\ (forall (update : ColorUpdate) groupName colorName (fs fs' : gmap string string)
             result ast,
        deleteColorGroup update groupName colorName fs = (fs', Fulfilled result) ->
        parse ["typescript"; "jsx"] (configContent update) = Normal ast ->
        colors_referenced ast ->
        exists ast',
          fs' !! configPath update = Some (generate ast' (configContent update))
          /\ colors_referenced ast').
Proof.
  intros Hstable. split; [|split].
  - intros update newColor newName parentName fs fs' result ast Hrun Hparse Hrefs.
    unfold createTailwindColorVariable, bind in Hrun.
    destruct (addTailwindCssVariable _ _ _ fs) as [fs1 [css| |]]; try discriminate.
    unfold writeFileSync at 1 in Hrun. unfold lift at 1 in Hrun. rewrite Hparse in Hrun.
    unfold ret at 1 in Hrun.
    match type of Hrun with
    | context [traverse (on_colors_object ?body) [] ast tt] =>
        destruct (traverse (on_colors_object body) [] ast tt) as [[ast' []]|] eqn:Htraverse;
        [|discriminate];
        pose proof (proj2 (proj1 (traverse_maps
                                    (fun colorObj => forallb member_ok colorObj = true)
                                    (fun colorObj => forallb member_ok colorObj = true)
                                    body Hstable
                                    ltac:(intros colorObj [] colorObj' [] [= <-] Hok;
                                          destruct (negb (Js.truthy_opt parentName));
                                          [apply addTailwindRootColor_references
                                          |apply addTailwindNestedColor_references];
                                          exact Hok))
                                 _ _ _ _ _ Htraverse) Hrefs) as Hrefs'
    end.
    cbn [lift ret writeFileSync fst] in Hrun. injection Hrun as <- _.
    exists ast'. split; [apply lookup_insert_eq | exact Hrefs'].
  - intros configContent parentKey keyName newName newCssVarName result ast Hrun Hparse
      Hrefs Hroot.
    unfold updateTailwindConfigFile in Hrun. rewrite Hparse in Hrun. cbn [bindC] in Hrun.
    destruct (traverse
                (on_colors_object
                   (update_color_props parentKey keyName newName newCssVarName))
                [] ast (false, false)) as [[ast' flags']|] eqn:Htraverse;
      [|discriminate].
    injection Hrun as <-. exists ast'. split; [reflexivity|].
    refine (proj2 (proj1 (traverse_maps
                            (fun colorObj =>
                               forallb member_ok colorObj = true /\
                               (Js.truthy_opt keyName = false ->
                                Forall (plain_group parentKey) colorObj))
                            (fun colorObj => forallb member_ok colorObj = true)
                            (update_color_props parentKey keyName newName newCssVarName)
                            Hstable _) _ _ _ _ _ Htraverse) _).
    + intros colorObj s colorObj' s' Hbody [Hok Hplain].
      eapply update_color_props_references; eauto.
      intros Hkey. destruct (Hroot Hkey) as (Hengine & Hparent & _). auto.
    + apply List.Forall_forall. intros colorObj Hin. split.
      * exact (proj1 (List.Forall_forall _ _) Hrefs colorObj Hin).
      * intros Hkey. destruct (Hroot Hkey) as (_ & _ & Hnames).
        exact (proj1 (List.Forall_forall _ _) Hnames colorObj Hin).
  - intros update groupName colorName fs fs' result ast Hrun Hparse Hrefs.
    unfold deleteColorGroup, bind in Hrun. unfold lift at 1 in Hrun.
    rewrite Hparse in Hrun. unfold ret at 1 in Hrun.
    match type of Hrun with
    | context [traverse (on_colors_object ?body) [] ast tt] =>
        destruct (traverse (on_colors_object body) [] ast tt) as [[ast' []]|] eqn:Htraverse;
        [|discriminate];
        pose proof (proj2 (proj1 (traverse_maps
                                    (fun colorObj => forallb member_ok colorObj = true)
                                    (fun colorObj => forallb member_ok colorObj = true)
                                    body Hstable
                                    ltac:(intros colorObj [] colorObj' [] [= <-] Hok;
                                          apply delete_from_colors_references; exact Hok))
                                 _ _ _ _ _ Htraverse) Hrefs) as Hrefs'
    end.
    cbn [lift ret writeFileSync fst] in Hrun. injection Hrun as <- _.
    exists ast'. split; [apply lookup_insert_eq | exact Hrefs'].
Qed.

End Invariant.

Lemma sample_test_stable : @colors_test_stable Sample.helpers.
Proof.
  intros [name|source] value value' trail Hkind;
    destruct value, value'; simpl in *; try contradiction; reflexivity.
Qed.

(** A literal leaf that the mutation does not address is still there
    after a fulfilled delete. *)
Lemma delete_keeps_literal_leaf :
  let colors :=
    [Sample.leaf "white" "#ffffff";
     Sample.group "brand" [Sample.leaf "accent" "var(--brand-accent)"]] in
  let babel := Sample.babel [Sample.config_with colors] in
  let fs := Sample.project (Sample.print_expression (Sample.config_with colors))
              (Sample.print_root Sample.stylesheet) in
  exists fs' : gmap string string,
    @deleteTailwindColorGroup babel Sample.helpers "/project" "brand" (Some "accent") fs
    = (fs', Fulfilled {| success := true; error := None |})
    /\ fs' !! Sample.config_file "/project"
       = Some (Sample.print_expression
                 (Sample.config_with [Sample.leaf "white" "#ffffff"]))
    /\ @colors_objects Sample.helpers []
         (Sample.config_with [Sample.leaf "white" "#ffffff"])
       = [[Sample.leaf "white" "#ffffff"]]
    /\ references_only (ObjectExpression [Sample.leaf "white" "#ffffff"]) = false.
Proof.
  intros colors babel fs. eexists. split; [vm_compute; reflexivity|].
  split; [vm_compute; reflexivity|]. split; reflexivity.
Qed.

Lemma mutations_keep_references_witness :
  let colors :=
    [Sample.leaf "white" "var(--white)";
     Sample.group "brand" [Sample.leaf "accent" "var(--brand-accent)"]] in
  let babel := Sample.babel [Sample.config_with colors] in
  let fs := Sample.project (Sample.print_expression (Sample.config_with colors))
              (Sample.print_root Sample.stylesheet) in
  let update : ColorUpdate :=
    {| configPath := Sample.config_file "/project";
       cssPath := Sample.css_file "/project";
       configContent := Sample.print_expression (Sample.config_with colors);
       cssContent := Sample.print_root Sample.stylesheet |} in
  exists ast',
    (fst (@deleteColorGroup babel Sample.helpers update "brand" (Some "accent") fs)
       : gmap string string) !! Sample.config_file "/project"
    = Some (Sample.print_expression ast')
    /\ @colors_referenced Sample.helpers ast'.
Proof.
  intros colors babel fs update.
  destruct (@mutations_keep_references babel (Sample.postcss [])
              Sample.engine Sample.helpers sample_test_stable) as (_ & _ & Hdelete).
  apply (Hdelete update "brand" (Some "accent") fs
           (fst (@deleteColorGroup babel Sample.helpers update "brand" (Some "accent") fs))
           {| success := true; error := None |} (Sample.config_with colors)).
  - vm_compute. reflexivity.
  - reflexivity.
  - repeat constructor.
Defined.

(* ================================================================= *)
(** ** Reports of the entry points *)

Section Reports.

Context `{Babel} `{Jsx} `{PostCss} `{RegExpEngine} `{Helpers}.

(** X5. An original name that starts with a hyphen has an empty group
    part: the update is refused with
    [{success: false, error: "Invalid color key format: <name>"}] and
    neither file is written. *)
Theorem invalid_key_is_reported (fuel : nat) (projectRoot rest newColor newName : string)
    (theme : option Theme) (parentName : option string) (fs fs1 : FileSystem)
    (update : ColorUpdate) :
  initializeTailwindColorContent projectRoot fs = (fs1, Fulfilled (Some update)) ->
  updateTailwindColorConfig fuel projectRoot (String "-" rest) newColor newName theme
    parentName fs
  = (fs1, Fulfilled {| success := false;
                       error := Some ("Invalid color key format: " +:+ String "-" rest) |}).
Proof.
  intros Hinit. unfold updateTailwindColorConfig, try_catch, bind at 1 2. rewrite Hinit.
  cbn [Js.truthy]. unfold promise, updateTailwindColorVariable.
  assert (Hsplit : fst (split_name (String "-" rest)) = EmptyString).
  { unfold split_name. cbn [Js.split]. change (Ascii.eqb "-" "-") with true. cbn iota.
    destruct (Js.split "-" rest); reflexivity. }
  rewrite Hsplit. reflexivity.
Qed.

(** X6. When the locate-and-read step resolves to nothing, both entry
    points are fulfilled with
    [{success: false, error: 'Failed to prepare color update'}] and write
    nothing. *)
Theorem missing_project_is_reported (fuel : nat)
    (projectRoot originalName newColor newName groupName : string)
    (theme : option Theme) (parentName colorName : option string) (fs fs1 : FileSystem) :
  initializeTailwindColorContent projectRoot fs = (fs1, Fulfilled None) ->
  let report := {| success := false; error := Some "Failed to prepare color update" |} in
  updateTailwindColorConfig fuel projectRoot originalName newColor newName theme
    parentName fs = (fs1, Fulfilled report)
  /\ deleteTailwindColorGroup projectRoot groupName colorName fs = (fs1, Fulfilled report).
Proof.
  intros Hinit report. split.
  - unfold updateTailwindColorConfig, try_catch, bind at 1 2. rewrite Hinit. reflexivity.
  - unfold deleteTailwindColorGroup, try_catch, bind at 1 2. rewrite Hinit. reflexivity.
Qed.

(** X7. When the locate-and-read step rejects, the rejection is caught:
    both entry points are fulfilled with [{success: false, error}], the
    error being the message of an [Error] and the text of any other
    value. *)
Theorem preparation_error_is_reported (fuel : nat)
    (projectRoot originalName newColor newName groupName : string)
    (theme : option Theme) (parentName colorName : option string) (fs fs1 : FileSystem)
    (thrown : Thrown) :
  initializeTailwindColorContent projectRoot fs = (fs1, Rejected thrown) ->
  let report := {| success := false; error := Some (message_of thrown) |} in
  updateTailwindColorConfig fuel projectRoot originalName newColor newName theme
    parentName fs = (fs1, Fulfilled report)
  /\ deleteTailwindColorGroup projectRoot groupName colorName fs = (fs1, Fulfilled report).
Proof.
  intros Hinit report. split.
  - unfold updateTailwindColorConfig, try_catch, bind at 1 2. rewrite Hinit. reflexivity.
  - apply deleteTailwindColorGroup_catches_preparation. exact Hinit.
Qed.

End Reports.

Lemma invalid_key_is_reported_witness :
  let fs := Sample.project "module.exports = {}" "" in
  @updateTailwindColorConfig (Sample.babel []) Sample.jsx (Sample.postcss [])
    Sample.engine Sample.helpers 0 "/project" "-accent" "#3366ff" "sky" None None fs
  = (fs, Fulfilled {| success := false;
                      error := Some "Invalid color key format: -accent" |}).
Proof.
  intros fs.
  apply (@invalid_key_is_reported (Sample.babel []) Sample.jsx (Sample.postcss [])
           Sample.engine Sample.helpers 0 "/project" "accent" "#3366ff" "sky" None None
           fs fs
           {| configPath := Sample.config_file "/project";
              cssPath := Sample.css_file "/project";
              configContent := "module.exports = {}";
              cssContent := "" |}).
  reflexivity.
Defined.

Lemma missing_project_is_reported_witness :
  let report := {| success := false; error := Some "Failed to prepare color update" |} in
  @updateTailwindColorConfig (Sample.babel []) Sample.jsx (Sample.postcss [])
    Sample.engine Sample.helpers 0 "/elsewhere" "brand-accent" "#3366ff" "sky" None None
    (Sample.project "module.exports = {}" "")
  = (Sample.project "module.exports = {}" "", Fulfilled report)
  /\ @deleteTailwindColorGroup (Sample.babel []) Sample.helpers "/elsewhere" "brand" None
       (Sample.project "module.exports = {}" "")
     = (Sample.project "module.exports = {}" "", Fulfilled report).
Proof.
  intros report.
  apply (@missing_project_is_reported (Sample.babel []) Sample.jsx (Sample.postcss [])
           Sample.engine Sample.helpers 0 "/elsewhere" "brand-accent" "#3366ff" "sky"
           "brand" None None None (Sample.project "module.exports = {}" "")).
  vm_compute. reflexivity.
Defined.

Lemma preparation_error_is_reported_witness :
  let report := {| success := false; error := Some "EACCES: permission denied" |} in
  @updateTailwindColorConfig (Sample.babel []) Sample.jsx (Sample.postcss [])
    Sample.engine Sample.unreadable 0 "/project" "brand-accent" "#3366ff" "sky" None None
    (Sample.project "module.exports = {}" "")
  = (Sample.project "module.exports = {}" "", Fulfilled report)
  /\ @deleteTailwindColorGroup (Sample.babel []) Sample.unreadable "/project" "brand" None
       (Sample.project "module.exports = {}" "")
     = (Sample.project "module.exports = {}" "", Fulfilled report).
Proof.
  intros report.
  apply (@preparation_error_is_reported (Sample.babel []) Sample.jsx (Sample.postcss [])
           Sample.engine Sample.unreadable 0 "/project" "brand-accent" "#3366ff" "sky"
           "brand" None None None (Sample.project "module.exports = {}" "")
           (Sample.project "module.exports = {}" "")
           (ErrorObject "EACCES: permission denied")).
  reflexivity.
Defined.

(* ================================================================= *)
(** ** The scan *)

Section Scan.

Context `{Babel} `{PostCss} `{Helpers}.

(** X8. When both files are located and read with content and the
    stylesheet parses, to a tree in which no [:root] or [.dark] rule is
    nested in a rule, the scan answers the two paths, the colours
    extracted from the configuration text and the variables recorded
    from the [:root] and from the [.dark] rules of the stylesheet: the
    declarations of custom properties of each rule and of the blocks
    nested in it, in document order, the last value of a name standing,
    and the name [__proto__] never recorded. *)
Theorem scanTailwindConfig_reads_both (projectRoot : string)
    (fs fs1 fs2 fs3 : FileSystem) (config css content cssText : string) (tree : Root) :
  getConfigPath projectRoot fs = (fs1, Fulfilled (Some config, Some css)) ->
  Js.truthy config = true ->
  Js.truthy css = true ->
  readFile config fs1 = (fs2, Fulfilled (Some content)) ->
  Js.truthy content = true ->
  readFile css fs2 = (fs3, Fulfilled (Some cssText)) ->
  Js.truthy cssText = true ->
  postcss_parse cssText = Normal tree ->
  forallb scopes_on_top tree = true ->
  scanTailwindConfig projectRoot fs
  = (fs3, Fulfilled (Some {| configPath := config;
                             configContent := extractColorsFromTailwindConfig content;
                             cssPath := css;
                             cssContent := {| root := record_rules ":root" tree;
                                              dark := record_rules ".dark" tree |} |})).
Proof.
  intros Hpaths Hconfig Hcss Hread Hcontent Hread' Hsome Hparse _.
  unfold scanTailwindConfig, try_catch, bind. rewrite Hpaths.
  rewrite Hconfig, Hcss. cbn [negb orb]. rewrite Hread.
  cbn [Js.truthy_opt]. rewrite Hcontent. cbn [negb]. rewrite Hread'.
  cbn [Js.truthy_opt]. rewrite Hsome. cbn [negb Js.to_string].
  unfold extractTailwindCssVariables. rewrite Hparse. reflexivity.
Qed.

(** X9. When both files are located and read with content and PostCSS
    throws on the stylesheet, the scan answers [null]: the colours of
    the configuration are not returned. *)
Theorem scanTailwindConfig_null_on_stylesheet_error (projectRoot : string)
    (fs fs1 fs2 fs3 : FileSystem) (config css content cssText : string)
    (thrown : Thrown) :
  getConfigPath projectRoot fs = (fs1, Fulfilled (Some config, Some css)) ->
  Js.truthy config = true ->
  Js.truthy css = true ->
  readFile config fs1 = (fs2, Fulfilled (Some content)) ->
  Js.truthy content = true ->
  readFile css fs2 = (fs3, Fulfilled (Some cssText)) ->
  Js.truthy cssText = true ->
  postcss_parse cssText = Throw thrown ->
  scanTailwindConfig projectRoot fs = (fs3, Fulfilled None).
Proof.
  intros Hpaths Hconfig Hcss Hread Hcontent Hread' Hsome Hparse.
  unfold scanTailwindConfig, try_catch, bind. rewrite Hpaths.
  rewrite Hconfig, Hcss. cbn [negb orb]. rewrite Hread.
  cbn [Js.truthy_opt]. rewrite Hcontent. cbn [negb]. rewrite Hread'.
  cbn [Js.truthy_opt]. rewrite Hsome. cbn [negb Js.to_string].
  unfold extractTailwindCssVariables. rewrite Hparse. reflexivity.
Qed.

(** X10. The scan answers [null] when the locator misses one of the two
    paths, and when the read of the configuration file yields nothing
    ([null] or an empty text); the stylesheet is not read then. *)
Theorem scanTailwindConfig_null_without_configuration (projectRoot : string)
    (fs fs1 fs2 : FileSystem) (paths : option string * option string)
    (content : option string) :
  getConfigPath projectRoot fs = (fs1, Fulfilled paths) ->
  (Js.truthy_opt (fst paths) && Js.truthy_opt (snd paths) = false /\ fs2 = fs1)
  \/ (readFile (Js.to_string (fst paths)) fs1 = (fs2, Fulfilled content)
      /\ Js.truthy_opt (fst paths) && Js.truthy_opt (snd paths) = true
      /\ Js.truthy_opt content = false) ->
  scanTailwindConfig projectRoot fs = (fs2, Fulfilled None).
Proof.
  intros Hpaths Hcase. unfold scanTailwindConfig, try_catch, bind. rewrite Hpaths.
  destruct paths as [[config|] [css|]]; cbn [fst snd Js.truthy_opt Js.to_string] in Hcase.
  - destruct Hcase as [[Hmiss ->]|(Hread & Hboth & Hnone)].
    + destruct (Js.truthy config), (Js.truthy css); try discriminate Hmiss; reflexivity.
    + apply andb_prop in Hboth as [-> ->]. cbn [negb orb]. rewrite Hread, Hnone.
      reflexivity.
  - destruct Hcase as [[_ ->]|(_ & Hboth & _)]; [reflexivity|].
    rewrite andb_false_r in Hboth. discriminate.
  - destruct Hcase as [[_ ->]|(_ & Hboth & _)]; [reflexivity|]. discriminate.
  - destruct Hcase as [[_ ->]|(_ & Hboth & _)]; [reflexivity|]. discriminate.
Qed.

End Scan.

Lemma scanTailwindConfig_reads_both_witness :
  let colors := [Sample.group "brand" [Sample.leaf "accent" "var(--brand-accent)"]] in
  let tree :=
    [Rule ":root"
       [Declaration "--brand-accent" "#ff0000"; Declaration "--__proto__" "#000000";
        Block "@media (min-width: 640px)" [Declaration "--brand-accent" "#0000ff"]];
     Rule ".dark" [Declaration "--brand-accent" "#00ff00"]] in
  let babel := Sample.babel [Sample.config_with colors] in
  let fs := Sample.project (Sample.print_expression (Sample.config_with colors))
              (Sample.print_root tree) in
  @scanTailwindConfig babel (Sample.postcss [tree]) Sample.helpers "/project" fs
  = (fs, Fulfilled
           (Some {| configPath := Sample.config_file "/project";
                    configContent := ObjectExpression colors;
                    cssPath := Sample.css_file "/project";
                    cssContent := {| root := {[ "brand-accent" := "#0000ff" ]};
                                     dark := {[ "brand-accent" := "#00ff00" ]} |} |})).
Proof.
  intros colors tree babel fs.
  apply (@scanTailwindConfig_reads_both babel (Sample.postcss [tree])
           Sample.helpers "/project" fs fs fs fs (Sample.config_file "/project")
           (Sample.css_file "/project")
           (Sample.print_expression (Sample.config_with colors))
           (Sample.print_root tree) tree);
    reflexivity.
Defined.

Lemma scanTailwindConfig_null_on_stylesheet_error_witness :
  let colors := [Sample.group "brand" [Sample.leaf "accent" "var(--brand-accent)"]] in
  let babel := Sample.babel [Sample.config_with colors] in
  let fs := Sample.project (Sample.print_expression (Sample.config_with colors))
              ":root {" in
  @scanTailwindConfig babel (Sample.postcss []) Sample.helpers "/project" fs
  = (fs, Fulfilled None).
Proof.
  intros colors babel fs.
  apply (@scanTailwindConfig_null_on_stylesheet_error babel (Sample.postcss [])
           Sample.helpers "/project" fs fs fs fs (Sample.config_file "/project")
           (Sample.css_file "/project")
           (Sample.print_expression (Sample.config_with colors))
           ":root {" (ErrorObject "SyntaxError: unexpected token"));
    reflexivity.
Defined.

Lemma scanTailwindConfig_null_without_configuration_witness :
  @scanTailwindConfig (Sample.babel []) (Sample.postcss []) Sample.helpers "/project"
    (Sample.project "" ":root {}")
  = (Sample.project "" ":root {}", Fulfilled None)
  /\ @scanTailwindConfig (Sample.babel []) (Sample.postcss []) Sample.helpers "/elsewhere"
       (Sample.project "" ":root {}")
     = (Sample.project "" ":root {}", Fulfilled None).
Proof.
  split.
  - apply (@scanTailwindConfig_null_without_configuration (Sample.babel [])
             (Sample.postcss []) Sample.helpers "/project" (Sample.project "" ":root {}")
             (Sample.project "" ":root {}") (Sample.project "" ":root {}")
             (Some (Sample.config_file "/project"), Some (Sample.css_file "/project"))
             (Some "")); [reflexivity|].
    right. repeat split; reflexivity.
  - apply (@scanTailwindConfig_null_without_configuration (Sample.babel [])
             (Sample.postcss []) Sample.helpers "/elsewhere" (Sample.project "" ":root {}")
             (Sample.project "" ":root {}") (Sample.project "" ":root {}")
             (None, None) None); [vm_compute; reflexivity|].
    left. split; reflexivity.
Defined.

(* ================================================================= *)
(** ** Creation inside a group *)

Lemma update_first_skip (test : ObjectMember -> bool) (f : ObjectMember -> ObjectMember)
    (before after : list ObjectMember) (x : ObjectMember) :
  existsb test before = false -> test x = true ->
  update_first test f (before ++ x :: after) = before ++ f x :: after.
Proof.
  induction before as [|a l IH]; simpl; intros Hb Hx.
  - rewrite Hx. reflexivity.
  - apply orb_false_iff in Hb as [Ha Hl]. rewrite Ha, IH; auto.
Qed.


Section NestedCreation.

Context `{Babel} `{Jsx} `{PostCss} `{RegExpEngine} `{Helpers}.


End NestedCreation.


(* ================================================================= *)
(** ** What a deletion leaves *)

Lemma find_none {A : Type} (test : A -> bool) (l : list A) :
  existsb test l = false -> List.find test l = None.
Proof.
  induction l as [|a l IH]; simpl; intros Hl; [reflexivity|].
  apply orb_false_iff in Hl as [Ha Hl]. rewrite Ha. apply IH, Hl.
Qed.

Lemma existsb_skip {A : Type} (test : A -> bool) (before after : list A) (x : A) :
  test x = true -> existsb test (before ++ x :: after) = true.
Proof.
  intros Hx. rewrite existsb_app. simpl. rewrite Hx. apply orb_true_iff. right. reflexivity.
Qed.

Lemma filter_all {A : Type} (test : A -> bool) (l : list A) :
  Forall (fun a => test a = true) l -> List.filter test l = l.
Proof.
  induction 1 as [|a l Ha Hl IH]; simpl; [reflexivity|]. rewrite Ha, IH. reflexivity.
Qed.

Lemma filter_passes {A : Type} (test : A -> bool) (l : list A) :
  Forall (fun a => test a = true) (List.filter test l).
Proof.
  apply List.Forall_forall. intros a Ha. apply filter_In in Ha. apply Ha.
Qed.

Section DeletionRest.

Context `{Babel} `{Helpers}.

(** X12. Deleting the colour [c] (a non-empty name) from the group
    [g = toCamelCase(groupName)] through the delete entry point: in a
    colours object whose first entry keyed [g] is a group in which [c]
    comes with other members, only the first member keyed [c] is removed
    and the group stays; a colours object with no entry keyed [g], one
    whose first entry keyed [g] is not an object literal, and one whose
    group has no member keyed [c] are left as they are. The result is a
    success in each case. *)
Theorem delete_keeps_other_entries (projectRoot groupName c : string) (fs fs1 : FileSystem)
    (update : ColorUpdate) (ast : File) :
  initializeTailwindColorContent projectRoot fs = (fs1, Fulfilled (Some update)) ->
  parse ["typescript"; "jsx"] (configContent update) = Normal ast ->
  c <> EmptyString ->
  let g := toCamelCase groupName in
  exists css' f,
    deleteTailwindColorGroup projectRoot groupName (Some c) fs
    = (<[configPath update :=
           generate (rewrite_colors_objects f [] ast) (configContent update)]>
         (<[cssPath update := css']> fs1),
       Fulfilled {| success := true; error := None |})
    /\ (forall value members members' before after,
          existsb (keyed g) before = false ->
          existsb (keyed c) members = false ->
          members ++ members' <> [] ->
          f (before ++
             [ObjectProperty (Identifier g)
                (ObjectExpression
                   (members ++ [ObjectProperty (Identifier c) value] ++ members'))] ++
             after)
          = before ++
            [ObjectProperty (Identifier g) (ObjectExpression (members ++ members'))] ++
            after)
    /\ (forall colorObj, existsb (keyed g) colorObj = false -> f colorObj = colorObj)
    /\ (forall value before after,
          existsb (keyed g) before = false ->
          f (before ++ [ObjectProperty (Identifier g) (StringLiteral value)] ++ after)
          = before ++ [ObjectProperty (Identifier g) (StringLiteral value)] ++ after)
    /\ (forall members before after,
          existsb (keyed g) before = false ->
          existsb (keyed c) members = false ->
          f (before ++ [ObjectProperty (Identifier g) (ObjectExpression members)] ++ after)
          = before ++ [ObjectProperty (Identifier g) (ObjectExpression members)] ++ after).
Proof.
  intros Hinit Hconfig Hc g.
  assert (Htruthy : Js.truthy_opt (Some c) = true)
    by (destruct c; [contradiction | reflexivity]).
  eexists _, _. split; [apply deleteTailwindColorGroup_runs; eassumption|].
  fold g. split; [|split; [|split]].
  - intros value members members' before after Hb Hm Hrest.
    unfold delete_from_colors. cbn [app].
    rewrite find_skip; [|exact Hb | apply String.eqb_refl].
    rewrite Htruthy. cbn [Js.to_string].
    rewrite existsb_skip by apply String.eqb_refl.
    rewrite remove_first_skip; [|exact Hm | apply String.eqb_refl].
    destruct (members ++ members') as [|m rest] eqn:Hlist; [contradiction|].
    rewrite update_first_skip; [reflexivity | exact Hb | apply String.eqb_refl].
  - intros colorObj Hnone. unfold delete_from_colors. rewrite (find_none _ _ Hnone).
    reflexivity.
  - intros value before after Hb. unfold delete_from_colors. cbn [app].
    rewrite find_skip; [|exact Hb | apply String.eqb_refl].
    reflexivity.
  - intros members before after Hb Hm. unfold delete_from_colors. cbn [app].
    rewrite find_skip; [|exact Hb | apply String.eqb_refl].
    rewrite Htruthy. cbn [Js.to_string]. rewrite Hm. reflexivity.
Qed.

(** X13. The line filter of a deletion is idempotent on the text it
    writes: filtering the written stylesheet again, for the same group
    and colour, gives the same text. *)
Theorem deletion_filter_idempotent (g : string) (colorName : option string)
    (css : string) :
  let written := Js.join (String "010" EmptyString) (updatedCssLines g colorName css) in
  Js.join (String "010" EmptyString) (updatedCssLines g colorName written) = written.
Proof.
  intros written. subst written. unfold updatedCssLines.
  destruct (List.filter (shouldKeep g colorName) (Js.split "010" css)) as [|l0 l] eqn:Hf.
  - simpl. unfold shouldKeep. destruct (Js.truthy_opt colorName); reflexivity.
  - rewrite split_join; [|discriminate|].
    + rewrite <- Hf. rewrite filter_all; [reflexivity | apply filter_passes].
    + rewrite <- Hf. apply List.Forall_forall. intros piece Hin.
      apply filter_In in Hin as [Hin _].
      exact (proj1 (List.Forall_forall _ _) (split_pieces "010" css) piece Hin).
Qed.

End DeletionRest.

Lemma delete_keeps_other_entries_witness :
  let colors :=
    [Sample.group "brand"
       [Sample.leaf "accent" "var(--brand-accent)"; Sample.leaf "muted" "var(--brand-muted)"]] in
  let babel := Sample.babel [Sample.config_with colors] in
  let fs := Sample.project (Sample.print_expression (Sample.config_with colors))
              (Sample.print_root Sample.stylesheet) in
  exists css',
    @deleteTailwindColorGroup babel Sample.helpers "/project" "brand" (Some "accent") fs
    = (<[Sample.config_file "/project" :=
           Sample.print_expression
             (Sample.config_with
                [Sample.group "brand" [Sample.leaf "muted" "var(--brand-muted)"]])]>
         (<[Sample.css_file "/project" := css']> fs),
       Fulfilled {| success := true; error := None |}).
Proof.
  intros colors babel fs.
  destruct (@delete_keeps_other_entries babel Sample.helpers "/project" "brand" "accent"
              fs fs
              {| configPath := Sample.config_file "/project";
                 cssPath := Sample.css_file "/project";
                 configContent := Sample.print_expression (Sample.config_with colors);
                 cssContent := Sample.print_root Sample.stylesheet |}
              (Sample.config_with colors))
    as (css' & f & Hrun & Hf & _);
    [reflexivity | reflexivity | discriminate |].
  exists css'.
  assert (Hf' : f colors
                = [Sample.group "brand" [Sample.leaf "muted" "var(--brand-muted)"]]).
  { apply (Hf (StringLiteral "var(--brand-accent)") []
              [Sample.leaf "muted" "var(--brand-muted)"] [] []);
      [reflexivity | reflexivity | discriminate]. }
  rewrite Hrun.
  change (rewrite_colors_objects f [] (Sample.config_with colors))
    with (Sample.config_with (f colors)).
  rewrite Hf'. reflexivity.
Defined.

(* ================================================================= *)
(** ** Texts that open with a given text *)

Lemma append_String (c : ascii) (s t : string) : String c s +:+ t = String c (s +:+ t).
Proof. reflexivity. Qed.

Lemma append_assoc (s t u : string) : (s +:+ t) +:+ u = s +:+ (t +:+ u).
Proof.
  induction s as [|c s IH]; [reflexivity|]. rewrite !append_String, IH. reflexivity.
Qed.

Lemma prefix_empty (s : string) : String.prefix EmptyString s = true.
Proof. destruct s; reflexivity. Qed.

Lemma prefix_app (p s : string) : String.prefix p (p +:+ s) = true.
Proof.
  induction p as [|c p IH]; [apply prefix_empty|].
  rewrite append_String, prefix_same_char. exact IH.
Qed.

Lemma prefix_app_r (p s t : string) :
  String.prefix p s = true -> String.prefix p (s +:+ t) = true.
Proof.
  revert s. induction p as [|c p IH]; intros s Hp; [apply prefix_empty|].
  destruct s as [|d s]; [discriminate|]. rewrite append_String.
  destruct (Ascii.ascii_dec c d) as [->|Hcd].
  - rewrite prefix_same_char in *. apply IH, Hp.
  - rewrite prefix_other_char in Hp by exact Hcd. discriminate.
Qed.

(** A text that opens [b +:+ r] opens [b] or is opened by [b]. *)
Lemma prefix_app_cases (a b r : string) :
  String.prefix a (b +:+ r) = true ->
  String.prefix a b = true \/ String.prefix b a = true.
Proof.
  revert b. induction a as [|c a IH]; intros b Ha; [left; apply prefix_empty|].
  destruct b as [|d b]; [right; reflexivity|]. rewrite append_String in Ha.
  destruct (Ascii.ascii_dec c d) as [->|Hcd].
  - rewrite !prefix_same_char in *. apply IH, Ha.
  - rewrite prefix_other_char in Ha by exact Hcd. discriminate.
Qed.

Lemma prefix_length (p s : string) :
  String.prefix p s = true -> String.length p <= String.length s.
Proof.
  revert s. induction p as [|c p IH]; intros s Hp; [simpl; lia|].
  destruct s as [|d s]; [discriminate|].
  destruct (Ascii.ascii_dec c d) as [->|Hcd].
  - rewrite prefix_same_char in Hp. apply IH in Hp. simpl. lia.
  - rewrite prefix_other_char in Hp by exact Hcd. discriminate.
Qed.

Lemma append_length (s t : string) :
  String.length (s +:+ t) = String.length s + String.length t.
Proof.
  induction s as [|c s IH]; [reflexivity|]. rewrite append_String. simpl. rewrite IH.
  reflexivity.
Qed.

Lemma drop_app (p s : string) : Js.drop (String.length p) (p +:+ s) = s.
Proof. induction p as [|c p IH]; [reflexivity|]. rewrite append_String. exact IH. Qed.

Lemma plain_no_dollar (s : string) : plain s = true -> Js.has_char "$" s = false.
Proof.
  induction s as [|c s IH]; [reflexivity|]. simpl. intros Hs.
  apply andb_true_iff in Hs as [Hc Hs]. rewrite (IH Hs), orb_false_r.
  destruct (Ascii.eqb_spec c "$") as [->|]; [discriminate Hc | reflexivity].
Qed.

(** A replacement text without a dollar sign stands for itself. *)
Lemma GetSubstitution_literal (matched before after template : string) :
  Js.has_char "$" template = false ->
  Js.GetSubstitution matched before after template = template.
Proof.
  induction template as [|c t IH]; [reflexivity|]. simpl. intros Ht.
  apply orb_false_iff in Ht as [Hc Ht]. rewrite Hc, (IH Ht). reflexivity.
Qed.

Lemma find_first_here (p s : string) :
  String.prefix p s = true ->
  Js.find_first p s = Some (EmptyString, Js.drop (String.length p) s).
Proof. intros Hp. destruct s; simpl; simpl in Hp; rewrite Hp; reflexivity. Qed.

Lemma find_first_later (p s : string) (c : ascii) :
  String.prefix p (String c s) = false ->
  Js.find_first p (String c s)
  = match Js.find_first p s with
    | Some (before, after) => Some (String c before, after)
    | None => None
    end.
Proof. intros Hp. cbn [Js.find_first]. rewrite Hp. reflexivity. Qed.

(** In [--name...], for a name that opens with a character other than a
    hyphen, the first occurrence of the name is the one after the two
    hyphens. *)
Lemma find_first_after_hyphens (name rest : string) :
  opens_plainly name = true ->
  Js.find_first name ("--" +:+ name +:+ rest) = Some ("--", rest).
Proof.
  destruct name as [|c name]; [discriminate|]. cbn [opens_plainly]. intros Hc.
  apply negb_true_iff in Hc. destruct (Ascii.eqb_spec c "-") as [|Hne]; [discriminate|].
  change ("--" +:+ String c name +:+ rest)
    with (String "-" (String "-" (String c name +:+ rest))).
  rewrite !find_first_later by (apply prefix_other_char; exact Hne).
  rewrite find_first_here by apply prefix_app. rewrite drop_app. reflexivity.
Qed.

Lemma replace_after_hyphens (name newVarName rest : string) :
  opens_plainly name = true ->
  Js.has_char "$" newVarName = false ->
  Js.replace ("--" +:+ name +:+ rest) name newVarName = "--" +:+ newVarName +:+ rest.
Proof.
  intros Hname Hnew. unfold Js.replace. rewrite find_first_after_hyphens by exact Hname.
  rewrite GetSubstitution_literal by exact Hnew. reflexivity.
Qed.

(* ================================================================= *)
(** ** A walk over the declarations of a rule *)

(** The walk on a child under a callback that answers [e] on every
    declaration. *)
Lemma walk_block_answers (callback : string -> string -> Completion Edit)
    (e : string -> string -> Edit) (child : Child) :
  (forall prop value, callback prop value = Normal (e prop value)) ->
  walk_block callback child = Normal (stays e child, appends e child).
Proof.
  intros Hcb.
  induction child as [prop value|header nodes IH|text] using Child_nested_ind.
  - cbn [walk_block stays appends]. rewrite Hcb. reflexivity.
  - cbn [walk_block stays appends].
    match goal with
    | |- bindC ?run _ = _ =>
        assert (Hrun : run = Normal (flat_map (stays e) nodes, flat_map (appends e) nodes))
    end.
    { induction IH as [|c l Hc _ IHl]; [reflexivity|].
      rewrite Hc. cbn [bindC]. rewrite IHl. reflexivity. }
    rewrite Hrun. reflexivity.
  - reflexivity.
Qed.

(** A walk in which the callback answers [e] and what it appends is left
    alone: what stays of the children, in order, then what was appended,
    in order. *)
Lemma walkDecls_settles (callback : string -> string -> Completion Edit)
    (e : string -> string -> Edit) (todo : list Child) :
  (forall prop value, callback prop value = Normal (e prop value)) ->
  forall (fuel : nat) (tail visited : list Child),
    Forall (left_alone callback) tail ->
    Forall (left_alone callback) (flat_map (appends e) todo) ->
    List.length todo + List.length tail + List.length (flat_map (appends e) todo) <= fuel ->
    walkDecls fuel callback visited (todo ++ tail)
    = Fulfilled (visited ++ flat_map (stays e) todo ++ tail ++ flat_map (appends e) todo).
Proof.
  intros Hcb.
  induction todo as [|child todo IH]; intros fuel tail visited Htail Happ Hfuel.
  - simpl in *. rewrite app_nil_r. apply walkDecls_keeps; [exact Htail | lia].
  - destruct fuel as [|fuel]; [simpl in Hfuel; lia|].
    cbn [flat_map] in Happ. apply Forall_app in Happ as [Hhere Hlater].
    cbn [flat_map length] in Hfuel. rewrite List.length_app in Hfuel.
    cbn [app walkDecls flat_map]. rewrite (walk_block_answers _ e _ Hcb).
    rewrite <- app_assoc.
    rewrite (IH fuel (tail ++ appends e child));
      [| apply Forall_app; split; assumption | exact Hlater
       | rewrite List.length_app; lia].
    rewrite <- !app_assoc. reflexivity.
Qed.

(** A walk over the rules whose callback turns the children of an
    accepted rule into [g] of them, given the steps the rule needs. *)
Lemma walkRules_rewrites (accepts : string -> bool)
    (callback : string -> list Child -> Settled (list Child))
    (g : string -> list Child -> list Child) (steps : list Child -> nat) (fuel : nat)
    (n : Node) :
  (forall selector nodes, accepts selector = true -> steps nodes <= fuel ->
     callback selector nodes = Fulfilled (g selector nodes)) ->
  rules_steps steps n <= fuel ->
  walkRules accepts callback n = Fulfilled (rewrite_rules accepts g n).
Proof.
  intros Hcb.
  induction n as [selector nodes|name params nodes IH|text] using Node_nested_ind;
    cbn [walkRules rewrite_rules]; intros Hcount.
  - destruct (accepts selector) eqn:Ha; [|reflexivity].
    rewrite Hcb; [reflexivity | exact Ha | exact Hcount].
  - match goal with
    | |- bindS ?run _ = _ =>
        assert (Hrun : run = Fulfilled (map (rewrite_rules accepts g) nodes))
    end.
    { cbn [rules_steps] in Hcount.
      induction IH as [|c l Hc _ IHl]; [reflexivity|].
      rewrite Hc; [|lia]. cbn [bindS]. rewrite IHl; [reflexivity | lia]. }
    rewrite Hrun. reflexivity.
  - reflexivity.
Qed.

Lemma walkRules_root_rewrites (accepts : string -> bool)
    (callback : string -> list Child -> Settled (list Child))
    (g : string -> list Child -> list Child) (steps : list Child -> nat) (fuel : nat)
    (tree : Root) :
  (forall selector nodes, accepts selector = true -> steps nodes <= fuel ->
     callback selector nodes = Fulfilled (g selector nodes)) ->
  rules_steps_root steps tree <= fuel ->
  walkRules_root accepts callback tree = Fulfilled (map (rewrite_rules accepts g) tree).
Proof.
  intros Hcb. induction tree as [|n tree IH]; cbn [walkRules_root map];
    intros Hcount; [reflexivity|].
  cbn [rules_steps_root fold_right] in Hcount.
  rewrite (walkRules_rewrites _ _ g steps fuel); [|exact Hcb|lia].
  cbn [bindS]. rewrite IH; [reflexivity|]. unfold rules_steps_root. lia.
Qed.

Lemma children_count_steps (n : Node) :
  rules_steps (@List.length Child) n = children_count n.
Proof.
  induction n as [selector nodes|name params nodes IH|text] using Node_nested_ind;
    [reflexivity| |reflexivity].
  cbn [rules_steps children_count].
  induction IH as [|c l Hc _ IHl]; [reflexivity|]. rewrite Hc, IHl. reflexivity.
Qed.

Lemma children_count_root_steps (tree : Root) :
  rules_steps_root (@List.length Child) tree = children_count_root tree.
Proof.
  unfold rules_steps_root, children_count_root.
  induction tree as [|n tree IH]; [reflexivity|].
  cbn [fold_right]. rewrite children_count_steps, IH. reflexivity.
Qed.

Lemma rules_of_rewrite_apart (accepts accepts' : string -> bool)
    (g : string -> list Child -> list Child) (n : Node) :
  (forall selector nodes,
     accepts' selector = true -> accepts selector = true -> g selector nodes = nodes) ->
  rules_of accepts' (rewrite_rules accepts g n) = rules_of accepts' n.
Proof.
  intros Hapart.
  induction n as [selector nodes|name params nodes IH|text] using Node_nested_ind.
  - cbn [rewrite_rules]. destruct (accepts selector) eqn:Ha; [|reflexivity].
    cbn [rules_of]. destruct (accepts' selector) eqn:Ha'; [|reflexivity].
    rewrite Hapart by assumption. reflexivity.
  - cbn [rewrite_rules]. rewrite !rules_of_AtRule.
    induction IH as [|c l Hc _ IHl]; simpl; [reflexivity|].
    rewrite Hc, IHl. reflexivity.
  - reflexivity.
Qed.

Lemma rules_of_root_rewrite_apart (accepts accepts' : string -> bool)
    (g : string -> list Child -> list Child) (tree : Root) :
  (forall selector nodes,
     accepts' selector = true -> accepts selector = true -> g selector nodes = nodes) ->
  rules_of_root accepts' (map (rewrite_rules accepts g) tree) = rules_of_root accepts' tree.
Proof.
  intros Hapart. unfold rules_of_root.
  induction tree as [|n tree IH]; simpl; [reflexivity|].
  rewrite (rules_of_rewrite_apart _ _ _ _ Hapart), IH. reflexivity.
Qed.

Lemma rules_of_rewrite (selector : string)
    (g : string -> list Child -> list Child) (n : Node) :
  is_scope selector = true ->
  rules_of (String.eqb selector) (rewrite_rules is_scope g n)
  = map (g selector) (rules_of (String.eqb selector) n).
Proof.
  intros Hs.
  induction n as [selector' nodes|name params nodes IH|text] using Node_nested_ind.
  - cbn [rewrite_rules rules_of].
    destruct (String.eqb_spec selector selector') as [<-|Hne].
    + rewrite Hs. cbn [rules_of]. rewrite String.eqb_refl. reflexivity.
    + destruct (is_scope selector'); cbn [rules_of];
        destruct (String.eqb_spec selector selector'); try contradiction; reflexivity.
  - cbn [rewrite_rules]. rewrite !rules_of_AtRule.
    induction IH as [|c l Hc _ IHl]; simpl; [reflexivity|].
    rewrite Hc, IHl, map_app. reflexivity.
  - reflexivity.
Qed.

Lemma rules_of_root_rewrite (selector : string)
    (g : string -> list Child -> list Child) (tree : Root) :
  is_scope selector = true ->
  rules_of_root (String.eqb selector) (map (rewrite_rules is_scope g) tree)
  = map (g selector) (rules_of_root (String.eqb selector) tree).
Proof.
  intros Hs. unfold rules_of_root.
  induction tree as [|n tree IH]; simpl; [reflexivity|].
  rewrite (rules_of_rewrite _ _ _ Hs), IH, map_app. reflexivity.
Qed.

Lemma map_unchanged {A : Type} (f : A -> A) (l : list A) :
  (forall a, f a = a) -> map f l = l.
Proof. intros Hf. induction l as [|a l IH]; simpl; [reflexivity|]. rewrite Hf, IH. reflexivity. Qed.

Lemma flat_map_singleton {A B : Type} (f : A -> B) (l : list A) :
  flat_map (fun a => [f a]) l = map f l.
Proof. induction l as [|a l IH]; simpl; [reflexivity|]. rewrite IH. reflexivity. Qed.

Lemma flat_map_empty {A B : Type} (f : A -> list B) (l : list A) :
  (forall a, f a = []) -> flat_map f l = [].
Proof. intros Hf. induction l as [|a l IH]; simpl; [reflexivity|]. rewrite Hf, IH. reflexivity. Qed.

(* ================================================================= *)
(** ** A new colour for a variable that keeps its name *)

Lemma recolored_outside (name newColor : string) (theme : option Theme)
    (selector : string) (child : Child) :
  Js.truthy newColor && in_theme theme selector = false ->
  recolored name newColor theme selector child = child.
Proof.
  intros Hout.
  induction child as [prop value|header nodes IH|text] using Child_nested_ind.
  - cbn [recolored]. rewrite Hout, andb_false_r. reflexivity.
  - cbn [recolored]. f_equal.
    induction IH as [|c l Hc _ IHl]; [reflexivity|]. cbn [map]. rewrite Hc, IHl.
    reflexivity.
  - reflexivity.
Qed.

Section Recolour.

Context `{PostCss} `{RegExpEngine}.

Lemma update_declaration_recolours (selector name newColor : string)
    (theme : option Theme) (prop value : string) :
  update_declaration selector name name newColor theme prop value
  = Normal (Some (recolored name newColor theme selector (Declaration prop value)), []).
Proof.
  unfold update_declaration. cbn [recolored]. unfold in_theme.
  rewrite String.eqb_refl, andb_false_r.
  destruct (String.eqb prop ("--" +:+ name)); [|reflexivity].
  cbn [andb].
  match goal with |- context [if ?b then _ else _] => destruct b end; reflexivity.
Qed.

(** The walk over a rule with the name kept: every child recoloured,
    the blocks with what is inside them. *)
Lemma stays_recolours (name newColor : string) (theme : option Theme) (selector : string)
    (child : Child) :
  let e := fun prop value =>
             (Some (recolored name newColor theme selector (Declaration prop value)),
              @nil Child) in
  stays e child = [recolored name newColor theme selector child]
  /\ appends e child = [].
Proof.
  intros e.
  induction child as [prop value|header nodes IH|text] using Child_nested_ind.
  - split; reflexivity.
  - cbn [stays appends recolored]. split.
    + f_equal. f_equal.
      induction IH as [|c l [Hc _] _ IHl]; [reflexivity|].
      cbn [flat_map map]. rewrite Hc, IHl. reflexivity.
    + induction IH as [|c l [_ Hc] _ IHl]; [reflexivity|].
      cbn [flat_map]. rewrite Hc, IHl. reflexivity.
  - split; reflexivity.
Qed.

(** The stylesheet step with the name kept. *)
Lemma recolour_runs (fuel : nat) (cssContent name newColor : string)
    (theme : option Theme) (tree : Root) (fs : FileSystem) :
  postcss_parse cssContent = Normal tree ->
  children_count_root tree <= fuel ->
  updateTailwindCssVariable fuel cssContent name name newColor theme fs
  = (fs, Fulfilled
           (postcss_stringify
              (map (rewrite_rules is_scope
                      (fun selector => map (recolored name newColor theme selector)))
                 tree))).
Proof.
  intros Hp Hfuel.
  unfold updateTailwindCssVariable, processCss, bind, lift.
  rewrite Hp. unfold ret at 1.
  change (fun selector : string => String.eqb selector ":root" || String.eqb selector ".dark")
    with is_scope.
  rewrite (walkRules_root_rewrites is_scope _
             (fun selector => map (recolored name newColor theme selector))
             (@List.length Child) fuel);
    [reflexivity| |rewrite children_count_root_steps; exact Hfuel].
  intros selector nodes _ Hlen.
  set (e := fun prop value =>
              (Some (recolored name newColor theme selector (Declaration prop value)),
               @nil Child)).
  assert (Hstays : flat_map (stays e) nodes
                   = map (recolored name newColor theme selector) nodes).
  { rewrite <- flat_map_singleton. apply flat_map_ext. intros child.
    apply (stays_recolours name newColor theme selector child). }
  assert (Happends : flat_map (appends e) nodes = []).
  { apply flat_map_empty. intros child.
    apply (stays_recolours name newColor theme selector child). }
  rewrite <- (app_nil_r nodes) at 1.
  rewrite (walkDecls_settles _ e).
  - cbn [app]. rewrite Hstays, Happends, !app_nil_r. reflexivity.
  - intros prop value. apply update_declaration_recolours.
  - constructor.
  - rewrite Happends. constructor.
  - rewrite Happends. simpl. lia.
Qed.

(** X14. A new colour [v] for the variable [name], without a rename, in
    a stylesheet in which no [:root] or [.dark] rule is nested in a
    rule: in every [:root] and every [.dark] rule of a scope the theme
    applies to, each declaration of [--name] gets the value [v], those
    inside the blocks nested in the rule as well; every other child
    stays as it is and in its place, and nothing is appended or removed.
    With the dark theme the [:root] rules are as before, with the light
    theme the [.dark] rules are, and the rules of other selectors always
    are. *)
Theorem recolour_keeps_the_name (fuel : nat) (cssContent name newColor : string)
    (theme : option Theme) (tree : Root) (fs : FileSystem) :
  postcss_parse cssContent = Normal tree ->
  forallb scopes_on_top tree = true ->
  newColor <> EmptyString ->
  children_count_root tree <= fuel ->
  let tree' :=
    map (rewrite_rules is_scope (fun selector => map (recolored name newColor theme selector)))
      tree in
  updateTailwindCssVariable fuel cssContent name name newColor theme fs
  = (fs, Fulfilled (postcss_stringify tree'))
  /\ (forall selector prop value,
        recolored name newColor theme selector (Declaration prop value)
        = Declaration prop
            (if String.eqb prop ("--" +:+ name) && in_theme theme selector
             then newColor else value))
  /\ (forall selector header nodes,
        recolored name newColor theme selector (Block header nodes)
        = Block header (map (recolored name newColor theme selector) nodes))
  /\ (theme = Some theme_dark ->
      rules_of_root (String.eqb ":root") tree' = rules_of_root (String.eqb ":root") tree)
  /\ (theme = Some theme_light ->
      rules_of_root (String.eqb ".dark") tree' = rules_of_root (String.eqb ".dark") tree)
  /\ (forall accepts : string -> bool,
        accepts ":root" = false -> accepts ".dark" = false ->
        rules_of_root accepts tree' = rules_of_root accepts tree).
Proof.
  intros Hp _ Hcolor Hfuel tree'.
  assert (Htruthy : Js.truthy newColor = true)
    by (destruct newColor; [contradiction | reflexivity]).
  split; [apply recolour_runs; assumption|].
  split; [|split; [|split; [|split]]].
  - intros selector prop value. cbn [recolored]. rewrite Htruthy. cbn [andb].
    destruct (String.eqb prop ("--" +:+ name) && in_theme theme selector); reflexivity.
  - reflexivity.
  - intros ->. apply rules_of_root_rewrite_apart. intros selector nodes Hs _.
    apply String.eqb_eq in Hs as <-. apply map_unchanged.
    intros child. apply recolored_outside. apply andb_false_r.
  - intros ->. apply rules_of_root_rewrite_apart. intros selector nodes Hs _.
    apply String.eqb_eq in Hs as <-. apply map_unchanged.
    intros child. apply recolored_outside. apply andb_false_r.
  - intros accepts Hroot Hdark. apply rules_of_root_rewrite_apart.
    intros selector nodes Ha Hs. unfold is_scope in Hs. apply orb_true_iff in Hs as [Hs|Hs];
      apply String.eqb_eq in Hs; subst selector; congruence.
Qed.

End Recolour.

Lemma recolour_keeps_the_name_witness :
  let tree :=
    [Rule ":root" [Declaration "--brand-accent" "#ff0000"];
     Rule ".dark"
       [Declaration "--brand-accent" "#00ff00";
        Block "@media (min-width: 640px)" [Declaration "--brand-accent" "#008800"]]] in
  @updateTailwindCssVariable (Sample.postcss [tree]) Sample.engine
    3 (Sample.print_root tree) "brand-accent" "brand-accent" "#3366ff" (Some theme_dark) ∅
  = (∅, Fulfilled
          (Sample.print_root
             [Rule ":root" [Declaration "--brand-accent" "#ff0000"];
              Rule ".dark"
                [Declaration "--brand-accent" "#3366ff";
                 Block "@media (min-width: 640px)"
                   [Declaration "--brand-accent" "#3366ff"]]])).
Proof.
  intros tree.
  apply (@recolour_keeps_the_name (Sample.postcss [tree]) Sample.engine
           3 (Sample.print_root tree) "brand-accent" "#3366ff" (Some theme_dark) tree ∅);
    [reflexivity | reflexivity | discriminate | simpl; lia].
Defined.

(* ================================================================= *)
(** ** A rename in the stylesheet *)

Lemma prefix_app_l (a b s : string) :
  String.prefix (a +:+ b) s = true -> String.prefix a s = true.
Proof.
  revert s. induction a as [|c a IH]; intros s Hs; [apply prefix_empty|].
  destruct s as [|d s]; [discriminate|]. rewrite append_String in Hs.
  destruct (Ascii.ascii_dec c d) as [->|Hcd].
  - rewrite prefix_same_char in *. apply IH, Hs.
  - rewrite prefix_other_char in Hs by exact Hcd. discriminate.
Qed.

Lemma prefix_refl (s : string) : String.prefix s s = true.
Proof.
  induction s as [|c s IH]; [reflexivity|]. rewrite prefix_same_char. exact IH.
Qed.

Lemma prefix_hyphenated (a b : string) :
  String.prefix ("--" +:+ a) ("--" +:+ b) = String.prefix a b.
Proof. reflexivity. Qed.

Lemma prefix_longer (s : string) (c : ascii) (t : string) :
  String.prefix (s +:+ String c t) s = false.
Proof.
  destruct (String.prefix (s +:+ String c t) s) eqn:Hp; [|reflexivity].
  apply prefix_length in Hp. rewrite append_length in Hp. simpl in Hp. lia.
Qed.

(** A derived property [--name-...] read as [--name] and the rest. *)
Lemma derived_property (name prop : string) :
  String.prefix ("--" +:+ name +:+ "-") prop = true ->
  exists rest,
    prop = "--" +:+ name +:+ "-" +:+ rest
    /\ Js.drop (2 + String.length name) prop = "-" +:+ rest.
Proof.
  intros Hp. apply prefix_drop in Hp.
  exists (Js.drop (String.length ("--" +:+ name +:+ "-")) prop).
  set (rest := Js.drop (String.length ("--" +:+ name +:+ "-")) prop) in *.
  assert (Hprop : prop = "--" +:+ name +:+ "-" +:+ rest).
  { rewrite Hp at 1. change ("--" +:+ name +:+ "-") with ("--" +:+ (name +:+ "-")).
    change (("--" +:+ (name +:+ "-")) +:+ rest) with ("--" +:+ ((name +:+ "-") +:+ rest)).
    rewrite append_assoc. reflexivity. }
  split; [exact Hprop|]. rewrite Hprop.
  change (2 + String.length name) with (String.length ("--" +:+ name)).
  change ("--" +:+ name +:+ "-" +:+ rest) with (("--" +:+ name) +:+ ("-" +:+ rest)).
  apply drop_app.
Qed.

Section Rename.

Context `{PostCss} `{RegExpEngine}.

(** The callback of a rename answers as [rename_answer] says. *)
Lemma update_declaration_renames (selector name newVarName newColor : string)
    (theme : option Theme) (prop value : string) :
  engine_plain_test ->
  plain name = true ->
  opens_plainly name = true ->
  Js.has_char "$" newVarName = false ->
  newVarName <> EmptyString ->
  newVarName <> name ->
  update_declaration selector name newVarName newColor theme prop value
  = Normal (rename_answer name newVarName newColor theme selector prop value).
Proof.
  intros engine_tests Hplain Hopens Hdollar Hnew Hdiff.
  unfold update_declaration, rename_answer, addressed, moved, in_theme.
  assert (Hrenamed :
            Js.truthy newVarName && negb (String.eqb newVarName name) = true).
  { destruct newVarName; [contradiction|]. cbn [Js.truthy andb].
    apply negb_true_iff. destruct (String.eqb_spec (String a newVarName) name);
      [contradiction | reflexivity]. }
  rewrite Hrenamed.
  change ("^--" +:+ name +:+ "-") with (String "^" ("--" +:+ name +:+ "-")).
  rewrite engine_tests
    by (change ("--" +:+ name +:+ "-") with ("--" +:+ (name +:+ "-"));
        rewrite !plain_app, Hplain; reflexivity).
  cbn [bindC].
  destruct (String.eqb_spec prop ("--" +:+ name)) as [->|Hprop].
  - change ("--" +:+ name +:+ "-") with (("--" +:+ name) +:+ "-").
    rewrite prefix_longer. cbn [orb]. reflexivity.
  - cbn [orb]. destruct (String.prefix ("--" +:+ name +:+ "-") prop) eqn:Hderived;
      [|reflexivity].
    destruct (derived_property _ _ Hderived) as (rest & Hrest & Hdrop).
    assert (Hreplace : Js.replace prop name newVarName
                       = "--" +:+ newVarName +:+ "-" +:+ rest)
      by (rewrite Hrest; apply replace_after_hyphens; assumption).
    rewrite Hreplace, Hdrop. reflexivity.
Qed.

Lemma moved_short (name newVarName newColor : string) (theme : option Theme)
    (selector : string) (nodes : list Child) :
  List.length (flat_map (moved name newVarName newColor theme selector) nodes)
  <= list_sum (map declarations nodes).
Proof.
  assert (Hchild : forall child,
            List.length (moved name newVarName newColor theme selector child)
            <= declarations child).
  { induction child as [prop value|header l IH|text] using Child_nested_ind.
    - cbn [moved declarations].
      destruct (String.eqb prop ("--" +:+ name)); [simpl; lia|].
      destruct (String.prefix ("--" +:+ name +:+ "-") prop); simpl; lia.
    - cbn [moved declarations].
      induction IH as [|c l Hc _ IHl]; [simpl; lia|].
      cbn [flat_map map]. rewrite List.length_app.
      change (list_sum (declarations c :: map declarations l))
        with (declarations c + list_sum (map declarations l)). lia.
    - simpl. lia. }
  induction nodes as [|child nodes IH]; [simpl; lia|].
  cbn [flat_map map]. rewrite List.length_app.
  change (list_sum (declarations child :: map declarations nodes))
    with (declarations child + list_sum (map declarations nodes)).
  specialize (Hchild child). lia.
Qed.

(** When neither name, with a hyphen after it, opens the other, what a
    rename appends is not addressed by it. *)
Lemma moved_not_addressed (name newVarName newColor : string) (theme : option Theme)
    (selector : string) (child d : Child) :
  String.prefix (name +:+ "-") (newVarName +:+ "-") = false ->
  String.prefix (newVarName +:+ "-") (name +:+ "-") = false ->
  In d (moved name newVarName newColor theme selector child) ->
  exists prop value, d = Declaration prop value /\ addressed name d = false.
Proof.
  intros Hfirst Hsecond. revert d.
  induction child as [prop value|header nodes IH|text] using Child_nested_ind;
    intros d Hin; [| |destruct Hin].
  - cbn [moved] in Hin.
    destruct (String.eqb prop ("--" +:+ name)).
    + destruct Hin as [<-|[]]. eexists _, _. split; [reflexivity|].
      cbn [addressed]. apply orb_false_iff. split.
      * destruct (String.eqb_spec ("--" +:+ newVarName) ("--" +:+ name)) as [Heq|];
          [|reflexivity].
        injection Heq as Heq. change (newVarName = name) in Heq. subst newVarName.
        rewrite prefix_refl in Hfirst. discriminate.
      * rewrite prefix_hyphenated.
        destruct (String.prefix (name +:+ "-") newVarName) eqn:Hp; [|reflexivity].
        rewrite (prefix_app_r _ _ "-" Hp) in Hfirst. discriminate.
    + destruct (String.prefix ("--" +:+ name +:+ "-") prop) eqn:Hderived; [|destruct Hin].
      destruct Hin as [<-|[]]. eexists _, _. split; [reflexivity|].
      destruct (derived_property _ _ Hderived) as (rest & _ & ->).
      cbn [addressed]. apply orb_false_iff. split.
      * destruct (String.eqb_spec ("--" +:+ newVarName +:+ "-" +:+ rest) ("--" +:+ name))
          as [Heq|]; [|reflexivity].
        injection Heq as Heq. change (newVarName +:+ "-" +:+ rest = name) in Heq.
        assert (Hp : String.prefix (newVarName +:+ "-") name = true).
        { rewrite <- Heq. rewrite <- append_assoc. apply prefix_app. }
        rewrite (prefix_app_r _ _ "-" Hp) in Hsecond. discriminate.
      * rewrite prefix_hyphenated.
        destruct (String.prefix (name +:+ "-") (newVarName +:+ "-" +:+ rest)) eqn:Hp;
          [|reflexivity].
        rewrite <- append_assoc in Hp. apply prefix_app_cases in Hp as [Hp|Hp]; congruence.
  - cbn [moved] in Hin. apply in_flat_map in Hin as (c & Hc & Hin).
    exact (proj1 (List.Forall_forall _ _) IH c Hc d Hin).
Qed.

(** Under the answer of a rename, what stays of a child is what remains
    of it, and what is appended is what the rename moves. *)
Lemma stays_remaining (name newVarName newColor : string) (theme : option Theme)
    (selector : string) (child : Child) :
  stays (rename_answer name newVarName newColor theme selector) child
  = remaining name child
  /\ appends (rename_answer name newVarName newColor theme selector) child
     = moved name newVarName newColor theme selector child.
Proof.
  induction child as [prop value|header nodes IH|text] using Child_nested_ind.
  - split; [|reflexivity]. cbn [stays remaining rename_answer fst].
    destruct (addressed name (Declaration prop value)); reflexivity.
  - cbn [stays appends remaining moved]. split.
    + f_equal. f_equal.
      induction IH as [|c l [Hc _] _ IHl]; [reflexivity|].
      cbn [flat_map]. rewrite Hc, IHl. reflexivity.
    + induction IH as [|c l [_ Hc] _ IHl]; [reflexivity|].
      cbn [flat_map]. rewrite Hc, IHl. reflexivity.
  - split; reflexivity.
Qed.

(** X15. A rename of the variable [name] to [newVarName] in a stylesheet
    in which no [:root] or [.dark] rule is nested in a rule, for names of
    which neither, with a hyphen after it, opens the other: in every
    [:root] and every [.dark] rule, the declaration of [--name] and the
    derived declarations [--name-rest] are taken out of their places,
    those inside the blocks nested in the rule out of their blocks, and
    stand at the end of the rule, in document order, as [--newVarName]
    (with the new colour in the scopes of the theme, when one is given)
    and [--newVarName-rest]; the other children and the blocks keep their
    places. The rules of other selectors are as before. *)
Theorem rename_moves_declarations (fuel : nat)
    (cssContent name newVarName newColor : string) (theme : option Theme) (tree : Root)
    (fs : FileSystem) :
  engine_plain_test ->
  postcss_parse cssContent = Normal tree ->
  forallb scopes_on_top tree = true ->
  plain name = true ->
  opens_plainly name = true ->
  Js.has_char "$" newVarName = false ->
  newVarName <> EmptyString ->
  String.prefix (name +:+ "-") (newVarName +:+ "-") = false ->
  String.prefix (newVarName +:+ "-") (name +:+ "-") = false ->
  rules_steps_root rename_steps tree <= fuel ->
  let tree' :=
    map (rewrite_rules is_scope (renamed_rule name newVarName newColor theme)) tree in
  updateTailwindCssVariable fuel cssContent name newVarName newColor theme fs
  = (fs, Fulfilled (postcss_stringify tree'))
  /\ (forall accepts : string -> bool,
        accepts ":root" = false -> accepts ".dark" = false ->
        rules_of_root accepts tree' = rules_of_root accepts tree).
Proof.
  intros engine_tests Hp _ Hplain Hopens Hdollar Hnew Hfirst Hsecond Hfuel tree'.
  assert (Hdiff : newVarName <> name).
  { intros ->. rewrite prefix_refl in Hfirst. discriminate. }
  assert (Hanswer : forall selector prop value,
            update_declaration selector name newVarName newColor theme prop value
            = Normal (rename_answer name newVarName newColor theme selector prop value))
    by (intros; apply update_declaration_renames; assumption).
  split.
  - unfold updateTailwindCssVariable, processCss, bind, lift.
    rewrite Hp. unfold ret at 1.
    change (fun selector : string => String.eqb selector ":root" || String.eqb selector ".dark")
      with is_scope.
    rewrite (walkRules_root_rewrites is_scope _
               (renamed_rule name newVarName newColor theme) rename_steps fuel);
      [reflexivity| |exact Hfuel].
    intros selector nodes _ Hlen. unfold rename_steps in Hlen.
    assert (Hmoved := moved_short name newVarName newColor theme selector nodes).
    assert (Hstays : flat_map (stays (rename_answer name newVarName newColor theme selector))
                       nodes
                     = flat_map (remaining name) nodes).
    { apply flat_map_ext. intros child. apply stays_remaining. }
    assert (Happ : flat_map (appends (rename_answer name newVarName newColor theme selector))
                     nodes
                   = flat_map (moved name newVarName newColor theme selector) nodes).
    { apply flat_map_ext. intros child. apply stays_remaining. }
    rewrite <- (app_nil_r nodes) at 1.
    rewrite (walkDecls_settles _ (rename_answer name newVarName newColor theme selector)).
    + cbn [app]. rewrite Hstays, Happ. reflexivity.
    + intros prop value. apply Hanswer.
    + constructor.
    + rewrite Happ. apply List.Forall_forall. intros d Hin.
      apply in_flat_map in Hin as (child & _ & Hin).
      destruct (moved_not_addressed _ _ _ _ _ _ _ Hfirst Hsecond Hin)
        as (prop & value & -> & Hd).
      unfold left_alone. cbn [walk_block]. rewrite Hanswer.
      unfold rename_answer. rewrite Hd. cbn [addressed moved] in *.
      apply orb_false_iff in Hd as [-> ->]. reflexivity.
    + rewrite Happ. simpl. lia.
  - intros accepts Hroot Hdark. apply rules_of_root_rewrite_apart.
    intros selector nodes Ha Hs. unfold is_scope in Hs. apply orb_true_iff in Hs as [Hs|Hs];
      apply String.eqb_eq in Hs; subst selector; congruence.
Qed.

End Rename.

Lemma sample_engine_tests : @engine_plain_test Sample.engine.
Proof. intros text s _. reflexivity. Qed.

Lemma rename_moves_declarations_witness :
  let tree :=
    [Rule ":root"
       [Declaration "--brand" "#111111"; Declaration "--white" "#ffffff";
        Block "@media (min-width: 640px)"
          [Declaration "--brand-accent" "#ff0000"; Declaration "--gap" "4px"]]] in
  @updateTailwindCssVariable (Sample.postcss [tree]) Sample.engine
    8 (Sample.print_root tree) "brand" "primary" "" None ∅
  = (∅, Fulfilled
          (Sample.print_root
             [Rule ":root"
                [Declaration "--white" "#ffffff";
                 Block "@media (min-width: 640px)" [Declaration "--gap" "4px"];
                 Declaration "--primary" "#111111";
                 Declaration "--primary-accent" "#ff0000"]])).
Proof.
  intros tree.
  apply (@rename_moves_declarations (Sample.postcss [tree]) Sample.engine
           8 (Sample.print_root tree) "brand" "primary" "" None tree ∅
           sample_engine_tests);
    try reflexivity; try discriminate. simpl. lia.
Defined.

(* ================================================================= *)
(** ** A rename that never ends *)

(** A walk whose callback answers every declaration and appends, for a
    child that passes [hot], one that passes [hot] again, does not end
    while such a child is to visit. *)
Lemma walkDecls_never_finishes (callback : string -> string -> Completion Edit)
    (hot : Child -> bool) :
  (forall child, exists r, walk_block callback child = Normal r) ->
  (forall child kept appended,
     hot child = true ->
     walk_block callback child = Normal (kept, appended) ->
     existsb hot appended = true) ->
  forall (fuel : nat) (visited pending : list Child),
    existsb hot pending = true ->
    walkDecls fuel callback visited pending = Unfinished.
Proof.
  intros Htotal Hhot.
  induction fuel as [|fuel IH]; intros visited pending Hpending.
  - destruct pending; [discriminate | reflexivity].
  - destruct pending as [|child rest]; [discriminate|].
    cbn [existsb] in Hpending. cbn [walkDecls].
    destruct (Htotal child) as ([kept appended] & Hcall). rewrite Hcall.
    apply IH. rewrite existsb_app. apply orb_true_iff in Hpending as [Hhere|Hrest].
    + rewrite (Hhot _ _ _ Hhere Hcall). apply orb_true_r.
    + rewrite Hrest. reflexivity.
Qed.

Lemma walkDecls_not_rejected (callback : string -> string -> Completion Edit) :
  (forall child, exists r, walk_block callback child = Normal r) ->
  forall (fuel : nat) (visited pending : list Child) (thrown : Thrown),
    walkDecls fuel callback visited pending <> Rejected thrown.
Proof.
  intros Htotal. induction fuel as [|fuel IH]; intros visited pending thrown.
  - destruct pending; discriminate.
  - destruct pending as [|child rest]; [discriminate|].
    cbn [walkDecls]. destruct (Htotal child) as ([kept appended] & ->). apply IH.
Qed.

Lemma walkRules_stuck (accepts : string -> bool)
    (callback : string -> list Child -> Settled (list Child))
    (stuck : list Child -> bool) (n : Node) :
  (forall selector nodes thrown, callback selector nodes <> Rejected thrown) ->
  (forall selector nodes, accepts selector = true -> stuck nodes = true ->
     callback selector nodes = Unfinished) ->
  (forall thrown, walkRules accepts callback n <> Rejected thrown)
  /\ (existsb stuck (rules_of accepts n) = true ->
      walkRules accepts callback n = Unfinished).
Proof.
  intros Hnever Hstuck.
  induction n as [selector nodes|name params nodes IH|text] using Node_nested_ind.
  - cbn [walkRules rules_of]. destruct (accepts selector) eqn:Ha.
    + split.
      * intros thrown. specialize (Hnever selector nodes).
        destruct (callback selector nodes); cbn [bindS]; [discriminate| |discriminate].
        intros Heq. injection Heq as ->. eapply Hnever. reflexivity.
      * cbn [existsb]. rewrite orb_false_r. intros Hs.
        rewrite (Hstuck _ _ Ha Hs). reflexivity.
    + split; [discriminate | discriminate].
  - rewrite rules_of_AtRule. cbn [walkRules].
    match goal with
    | |- (forall thrown, bindS ?run _ <> _) /\ _ =>
        assert (Hrun : (forall thrown, run <> Rejected thrown)
                       /\ (existsb stuck (flat_map (rules_of accepts) nodes) = true ->
                           run = Unfinished))
    end.
    { induction IH as [|c l [Hc Hc'] _ [IHl IHl']]; [split; discriminate|].
      cbn [flat_map]. rewrite existsb_app. split.
      - intros thrown. specialize (Hc thrown).
        destruct (walkRules accepts callback c) as [c'| |]; cbn [bindS];
          [|congruence|discriminate].
        specialize (IHl thrown).
        match goal with
        | |- bindS ?rest _ <> _ => destruct rest; cbn [bindS]; congruence
        end.
      - intros Hs.
        destruct (walkRules accepts callback c) as [c'|thrown|] eqn:Hwalk; cbn [bindS].
        + destruct (existsb stuck (rules_of accepts c)) eqn:Hhere.
          * specialize (Hc' eq_refl). discriminate.
          * cbn [orb] in Hs. rewrite (IHl' Hs). reflexivity.
        + exfalso. exact (Hc thrown eq_refl).
        + reflexivity. }
    destruct Hrun as [Hrun Hrun']. split.
    + intros thrown. specialize (Hrun thrown).
      match goal with
      | |- bindS ?run _ <> _ => destruct run; cbn [bindS]; congruence
      end.
    + intros Hs. rewrite (Hrun' Hs). reflexivity.
  - split; [discriminate | discriminate].
Qed.

Lemma walkRules_root_stuck (accepts : string -> bool)
    (callback : string -> list Child -> Settled (list Child))
    (stuck : list Child -> bool) (tree : Root) :
  (forall selector nodes thrown, callback selector nodes <> Rejected thrown) ->
  (forall selector nodes, accepts selector = true -> stuck nodes = true ->
     callback selector nodes = Unfinished) ->
  existsb stuck (rules_of_root accepts tree) = true ->
  walkRules_root accepts callback tree = Unfinished.
Proof.
  intros Hnever Hstuck. unfold rules_of_root.
  assert (Hboth : (forall thrown, walkRules_root accepts callback tree <> Rejected thrown)
                  /\ (existsb stuck (flat_map (rules_of accepts) tree) = true ->
                      walkRules_root accepts callback tree = Unfinished));
    [|apply Hboth].
  induction tree as [|n tree [IH IH']]; [split; discriminate|].
  destruct (walkRules_stuck accepts callback stuck n Hnever Hstuck) as [Hn Hn'].
  cbn [flat_map walkRules_root]. rewrite existsb_app. split.
  - intros thrown. specialize (Hn thrown).
    destruct (walkRules accepts callback n); cbn [bindS]; [|congruence|discriminate].
    specialize (IH thrown).
    destruct (walkRules_root accepts callback tree); cbn [bindS]; congruence.
  - intros Hs.
    destruct (walkRules accepts callback n) as [n'|thrown|] eqn:Hwalk; cbn [bindS].
    + destruct (existsb stuck (rules_of accepts n)) eqn:Hhere.
      * specialize (Hn' eq_refl). discriminate.
      * cbn [orb] in Hs. rewrite (IH' Hs). reflexivity.
    + exfalso. exact (Hn thrown eq_refl).
    + reflexivity.
Qed.

Section Extension.

Context `{PostCss} `{RegExpEngine}.

(** What a rename to a name that extends the old one appends is a derived
    variable again: the walk over a rule that declares one does not end. *)
Lemma extension_never_ends (cssContent name suffix newColor : string)
    (theme : option Theme) (tree : Root) (fs : FileSystem) :
  engine_plain_test ->
  postcss_parse cssContent = Normal tree ->
  plain name = true ->
  opens_plainly name = true ->
  Js.has_char "$" suffix = false ->
  existsb (existsb (addressed name)) (rules_of_root is_scope tree) = true ->
  forall fuel : nat,
    updateTailwindCssVariable fuel cssContent name (name +:+ "-" +:+ suffix) newColor
      theme fs
    = (fs, Unfinished).
Proof.
  intros engine_tests Hp Hplain Hopens Hsuffix Hhot fuel.
  assert (Hdollar : Js.has_char "$" (name +:+ "-" +:+ suffix) = false).
  { apply plain_no_dollar in Hplain. clear -Hplain Hsuffix.
    induction name as [|c name IH]; [exact Hsuffix|].
    rewrite append_String. simpl in *. apply orb_false_iff in Hplain as [-> Hname].
    apply IH, Hname. }
  assert (Hnew : name +:+ "-" +:+ suffix <> EmptyString).
  { destruct name; discriminate. }
  assert (Hdiff : name +:+ "-" +:+ suffix <> name).
  { intros Heq. apply (f_equal String.length) in Heq.
    rewrite append_length in Heq. simpl in Heq. lia. }
  assert (Hanswer : forall selector prop value,
            update_declaration selector name (name +:+ "-" +:+ suffix) newColor theme
              prop value
            = Normal (rename_answer name (name +:+ "-" +:+ suffix) newColor theme
                        selector prop value))
    by (intros; apply update_declaration_renames; assumption).
  unfold updateTailwindCssVariable, processCss, bind, lift.
  rewrite Hp. unfold ret at 1.
  change (fun selector : string => String.eqb selector ":root" || String.eqb selector ".dark")
    with is_scope.
  rewrite (walkRules_root_stuck is_scope _ (existsb (addressed name)));
    [reflexivity| | |exact Hhot].
  - intros selector nodes thrown. apply walkDecls_not_rejected.
    intros child. eexists. apply (walk_block_answers _ _ _ (Hanswer selector)).
  - intros selector nodes _ Hnodes.
    apply (walkDecls_never_finishes _ (addressed name)); [| |exact Hnodes].
    + intros child. eexists. apply (walk_block_answers _ _ _ (Hanswer selector)).
    + intros [prop value|header l|text] kept appended Haddressed Hcall;
        [|discriminate Haddressed|discriminate Haddressed].
      rewrite (walk_block_answers _ _ _ (Hanswer selector)) in Hcall.
      injection Hcall as _ <-. cbn [appends rename_answer snd].
      cbn [addressed] in Haddressed. cbn [moved].
      destruct (String.eqb prop ("--" +:+ name)).
      * cbn [existsb addressed]. rewrite orb_false_r. apply orb_true_iff. right.
        change ("--" +:+ name +:+ "-" +:+ suffix) with ("--" +:+ (name +:+ "-" +:+ suffix)).
        rewrite prefix_hyphenated, <- append_assoc. apply prefix_app.
      * cbn [orb] in Haddressed. rewrite Haddressed.
        cbn [existsb addressed]. rewrite orb_false_r. apply orb_true_iff. right.
        change ("--" +:+ (name +:+ "-" +:+ suffix) +:+
                Js.drop (2 + String.length name) prop)
          with ("--" +:+ ((name +:+ "-" +:+ suffix) +:+
                          Js.drop (2 + String.length name) prop)).
        rewrite prefix_hyphenated, <- (append_assoc name), append_assoc.
        apply prefix_app.
Qed.

(** X16. A rename of the variable [name] to [name-suffix], a name that
    extends it after a hyphen, does not end when a [:root] or [.dark]
    rule declares [--name] or a variable derived from it: what the walk
    appends is a derived variable again, so the update of the stylesheet
    is unfinished whatever the number of steps allowed. *)
Theorem rename_to_extension_never_ends (cssContent name suffix newColor : string)
    (theme : option Theme) (tree : Root) (fs : FileSystem) :
  engine_plain_test ->
  postcss_parse cssContent = Normal tree ->
  plain name = true ->
  opens_plainly name = true ->
  Js.has_char "$" suffix = false ->
  existsb (existsb (addressed name)) (rules_of_root is_scope tree) = true ->
  forall fuel : nat,
    updateTailwindCssVariable fuel cssContent name (name +:+ "-" +:+ suffix) newColor
      theme fs
    = (fs, Unfinished).
Proof. apply extension_never_ends. Qed.

End Extension.

Lemma rename_to_extension_never_ends_witness :
  @updateTailwindCssVariable (Sample.postcss [Sample.stylesheet]) Sample.engine
    1000 (Sample.print_root Sample.stylesheet) "brand-accent" "brand-accent-2" "" None ∅
  = (∅, Unfinished).
Proof.
  apply (@rename_to_extension_never_ends (Sample.postcss [Sample.stylesheet])
           Sample.engine (Sample.print_root Sample.stylesheet) "brand-accent" "2" "" None
           Sample.stylesheet ∅ sample_engine_tests);
    reflexivity.
Defined.

(* ================================================================= *)
(** ** The rename, through the entry point *)

Lemma flat_map_nil {A B : Type} (f : A -> list B) (l : list A) :
  flat_map f l = [] -> Forall (fun a => f a = []) l.
Proof.
  induction l as [|a l IH]; cbn [flat_map]; intros Hl; [constructor|].
  apply app_eq_nil in Hl as [Ha Hl]. constructor; [exact Ha | apply IH, Hl].
Qed.

Section Entry.

Context `{Babel} `{Jsx} `{PostCss} `{RegExpEngine} `{Helpers}.

(** A colours object without a group keyed [parentKey] is left as it is,
    and so are the flags. *)
Lemma update_color_props_missing (parentKey : string) (keyName : option string)
    (newName newCssVarName : string) (colorObj : list ObjectMember) (flags : Flags) :
  groups_keyed parentKey colorObj = [] ->
  update_color_props parentKey keyName newName newCssVarName colorObj flags
  = Normal (colorObj, flags).
Proof.
  intros Hnone. unfold update_color_props.
  rewrite (mapS_pure _ (fun m => m)); [rewrite map_id; reflexivity|].
  apply flat_map_nil in Hnone. eapply Forall_impl; [exact Hnone|].
  intros [[name|source] value|kind children] Hm s; simpl; auto.
  destruct value as [v|members|kind children]; auto.
  destruct (String.eqb name parentKey); [discriminate | reflexivity].
Qed.

Lemma updateTailwindConfigFile_missing (configContent parentKey : string)
    (keyName : option string) (newName newCssVarName : string) (ast : File) :
  parse ["typescript"; "jsx"] configContent = Normal ast ->
  Forall (fun colorObj => groups_keyed parentKey colorObj = []) (colors_objects [] ast) ->
  updateTailwindConfigFile configContent parentKey keyName newName newCssVarName
  = Normal {| keyUpdated := false;
              valueUpdated := false;
              output := generate ast configContent |}.
Proof.
  intros Hparse Hnone. unfold updateTailwindConfigFile. rewrite Hparse. cbn [bindC].
  destruct (proj1 (traverse_keeps (fun s s' : Flags => s' = s) ltac:(reflexivity)
                     ltac:(congruence)
                     (update_color_props parentKey keyName newName newCssVarName))
              ast [])
    with (s := (false, false)) as (s' & -> & ->).
  - eapply Forall_impl; [exact Hnone|]. intros colorObj Hobj s. eexists.
    split; [|reflexivity]. apply update_color_props_missing, Hobj.
  - reflexivity.
Qed.

(** X17. A rename or recolour of a colour whose group no colours object
    of the configuration holds: once the stylesheet step has finished,
    the stylesheet is written, the configuration file is not, no class
    reference is looked for, and the result is still
    [{success: true}]. *)
Theorem update_without_group (fuel : nat) (projectRoot originalName newColor newName : string)
    (theme : option Theme) (parentName : option string) (fs fs1 : FileSystem)
    (update : ColorUpdate) (ast : File) (css' : string) :
  initializeTailwindColorContent projectRoot fs = (fs1, Fulfilled (Some update)) ->
  fst (split_name originalName) <> EmptyString ->
  let parentKey := fst (split_name originalName) in
  let names :=
    renamed_variable parentKey (snd (split_name originalName)) originalName newName in
  updateTailwindCssVariable fuel (cssContent update) (snd names) (fst names) newColor
    theme fs1 = (fs1, Fulfilled css') ->
  parse ["typescript"; "jsx"] (configContent update) = Normal ast ->
  Forall (fun colorObj => groups_keyed parentKey colorObj = []) (colors_objects [] ast) ->
  updateTailwindColorConfig fuel projectRoot originalName newColor newName theme
    parentName fs
  = (<[cssPath update := css']> fs1, Fulfilled {| success := true; error := None |}).
Proof.
  intros Hinit Hparent parentKey names Hcss Hconfig Hnone.
  assert (Horiginal : Js.truthy originalName = true).
  { destruct originalName; [|reflexivity]. exfalso. apply Hparent. reflexivity. }
  assert (Hparent' : Js.truthy parentKey = true).
  { subst parentKey. destruct (fst (split_name originalName));
      [contradiction | reflexivity]. }
  unfold updateTailwindColorConfig, try_catch, bind at 1 2. rewrite Hinit, Horiginal.
  unfold promise, updateTailwindColorVariable.
  fold parentKey. rewrite Hparent'. cbn [negb]. fold names.
  unfold bind at 1. rewrite Hcss.
  unfold bind at 1. unfold writeFileSync at 1.
  unfold bind at 1.
  rewrite (updateTailwindConfigFile_missing _ _ _ _ _ ast Hconfig Hnone).
  reflexivity.
Qed.

(** X18. Through the entry point: renaming the colour [k] of the group
    [p] to [k-suffix] never ends when a [:root] or [.dark] rule of the
    stylesheet declares [--p-k] or a variable derived from it. The new
    property name [p-k-suffix] extends the old one after a hyphen, and
    the promise of the update is not settled whatever the number of
    steps allowed; no file is written. *)
Theorem rename_to_extension_hangs (projectRoot p k suffix newColor : string)
    (theme : option Theme) (parentName : option string) (fs fs1 : FileSystem)
    (update : ColorUpdate) (tree : Root) :
  engine_plain_test ->
  initializeTailwindColorContent projectRoot fs = (fs1, Fulfilled (Some update)) ->
  postcss_parse (cssContent update) = Normal tree ->
  plain p = true -> plain k = true ->
  opens_plainly p = true ->
  Js.has_char "-" p = false -> Js.has_char "-" k = false ->
  k <> EmptyString -> k <> "DEFAULT" ->
  Js.has_char "$" suffix = false ->
  existsb (existsb (addressed (p +:+ "-" +:+ k))) (rules_of_root is_scope tree) = true ->
  forall fuel : nat,
    updateTailwindColorConfig fuel projectRoot (p +:+ "-" +:+ k) newColor
      (k +:+ "-" +:+ suffix) theme parentName fs
    = (fs1, Unfinished).
Proof.
  intros engine_tests Hinit Hcss Hp Hk Hopens Hp_hyphen Hk_hyphen Hk_some Hk_default
    Hsuffix Hhot fuel.
  assert (Hsplit : split_name (p +:+ "-" +:+ k) = (p, Some k)).
  { unfold split_name. change (p +:+ "-" +:+ k) with (p +:+ String "-" k).
    rewrite (split_app _ _ _ Hp_hyphen), (split_without _ _ Hk_hyphen). reflexivity. }
  assert (Hnames : renamed_variable p (Some k) (p +:+ "-" +:+ k) (k +:+ "-" +:+ suffix)
                   = ((p +:+ "-" +:+ k) +:+ "-" +:+ suffix, p +:+ "-" +:+ k)).
  { unfold renamed_variable. destruct k as [|c k]; [contradiction|].
    cbn [Js.truthy_opt Js.truthy negb Js.to_string].
    destruct (String.eqb_spec (String c k) "DEFAULT"); [contradiction|].
    destruct (String.eqb_spec (String c k +:+ "-" +:+ suffix) (String c k)) as [Heq|_].
    - apply (f_equal String.length) in Heq. rewrite append_length in Heq.
      simpl in Heq. lia.
    - cbn [negb]. rewrite !append_assoc. reflexivity. }
  assert (Horiginal : Js.truthy (p +:+ "-" +:+ k) = true).
  { destruct p; [discriminate Hopens | reflexivity]. }
  assert (Hparent : Js.truthy p = true) by (destruct p; [discriminate Hopens | reflexivity]).
  unfold updateTailwindColorConfig, try_catch, bind at 1 2. rewrite Hinit, Horiginal.
  unfold promise, updateTailwindColorVariable.
  rewrite Hsplit. cbn [fst snd]. rewrite Hparent. cbn [negb]. rewrite Hnames.
  cbn [fst snd]. unfold bind at 1.
  rewrite (extension_never_ends _ _ _ _ _ tree _ engine_tests Hcss);
    [reflexivity| | | |exact Hhot].
  - change (p +:+ "-" +:+ k) with (p +:+ ("-" +:+ k)). rewrite !plain_app, Hp, Hk.
    reflexivity.
  - destruct p; [discriminate Hopens | exact Hopens].
  - exact Hsuffix.
Qed.

End Entry.

Lemma update_without_group_witness :
  let colors := [Sample.group "brand" [Sample.leaf "accent" "var(--brand-accent)"]] in
  let babel := Sample.babel [Sample.config_with colors] in
  let postcss := Sample.postcss [Sample.stylesheet] in
  let fs := Sample.project (Sample.print_expression (Sample.config_with colors))
              (Sample.print_root Sample.stylesheet) in
  @updateTailwindColorConfig babel Sample.jsx postcss Sample.engine Sample.helpers
    4 "/project" "mono-ink" "#3366ff" "paper" None None fs
  = (<[Sample.css_file "/project" := Sample.print_root Sample.stylesheet]> fs,
     Fulfilled {| success := true; error := None |}).
Proof.
  intros colors babel postcss fs.
  apply (@update_without_group babel Sample.jsx postcss Sample.engine Sample.helpers
           4 "/project" "mono-ink" "#3366ff" "paper" None None fs fs
           {| configPath := Sample.config_file "/project";
              cssPath := Sample.css_file "/project";
              configContent := Sample.print_expression (Sample.config_with colors);
              cssContent := Sample.print_root Sample.stylesheet |}
           (Sample.config_with colors) (Sample.print_root Sample.stylesheet));
    try reflexivity; try discriminate.
  repeat constructor.
Defined.

Lemma rename_to_extension_hangs_witness :
  let colors := [Sample.group "brand" [Sample.leaf "accent" "var(--brand-accent)"]] in
  let babel := Sample.babel [Sample.config_with colors] in
  let postcss := Sample.postcss [Sample.stylesheet] in
  let fs := Sample.project (Sample.print_expression (Sample.config_with colors))
              (Sample.print_root Sample.stylesheet) in
  @updateTailwindColorConfig babel Sample.jsx postcss Sample.engine Sample.helpers
    1000 "/project" "brand-accent" "" "accent-2" None None fs
  = (fs, Unfinished).
Proof.
  intros colors babel postcss fs.
  apply (@rename_to_extension_hangs babel Sample.jsx postcss Sample.engine Sample.helpers
           "/project" "brand" "accent" "2" "" None None fs fs
           {| configPath := Sample.config_file "/project";
              cssPath := Sample.css_file "/project";
              configContent := Sample.print_expression (Sample.config_with colors);
              cssContent := Sample.print_root Sample.stylesheet |}
           Sample.stylesheet sample_engine_tests);
    try reflexivity; discriminate.
Defined.

(* ================================================================= *)
(** ** A created variable, read back *)

Section ReadBack.

Context `{PostCss} `{Helpers}.

Lemma record_declaration_plain (scope : gmap string string) (name value : string) :
  parseHslValue value = Normal None ->
  record_declaration scope (Declaration ("--" +:+ name) value) = assign scope name value.
Proof.
  intros Hhsl. cbn [record_declaration].
  change (Js.startsWith ("--" +:+ name) "--") with (String.prefix "--" ("--" +:+ name)).
  rewrite (prefix_app "--" name). rewrite Hhsl. reflexivity.
Qed.

(** After a declaration of [--name] is appended to every rule of a
    selector, the variables recorded for the selector give [name] its
    value, provided there is such a rule; the name [__proto__] has no
    value whatever the stylesheet declares. *)
Lemma record_rules_appended (selector name value : string) (tree tree' : Root) :
  name <> "__proto__" ->
  parseHslValue value = Normal None ->
  rules_of_root (String.eqb selector) tree'
  = map (fun nodes => nodes ++ [Declaration ("--" +:+ name) value])
      (rules_of_root (String.eqb selector) tree) ->
  rules_of_root (String.eqb selector) tree <> [] ->
  record_rules selector tree' !! name = Some value.
Proof.
  intros Hname Hhsl Hrules Hsome. unfold record_rules. rewrite Hrules.
  destruct (exists_last Hsome) as (rules & nodes & ->).
  rewrite map_app, fold_left_app. cbn [map fold_left].
  rewrite fold_left_app. cbn [fold_left].
  rewrite (record_declaration_plain _ _ _ Hhsl). unfold assign.
  destruct (String.eqb_spec name "__proto__"); [contradiction|]. apply lookup_insert_eq.
Qed.

Lemma assign_proto (scope : gmap string string) (varName text : string) :
  scope !! "__proto__" = None -> assign scope varName text !! "__proto__" = None.
Proof.
  intros Hscope. unfold assign. destruct (String.eqb_spec varName "__proto__") as [|Hne];
    [exact Hscope|].
  rewrite lookup_insert_ne; [exact Hscope | exact Hne].
Qed.

Lemma record_declaration_proto (child : Child) :
  forall scope : gmap string string,
    scope !! "__proto__" = None -> record_declaration scope child !! "__proto__" = None.
Proof.
  induction child as [prop value|header nodes IH|text] using Child_nested_ind;
    intros scope Hscope.
  - cbn [record_declaration]. destruct (Js.startsWith prop "--"); [|exact Hscope].
    match goal with
    | |- match ?c with _ => _ end !! _ = _ => destruct c as [[hex|]|]
    end; apply assign_proto, Hscope.
  - cbn [record_declaration]. revert scope Hscope.
    induction IH as [|c l Hc _ IHl]; intros scope Hscope; [exact Hscope|].
    apply IHl, Hc, Hscope.
  - exact Hscope.
Qed.

Lemma record_rules_proto (selector : string) (tree : Root) :
  record_rules selector tree !! "__proto__" = None.
Proof.
  unfold record_rules.
  assert (Hfold : forall (rules : list (list Child)) (scope : gmap string string),
            scope !! "__proto__" = None ->
            fold_left (fun scope nodes => fold_left record_declaration nodes scope)
              rules scope !! "__proto__" = None).
  { induction rules as [|nodes rules IH]; intros scope Hscope; [exact Hscope|].
    cbn [fold_left]. apply IH. revert scope Hscope.
    induction nodes as [|c l IHl]; intros scope Hscope; [exact Hscope|].
    cbn [fold_left]. apply IHl, record_declaration_proto, Hscope. }
  apply Hfold. apply lookup_empty.
Qed.

(** X19. A variable added by addTailwindCssVariable is read back by
    extractTailwindCssVariables, in a stylesheet in which no [:root] or
    [.dark] rule is nested in a rule: when the stylesheet has a [:root]
    rule (a [.dark] rule), the [root] (the [dark]) variables extracted
    from the text written give [name] the value [v], for a name other
    than [__proto__], a value that is not in HSL form and a text that
    PostCSS parses back to the tree it was printed from. A stylesheet
    without a [:root] rule gets no declaration: its [root] variables stay
    empty. The name [__proto__] is never read back. *)
Theorem added_variable_is_extracted (cssContent name value : string) (tree : Root)
    (fs : FileSystem) :
  postcss_parse cssContent = Normal tree ->
  forallb scopes_on_top tree = true ->
  parseHslValue value = Normal None ->
  let declaration := Declaration ("--" +:+ name) value in
  let tree' :=
    map (append_to_rules (String.eqb ".dark") declaration)
      (map (append_to_rules (String.eqb ":root") declaration) tree) in
  postcss_parse (postcss_stringify tree') = Normal tree' ->
  exists css' variables,
    addTailwindCssVariable cssContent name value fs = (fs, Fulfilled css')
    /\ extractTailwindCssVariables css' = Normal variables
    /\ (name <> "__proto__" -> rules_of_root (String.eqb ":root") tree <> [] ->
        root variables !! name = Some value)
    /\ (name <> "__proto__" -> rules_of_root (String.eqb ".dark") tree <> [] ->
        dark variables !! name = Some value)
    /\ (rules_of_root (String.eqb ":root") tree = [] -> root variables = ∅)
    /\ root variables !! "__proto__" = None
    /\ dark variables !! "__proto__" = None.
Proof.
  intros Hparse _ Hhsl declaration tree' Hback.
  eexists _, _. split; [apply addTailwindCssVariable_runs, Hparse|].
  fold declaration tree'. unfold extractTailwindCssVariables. rewrite Hback.
  cbn [bindC]. split; [reflexivity|]. cbn [root dark].
  assert (Hroot : rules_of_root (String.eqb ":root") tree'
                  = map (fun nodes => nodes ++ [declaration])
                      (rules_of_root (String.eqb ":root") tree)).
  { unfold tree'.
    rewrite (rules_of_root_append_apart (String.eqb ".dark") (String.eqb ":root")).
    - apply rules_of_root_append. auto.
    - intros selector Hs. apply String.eqb_eq in Hs as <-. reflexivity. }
  assert (Hdark : rules_of_root (String.eqb ".dark") tree'
                  = map (fun nodes => nodes ++ [declaration])
                      (rules_of_root (String.eqb ".dark") tree)).
  { unfold tree'.
    rewrite (rules_of_root_append (String.eqb ".dark") (String.eqb ".dark")); [|auto].
    rewrite (rules_of_root_append_apart (String.eqb ":root") (String.eqb ".dark"));
      [reflexivity|].
    intros selector Hs. apply String.eqb_eq in Hs as <-. reflexivity. }
  split; [|split; [|split; [|split]]].
  - intros Hname Hsome. exact (record_rules_appended _ _ _ _ _ Hname Hhsl Hroot Hsome).
  - intros Hname Hsome. exact (record_rules_appended _ _ _ _ _ Hname Hhsl Hdark Hsome).
  - intros Hnone. unfold record_rules. rewrite Hroot, Hnone. reflexivity.
  - apply record_rules_proto.
  - apply record_rules_proto.
Qed.

End ReadBack.

Lemma added_variable_is_extracted_witness :
  let postcss :=
    Sample.postcss
      [Sample.stylesheet;
       [Rule ":root" [Declaration "--brand-accent" "#ff0000"; Declaration "--sky" "#3366ff"];
        Rule ".dark" [Declaration "--brand-accent" "#00ff00"; Declaration "--sky" "#3366ff"]]] in
  exists css' variables,
    @addTailwindCssVariable postcss (Sample.print_root Sample.stylesheet) "sky" "#3366ff" ∅
    = (∅, Fulfilled css')
    /\ @extractTailwindCssVariables postcss Sample.helpers css' = Normal variables
    /\ root variables !! "sky" = Some "#3366ff"
    /\ dark variables !! "sky" = Some "#3366ff".
Proof.
  intros postcss.
  destruct (@added_variable_is_extracted postcss Sample.helpers
              (Sample.print_root Sample.stylesheet) "sky" "#3366ff" Sample.stylesheet ∅)
    as (css' & variables & Hrun & Hread & Hroot & Hdark & _);
    [reflexivity | reflexivity | reflexivity | reflexivity |].
  exists css', variables. repeat split; [exact Hrun | exact Hread | |].
  - apply Hroot; discriminate.
  - apply Hdark; discriminate.
Defined.

(* ================================================================= *)
(** ** Class references in a source file *)

(** X20. A class token that is the old class itself is replaced by the
    new class, for a new class without a dollar sign. *)
Theorem replace_class_exact (r : ClassReplacement) (rest : list ClassReplacement) :
  Js.has_char "$" (newClass r) = false ->
  replace_class (r :: rest) (oldClass r) = Some (newClass r).
Proof.
  intros Hdollar. cbn [replace_class]. rewrite String.eqb_refl. cbn [orb].
  unfold Js.replace. rewrite find_first_here by apply prefix_refl.
  rewrite GetSubstitution_literal by exact Hdollar.
  assert (Hdrop : forall s, Js.drop (String.length s) s = EmptyString)
    by (induction s; [reflexivity | assumption]).
  assert (Hempty : forall s, s +:+ EmptyString = s).
  { induction s as [|c s IH]; [reflexivity|]. rewrite append_String, IH. reflexivity. }
  rewrite Hdrop. change (Some (newClass r +:+ EmptyString) = Some (newClass r)).
  rewrite Hempty. reflexivity.
Qed.

Lemma replace_class_exact_witness :
  replace_class [{| oldClass := "brand-accent"; newClass := "brand-sky" |}] "brand-accent"
  = Some "brand-sky".
Proof.
  apply (replace_class_exact {| oldClass := "brand-accent"; newClass := "brand-sky" |} []).
  reflexivity.
Defined.

Section SourceFiles.

Context `{Jsx} `{Helpers}.

Lemma visit_element_unaffected (replacements : list ClassReplacement)
    (element : JSXElement) (updates : gmap string CodeDiffRequest) :
  unaffected replacements element ->
  visit_element replacements element updates = updates.
Proof.
  unfold unaffected, visit_element. destruct (getNodeClasses element); [|reflexivity].
  intros [->| Hoid]; [reflexivity|].
  destruct (hasChanges replacements value); [|reflexivity].
  destruct (getOidFromJsxElement element) as [id|]; [|reflexivity].
  cbn [Js.truthy_opt] in Hoid. rewrite Hoid. reflexivity.
Qed.

(** X21. A source file in which every element is unaffected (no class
    token to replace, classes that are not parsed, or no identifier on
    the element) is read and parsed but not written: the file system
    after the read is the result. *)
Theorem update_source_file_untouched (replacements : list ClassReplacement)
    (file content : string) (fs fs1 : FileSystem) (ast : SourceFile) :
  readFile file fs = (fs1, Fulfilled (Some content)) ->
  parseSource content = Normal ast ->
  Forall (unaffected replacements) (jsxElements ast) ->
  update_source_file replacements file fs = (fs1, Fulfilled tt).
Proof.
  intros Hread Hparse Hall. unfold update_source_file, bind at 1. rewrite Hread.
  destruct (negb (Js.truthy content)); [reflexivity|].
  unfold bind, lift. rewrite Hparse. unfold ret at 1.
  assert (Hfold : forall updates,
            fold_left (fun updates element => visit_element replacements element updates)
              (jsxElements ast) updates = updates).
  { induction Hall as [|element l He _ IH]; intros updates; [reflexivity|].
    cbn [fold_left]. rewrite (visit_element_unaffected _ _ _ He). apply IH. }
  rewrite Hfold. destruct (decide (∅ = ∅)) as [_|Hne]; [reflexivity | contradiction].
Qed.

End SourceFiles.

Lemma update_source_file_untouched_witness :
  let page := "<div className='p-4 text-white' data-oid='a1' />" in
  let jsx := Sample.jsx_pages [(page, [(["p-4"; "text-white"], Some "a1")])] in
  let fs : FileSystem := {[ Sample.page_file := page ]} in
  @update_source_file jsx Sample.helpers
    [{| oldClass := "brand-accent"; newClass := "brand-sky" |}] Sample.page_file fs
  = (fs, Fulfilled tt).
Proof.
  intros page jsx fs.
  apply (@update_source_file_untouched jsx Sample.helpers
           [{| oldClass := "brand-accent"; newClass := "brand-sky" |}]
           Sample.page_file page fs fs [(["p-4"; "text-white"], Some "a1")]);
    [reflexivity | reflexivity |].
  constructor; [left; reflexivity | constructor].
Defined.

(* ================================================================= *)
(** ** The title of a version row *)

(** X22. The title of a version row is never empty: it is the display
    name of the commit when that is a non-empty text, else the commit
    message when that is one, else the text [Backup]. *)
Theorem row_title_never_empty (displayName message : option string) :
  Js.truthy_opt (row_title displayName message) = true
  /\ row_title displayName message
     = if Js.truthy_opt displayName then displayName
       else if Js.truthy_opt message then message
       else Some "Backup".
Proof.
  unfold row_title, or_else.
  destruct (Js.truthy_opt displayName) eqn:Hd.
  - rewrite Hd. split; [exact Hd | reflexivity].
  - destruct (Js.truthy_opt message) eqn:Hm; split; try reflexivity; exact Hm.
Qed.

(* ================================================================= *)
(** ** The rename of a key in the configuration *)

Lemma mapS_folds {A B S : Type} (step : A -> S -> Completion (B * S)) (g : A -> B)
    (h : A -> S -> S) (l : list A) :
  Forall (fun a => forall s, step a s = Normal (g a, h a s)) l ->
  forall s, mapS step l s = Normal (map g l, fold_left (fun s a => h a s) l s).
Proof.
  induction 1 as [|a l Ha _ IH]; intros s; simpl; [reflexivity|].
  rewrite Ha. simpl. rewrite IH. reflexivity.
Qed.

Lemma fold_left_flat_map {A B S : Type} (h : B -> S -> S) (f : A -> list B) (l : list A) :
  forall s,
    fold_left (fun s b => h b s) (flat_map f l) s
    = fold_left (fun s a => fold_left (fun s b => h b s) (f a) s) l s.
Proof.
  induction l as [|a l IH]; intros s; [reflexivity|].
  cbn [flat_map fold_left]. rewrite fold_left_app. apply IH.
Qed.

Lemma fold_left_flags {A : Type} (u v : A -> bool) (l : list A) :
  forall flags : Flags,
    fold_left (fun (s : Flags) a => (fst s || u a, snd s || v a)) l flags
    = (fst flags || existsb u l, snd flags || existsb v l).
Proof.
  induction l as [|a l IH]; intros [ku vu]; cbn [fold_left existsb fst snd].
  - rewrite !orb_false_r. reflexivity.
  - rewrite IH. cbn [fst snd]. rewrite !orb_assoc. reflexivity.
Qed.

Section TraversalState.

Context `{Helpers} {S : Type}.

(** A visitor that rewrites colours objects by [f] and passes its
    captured variables through [h]: the tree as
    [rewrite_colors_objects] describes it, and the variables passed
    through the colours objects in traversal order. *)
Lemma traverse_folds
    (body : list ObjectMember -> S -> Completion (list ObjectMember * S))
    (f : list ObjectMember -> list ObjectMember) (h : list ObjectMember -> S -> S) :
  (forall colorObj s, body colorObj s = Normal (f colorObj, h colorObj s)) ->
  (forall e trail (s : S),
     traverse (on_colors_object body) trail e s
     = Normal (rewrite_colors_objects f trail e,
               fold_left (fun s colorObj => h colorObj s) (colors_objects trail e) s))
  /\ (forall m trail (s : S),
        traverse_member (on_colors_object body) trail m s
        = Normal (rewrite_colors_member f trail m,
                  fold_left (fun s colorObj => h colorObj s)
                    (colors_objects_member trail m) s)).
Proof.
  intros Hbody. apply Expression_members_ind.
  - reflexivity.
  - intros properties IH trail s. cbn [traverse rewrite_colors_objects colors_objects].
    rewrite (mapS_folds _ (rewrite_colors_member f trail)
               (fun m s => fold_left (fun s colorObj => h colorObj s)
                             (colors_objects_member trail m) s)).
    + cbn [bindC fst snd]. rewrite fold_left_flat_map. reflexivity.
    + eapply Forall_impl; [exact IH|]. intros m Hm s'. apply Hm.
  - intros kind children IH trail s. cbn [traverse rewrite_colors_objects colors_objects].
    rewrite (mapS_folds _ (rewrite_colors_objects f trail)
               (fun c s => fold_left (fun s colorObj => h colorObj s)
                             (colors_objects trail c) s)).
    + cbn [bindC fst snd]. rewrite fold_left_flat_map. reflexivity.
    + eapply Forall_impl; [exact IH|]. intros c Hc s'. apply Hc.
  - intros key value IH trail s.
    cbn [traverse_member rewrite_colors_member colors_objects_member].
    unfold on_colors_object at 1. cbn [node]. destruct (isColorsObjectProperty _).
    + destruct value as [v|properties|kind children];
        cbn [bindC fst snd]; try rewrite IH; try rewrite Hbody; reflexivity.
    + cbn [bindC fst snd]. rewrite IH. reflexivity.
  - intros kind children IH trail s.
    cbn [traverse_member rewrite_colors_member colors_objects_member].
    rewrite (mapS_folds _ (rewrite_colors_objects f trail)
               (fun c s => fold_left (fun s colorObj => h colorObj s)
                             (colors_objects trail c) s)).
    + cbn [bindC fst snd]. rewrite fold_left_flat_map. reflexivity.
    + eapply Forall_impl; [exact IH|]. intros c Hc s'. apply Hc.
Qed.

End TraversalState.

Section ConfigRename.

Context `{Babel} `{Jsx} `{PostCss} `{RegExpEngine} `{Helpers}.

Lemma rename_child_pure (parentKey keyName newName newCssVarName : string)
    (nestedProp : ObjectMember) (flags : Flags) :
  newName <> keyName ->
  rename_child parentKey keyName newName newCssVarName nestedProp flags
  = (renamed_member parentKey keyName newName newCssVarName nestedProp,
     (fst flags || keyed keyName nestedProp,
      snd flags || string_leaf_keyed keyName nestedProp)).
Proof.
  intros Hdiff. unfold renamed_member, rename_child.
  destruct nestedProp as [[name|source] value|kind children];
    cbn [keyed string_leaf_keyed fst snd]; rewrite ?orb_false_r;
    try (destruct flags; reflexivity).
  destruct (String.eqb name keyName).
  - destruct (String.eqb_spec newName keyName) as [|_]; [contradiction|].
    cbn [negb]. destruct value; cbn [fst snd]; rewrite ?orb_true_r, ?orb_false_r;
      reflexivity.
  - destruct value; cbn [fst snd]; rewrite ?orb_false_r; destruct flags; reflexivity.
Qed.

Lemma rename_children_pure (parentKey keyName newName newCssVarName : string)
    (l : list ObjectMember) :
  newName <> keyName ->
  forall flags : Flags,
    rename_children parentKey keyName newName newCssVarName l flags
    = (map (renamed_member parentKey keyName newName newCssVarName) l,
       (fst flags || existsb (keyed keyName) l,
        snd flags || existsb (string_leaf_keyed keyName) l)).
Proof.
  intros Hdiff. induction l as [|m l IH]; intros flags.
  - cbn [rename_children map existsb]. rewrite !orb_false_r. destruct flags; reflexivity.
  - cbn [rename_children map existsb]. rewrite (rename_child_pure _ _ _ _ _ _ Hdiff).
    cbn [fst snd]. rewrite IH. cbn [fst snd]. rewrite !orb_assoc. reflexivity.
Qed.

Lemma group_holds_cons (parentKey : string) (test : ObjectMember -> bool)
    (m : ObjectMember) (l : list ObjectMember) :
  group_holds parentKey test (m :: l)
  = group_holds parentKey test [m] || group_holds parentKey test l.
Proof.
  unfold group_holds, groups_keyed. cbn [flat_map]. rewrite app_nil_r, existsb_app.
  reflexivity.
Qed.

Lemma update_color_prop_child (parentKey k newName newCssVarName : string)
    (colorProp : ObjectMember) (flags : Flags) :
  k <> EmptyString ->
  newName <> k ->
  update_color_prop parentKey (Some k) newName newCssVarName colorProp flags
  = Normal (renamed_group parentKey k newName newCssVarName colorProp,
            (fst flags || group_holds parentKey (keyed k) [colorProp],
             snd flags || group_holds parentKey (string_leaf_keyed k) [colorProp])).
Proof.
  intros Hk Hdiff. unfold update_color_prop, renamed_group, group_holds, groups_keyed.
  cbn [flat_map].
  destruct colorProp as [[name|source] value|kind children];
    cbn [app existsb]; rewrite ?orb_false_r; try (destruct flags; reflexivity).
  destruct value as [v|properties|kind children];
    cbn [app existsb]; rewrite ?orb_false_r; try (destruct flags; reflexivity).
  destruct (String.eqb name parentKey);
    cbn [app existsb]; rewrite ?orb_false_r; [|destruct flags; reflexivity].
  destruct k as [|c k]; [contradiction|].
  cbn [Js.truthy_opt Js.truthy negb Js.to_string].
  rewrite (rename_children_pure _ _ _ _ _ Hdiff). reflexivity.
Qed.

Lemma update_color_props_child (parentKey k newName newCssVarName : string)
    (colorObj : list ObjectMember) :
  k <> EmptyString ->
  newName <> k ->
  forall flags : Flags,
    update_color_props parentKey (Some k) newName newCssVarName colorObj flags
    = Normal (map (renamed_group parentKey k newName newCssVarName) colorObj,
              (fst flags || group_holds parentKey (keyed k) colorObj,
               snd flags || group_holds parentKey (string_leaf_keyed k) colorObj)).
Proof.
  intros Hk Hdiff. unfold update_color_props.
  induction colorObj as [|colorProp colorObj IH]; intros flags.
  - cbn [mapS map]. unfold group_holds. cbn [groups_keyed flat_map existsb].
    rewrite !orb_false_r. destruct flags; reflexivity.
  - cbn [mapS map]. rewrite (update_color_prop_child _ _ _ _ _ _ Hk Hdiff).
    cbn [bindC fst snd]. rewrite IH. cbn [bindC fst snd].
    rewrite (group_holds_cons _ (keyed k) colorProp colorObj),
      (group_holds_cons _ (string_leaf_keyed k) colorProp colorObj).
    rewrite !orb_assoc. reflexivity.
Qed.

(** The run of updateTailwindConfigFile on the rename of a key. *)
Lemma config_rename_key_run (configContent p k newName newCssVarName : string) (ast : File) :
  parse ["typescript"; "jsx"] configContent = Normal ast ->
  k <> EmptyString ->
  newName <> k ->
  updateTailwindConfigFile configContent p (Some k) newName newCssVarName
  = Normal
      {| keyUpdated := existsb (group_holds p (keyed k)) (colors_objects [] ast);
         valueUpdated := existsb (group_holds p (string_leaf_keyed k)) (colors_objects [] ast);
         output :=
           generate
             (rewrite_colors_objects (map (renamed_group p k newName newCssVarName)) [] ast)
             configContent |}.
Proof.
  intros Hparse Hk Hdiff.
  unfold updateTailwindConfigFile. rewrite Hparse. cbn [bindC].
  rewrite (proj1 (traverse_folds _
                    (map (renamed_group p k newName newCssVarName))
                    (fun colorObj (flags : Flags) =>
                       (fst flags || group_holds p (keyed k) colorObj,
                        snd flags || group_holds p (string_leaf_keyed k) colorObj))
                    (fun colorObj flags =>
                       update_color_props_child p k newName newCssVarName colorObj
                         Hk Hdiff flags))).
  cbn [bindC fst snd].
  rewrite (fold_left_flags (group_holds p (keyed k))
             (group_holds p (string_leaf_keyed k))).
  reflexivity.
Qed.

(** X23. Renaming the key [k] of the group [p] to another name in the
    configuration: in every colours object, in every group keyed [p],
    every member keyed [k] takes the key [camelCase(newName)], and when
    it is a string leaf its value becomes the reference to the new
    property (to [--p] for the key DEFAULT); members under other keys,
    other groups and other entries stay as they are. The key is reported
    as updated exactly when some colours object has a group keyed [p]
    with a member keyed [k], the value exactly when such a member is a
    string leaf. *)
Theorem config_rename_key (configContent p k newName newCssVarName : string) (ast : File) :
  parse ["typescript"; "jsx"] configContent = Normal ast ->
  k <> EmptyString ->
  newName <> k ->
  let renamed := renamed_member p k newName newCssVarName in
  let key := Identifier (toCamelCase newName) in
  updateTailwindConfigFile configContent p (Some k) newName newCssVarName
  = Normal
      {| keyUpdated := existsb (group_holds p (keyed k)) (colors_objects [] ast);
         valueUpdated := existsb (group_holds p (string_leaf_keyed k)) (colors_objects [] ast);
         output :=
           generate
             (rewrite_colors_objects (map (renamed_group p k newName newCssVarName)) [] ast)
             configContent |}
  /\ (forall members,
        renamed_group p k newName newCssVarName
          (ObjectProperty (Identifier p) (ObjectExpression members))
        = ObjectProperty (Identifier p) (ObjectExpression (map renamed members)))
  /\ (forall colorProp,
        groups_keyed p [colorProp] = [] ->
        renamed_group p k newName newCssVarName colorProp = colorProp)
  /\ (forall value,
        renamed (ObjectProperty (Identifier k) (StringLiteral value))
        = ObjectProperty key
            (StringLiteral
               (var_reference (if String.eqb k "DEFAULT" then p else newCssVarName))))
  /\ (forall members,
        renamed (ObjectProperty (Identifier k) (ObjectExpression members))
        = ObjectProperty key (ObjectExpression members))
  /\ (forall nestedProp, keyed k nestedProp = false -> renamed nestedProp = nestedProp).
Proof.
  intros Hparse Hk Hdiff renamed key.
  assert (Hrenamed : negb (String.eqb newName k) = true).
  { apply negb_true_iff. destruct (String.eqb_spec newName k); [contradiction|reflexivity]. }
  split; [|split; [|split; [|split; [|split]]]].
  - exact (config_rename_key_run _ _ _ _ _ ast Hparse Hk Hdiff).
  - intros members. cbn [renamed_group]. rewrite String.eqb_refl. reflexivity.
  - intros [[name|source] value|kind children] Hnone; try reflexivity.
    destruct value as [v|members|kind children]; try reflexivity.
    cbn [renamed_group]. cbn [groups_keyed flat_map] in Hnone.
    destruct (String.eqb name p); [discriminate | reflexivity].
  - intros value. unfold renamed, renamed_member. cbn [rename_child].
    rewrite String.eqb_refl, Hrenamed. reflexivity.
  - intros members. unfold renamed, renamed_member. cbn [rename_child].
    rewrite String.eqb_refl, Hrenamed. reflexivity.
  - intros [[name|source] value|kind children] Hkey; try reflexivity.
    unfold renamed, renamed_member. cbn [rename_child]. cbn [keyed] in Hkey.
    rewrite Hkey. reflexivity.
Qed.

End ConfigRename.

Lemma config_rename_key_witness :
  let colors :=
    [Sample.leaf "white" "var(--white)";
     Sample.group "brand"
       [Sample.leaf "accent" "var(--brand-accent)"; Sample.leaf "muted" "var(--brand-muted)"]] in
  let babel := Sample.babel [Sample.config_with colors] in
  @updateTailwindConfigFile babel Sample.engine Sample.helpers
    (Sample.print_expression (Sample.config_with colors)) "brand" (Some "accent")
    "Deep Blue" "brand-Deep Blue"
  = Normal
      {| keyUpdated := true;
         valueUpdated := true;
         output :=
           Sample.print_expression
             (Sample.config_with
                [Sample.leaf "white" "var(--white)";
                 Sample.group "brand"
                   [Sample.leaf "deepBlue" "var(--brand-Deep Blue)";
                    Sample.leaf "muted" "var(--brand-muted)"]]) |}.
Proof.
  intros colors babel.
  apply (@config_rename_key babel Sample.engine Sample.helpers
           (Sample.print_expression (Sample.config_with colors)) "brand" "accent"
           "Deep Blue" "brand-Deep Blue" (Sample.config_with colors));
    [reflexivity | discriminate | discriminate].
Defined.

Section EntryRename.

Context `{Babel} `{Jsx} `{PostCss} `{RegExpEngine} `{Helpers}.

(** X24. Renaming the colour [k] of the group [p] to [newName] through
    the entry point, when some colours object has the key: once the
    stylesheet step has finished, the stylesheet is written first, then
    the configuration file with the key renamed, and then the class
    references are updated in the directory of the configuration file
    for the one pair [p-k] to [p-newName], with the new name as given.
    The promise takes the outcome of that last step: [{success: true}]
    when it is fulfilled, and its rejection, not caught, when a source
    file fails, with both files already written. *)
Theorem rename_key_through_entry (fuel : nat) (projectRoot p k newColor newName : string)
    (theme : option Theme) (parentName : option string) (fs fs1 fs3 : FileSystem)
    (update : ColorUpdate) (ast : File) (css' : string) (outcome : Settled unit) :
  initializeTailwindColorContent projectRoot fs = (fs1, Fulfilled (Some update)) ->
  Js.has_char "-" p = false -> Js.has_char "-" k = false ->
  p <> EmptyString -> k <> EmptyString -> k <> "DEFAULT" -> newName <> k ->
  updateTailwindCssVariable fuel (cssContent update) (p +:+ "-" +:+ k)
    (p +:+ "-" +:+ newName) newColor theme fs1 = (fs1, Fulfilled css') ->
  parse ["typescript"; "jsx"] (configContent update) = Normal ast ->
  existsb (group_holds p (keyed k)) (colors_objects [] ast) = true ->
  updateClassReferences (dirname (configPath update))
    [{| oldClass := p +:+ "-" +:+ k; newClass := p +:+ "-" +:+ newName |}]
    (<[configPath update :=
         generate
           (rewrite_colors_objects
              (map (renamed_group p k newName (p +:+ "-" +:+ newName))) [] ast)
           (configContent update)]>
       (<[cssPath update := css']> fs1))
  = (fs3, outcome) ->
  updateTailwindColorConfig fuel projectRoot (p +:+ "-" +:+ k) newColor newName theme
    parentName fs
  = (fs3, match outcome with
          | Fulfilled _ => Fulfilled {| success := true; error := None |}
          | Rejected thrown => Rejected thrown
          | Unfinished => Unfinished
          end).
Proof.
  intros Hinit Hp_hyphen Hk_hyphen Hp Hk Hk_default Hdiff Hcss Hconfig Hkey Hclasses.
  assert (Hsplit : split_name (p +:+ "-" +:+ k) = (p, Some k)).
  { unfold split_name. change (p +:+ "-" +:+ k) with (p +:+ String "-" k).
    rewrite (split_app _ _ _ Hp_hyphen), (split_without _ _ Hk_hyphen). reflexivity. }
  assert (Hnames : renamed_variable p (Some k) (p +:+ "-" +:+ k) newName
                   = (p +:+ "-" +:+ newName, p +:+ "-" +:+ k)).
  { unfold renamed_variable. destruct k as [|c k]; [contradiction|].
    cbn [Js.truthy_opt Js.truthy negb Js.to_string].
    destruct (String.eqb_spec (String c k) "DEFAULT"); [contradiction|].
    destruct (String.eqb_spec newName (String c k)); [contradiction | reflexivity]. }
  assert (Horiginal : Js.truthy (p +:+ "-" +:+ k) = true).
  { destruct p; [contradiction | reflexivity]. }
  assert (Hparent : Js.truthy p = true) by (destruct p; [contradiction | reflexivity]).
  unfold updateTailwindColorConfig, try_catch, bind at 1 2. rewrite Hinit, Horiginal.
  unfold promise, updateTailwindColorVariable.
  rewrite Hsplit. cbn [fst snd]. rewrite Hparent. cbn [negb]. rewrite Hnames.
  cbn [fst snd]. unfold bind at 1. rewrite Hcss.
  unfold bind at 1. unfold writeFileSync at 1.
  unfold bind at 1.
  rewrite (config_rename_key_run _ _ _ _ _ ast Hconfig Hk Hdiff).
  cbn [lift ret keyUpdated valueUpdated output]. rewrite Hkey. cbn [orb].
  unfold bind at 1. unfold bind at 1. unfold writeFileSync at 1.
  cbn [Js.to_string]. rewrite Hclasses.
  destruct outcome as [[]|thrown|]; reflexivity.
Qed.

End EntryRename.

Lemma rename_key_through_entry_witness :
  let colors := [Sample.group "brand" [Sample.leaf "accent" "var(--brand-accent)"]] in
  let babel := Sample.babel [Sample.config_with colors] in
  let postcss := Sample.postcss [Sample.stylesheet] in
  let fs := Sample.project (Sample.print_expression (Sample.config_with colors))
              (Sample.print_root Sample.stylesheet) in
  @updateTailwindColorConfig babel Sample.jsx postcss Sample.engine Sample.helpers
    4 "/project" "brand-accent" "" "sky" None None fs
  = (<[Sample.config_file "/project" :=
         Sample.print_expression
           (Sample.config_with
              [Sample.group "brand" [Sample.leaf "sky" "var(--brand-sky)"]])]>
       (<[Sample.css_file "/project" :=
            Sample.print_root
              [Rule ":root" [Declaration "--brand-sky" "#ff0000"];
               Rule ".dark" [Declaration "--brand-sky" "#00ff00"]]]> fs),
     Fulfilled {| success := true; error := None |}).
Proof.
  intros colors babel postcss fs.
  apply (@rename_key_through_entry babel Sample.jsx postcss Sample.engine Sample.helpers
           4 "/project" "brand" "accent" "" "sky" None None fs fs
           (<[Sample.config_file "/project" :=
                Sample.print_expression
                  (Sample.config_with
                     [Sample.group "brand" [Sample.leaf "sky" "var(--brand-sky)"]])]>
              (<[Sample.css_file "/project" :=
                   Sample.print_root
                     [Rule ":root" [Declaration "--brand-sky" "#ff0000"];
                      Rule ".dark" [Declaration "--brand-sky" "#00ff00"]]]> fs))
           {| configPath := Sample.config_file "/project";
              cssPath := Sample.css_file "/project";
              configContent := Sample.print_expression (Sample.config_with colors);
              cssContent := Sample.print_root Sample.stylesheet |}
           (Sample.config_with colors)
           (Sample.print_root
              [Rule ":root" [Declaration "--brand-sky" "#ff0000"];
               Rule ".dark" [Declaration "--brand-sky" "#00ff00"]])
           (Fulfilled tt));
    try reflexivity; discriminate.
Defined.

(* ================================================================= *)
(** ** A rename to the name the key has *)

Lemma fold_left_value_flag {A : Type} (v : A -> bool) (l : list A) :
  forall flags : Flags,
    fold_left (fun (s : Flags) a => (fst s, snd s || v a)) l flags
    = (fst flags, snd flags || existsb v l).
Proof.
  induction l as [|a l IH]; intros [ku vu]; cbn [fold_left existsb fst snd].
  - rewrite orb_false_r. reflexivity.
  - rewrite IH. cbn [fst snd]. rewrite orb_assoc. reflexivity.
Qed.

Section SameNameGeneral.

Context `{Babel} `{Jsx} `{PostCss} `{RegExpEngine} `{Helpers}.

Lemma rename_child_unrenamed (parentKey k newCssVarName : string)
    (nestedProp : ObjectMember) (flags : Flags) :
  rename_child parentKey k k newCssVarName nestedProp flags
  = (renamed_member parentKey k k newCssVarName nestedProp,
     (fst flags, snd flags || string_leaf_keyed k nestedProp)).
Proof.
  unfold renamed_member, rename_child.
  destruct nestedProp as [[name|source] value|kind children];
    cbn [string_leaf_keyed fst snd]; rewrite ?orb_false_r;
    try (destruct flags; reflexivity).
  rewrite (String.eqb_refl k). cbn [negb].
  destruct (String.eqb name k).
  - destruct value; cbn [fst snd]; rewrite ?orb_true_r, ?orb_false_r;
      destruct flags; reflexivity.
  - destruct value; cbn [fst snd]; rewrite ?orb_false_r; destruct flags; reflexivity.
Qed.

Lemma rename_children_unrenamed (parentKey k newCssVarName : string)
    (l : list ObjectMember) :
  forall flags : Flags,
    rename_children parentKey k k newCssVarName l flags
    = (map (renamed_member parentKey k k newCssVarName) l,
       (fst flags, snd flags || existsb (string_leaf_keyed k) l)).
Proof.
  induction l as [|m l IH]; intros flags.
  - cbn [rename_children map existsb]. rewrite orb_false_r. destruct flags; reflexivity.
  - cbn [rename_children map existsb]. rewrite rename_child_unrenamed.
    cbn [fst snd]. rewrite IH. cbn [fst snd]. rewrite orb_assoc. reflexivity.
Qed.

Lemma update_color_prop_unrenamed (parentKey k newCssVarName : string)
    (colorProp : ObjectMember) (flags : Flags) :
  k <> EmptyString ->
  update_color_prop parentKey (Some k) k newCssVarName colorProp flags
  = Normal (renamed_group parentKey k k newCssVarName colorProp,
            (fst flags,
             snd flags || group_holds parentKey (string_leaf_keyed k) [colorProp])).
Proof.
  intros Hk. unfold update_color_prop, renamed_group, group_holds, groups_keyed.
  cbn [flat_map].
  destruct colorProp as [[name|source] value|kind children];
    cbn [app existsb]; rewrite ?orb_false_r; try (destruct flags; reflexivity).
  destruct value as [v|properties|kind children];
    cbn [app existsb]; rewrite ?orb_false_r; try (destruct flags; reflexivity).
  destruct (String.eqb name parentKey);
    cbn [app existsb]; rewrite ?orb_false_r; [|destruct flags; reflexivity].
  destruct k as [|c k]; [contradiction|].
  cbn [Js.truthy_opt Js.truthy negb Js.to_string].
  rewrite rename_children_unrenamed. reflexivity.
Qed.

Lemma update_color_props_unrenamed (parentKey k newCssVarName : string)
    (colorObj : list ObjectMember) :
  k <> EmptyString ->
  forall flags : Flags,
    update_color_props parentKey (Some k) k newCssVarName colorObj flags
    = Normal (map (renamed_group parentKey k k newCssVarName) colorObj,
              (fst flags,
               snd flags || group_holds parentKey (string_leaf_keyed k) colorObj)).
Proof.
  intros Hk. unfold update_color_props.
  induction colorObj as [|colorProp colorObj IH]; intros flags.
  - cbn [mapS map]. unfold group_holds. cbn [groups_keyed flat_map existsb].
    rewrite orb_false_r. destruct flags; reflexivity.
  - cbn [mapS map]. rewrite (update_color_prop_unrenamed _ _ _ _ _ Hk).
    cbn [bindC fst snd]. rewrite IH. cbn [bindC fst snd].
    rewrite (group_holds_cons _ (string_leaf_keyed k) colorProp colorObj).
    rewrite orb_assoc. reflexivity.
Qed.

(** The run of updateTailwindConfigFile when the key keeps its name:
    the key is not reported as updated, the value is when some group
    keyed [p] has a string leaf keyed [k]. *)
Lemma config_same_key_run (configContent p k newCssVarName : string) (ast : File) :
  parse ["typescript"; "jsx"] configContent = Normal ast ->
  k <> EmptyString ->
  updateTailwindConfigFile configContent p (Some k) k newCssVarName
  = Normal
      {| keyUpdated := false;
         valueUpdated := existsb (group_holds p (string_leaf_keyed k)) (colors_objects [] ast);
         output :=
           generate
             (rewrite_colors_objects (map (renamed_group p k k newCssVarName)) [] ast)
             configContent |}.
Proof.
  intros Hparse Hk.
  unfold updateTailwindConfigFile. rewrite Hparse. cbn [bindC].
  rewrite (proj1 (traverse_folds _
                    (map (renamed_group p k k newCssVarName))
                    (fun colorObj (flags : Flags) =>
                       (fst flags,
                        snd flags || group_holds p (string_leaf_keyed k) colorObj))
                    (fun colorObj flags =>
                       update_color_props_unrenamed p k newCssVarName colorObj Hk flags))).
  cbn [bindC fst snd].
  rewrite (fold_left_value_flag (group_holds p (string_leaf_keyed k))).
  reflexivity.
Qed.

(** The run when a root colour keeps its name: nothing is updated. *)
Lemma config_same_group_run (configContent p newCssVarName : string) (ast : File) :
  parse ["typescript"; "jsx"] configContent = Normal ast ->
  updateTailwindConfigFile configContent p None p newCssVarName
  = Normal {| keyUpdated := false;
              valueUpdated := false;
              output := generate ast configContent |}.
Proof.
  intros Hparse. unfold updateTailwindConfigFile. rewrite Hparse. cbn [bindC].
  destruct (proj1 (traverse_keeps (fun s s' : Flags => s' = s) ltac:(reflexivity)
                     ltac:(congruence)
                     (update_color_props p None p newCssVarName))
              ast [])
    with (s := (false, false)) as (s' & -> & ->).
  - apply List.Forall_forall. intros colorObj _ s. eexists. split; [|reflexivity].
    apply update_color_props_root_same.
  - reflexivity.
Qed.

(** With the printers giving back the texts that were read and the
    string leaves under the key already holding the reference, both
    files keep their bytes. *)
Lemma same_name_keeps_bytes (fuel : nat) (projectRoot originalName newName : string)
    (theme : option Theme) (parentName : option string) (fs fs1 : FileSystem)
    (update : ColorUpdate) (tree : Root) (ast : File) :
  initializeTailwindColorContent projectRoot fs = (fs1, Fulfilled (Some update)) ->
  (fs1 : gmap string string) !! cssPath update = Some (cssContent update) ->
  (fs1 : gmap string string) !! configPath update = Some (configContent update) ->
  postcss_parse (cssContent update) = Normal tree ->
  postcss_stringify tree = cssContent update ->
  parse ["typescript"; "jsx"] (configContent update) = Normal ast ->
  generate ast (configContent update) = configContent update ->
  children_count_root tree <= fuel ->
  fst (split_name originalName) <> EmptyString ->
  (snd (split_name originalName) = None /\ newName = fst (split_name originalName))
  \/ (exists k,
        snd (split_name originalName) = Some k /\ k <> EmptyString /\ newName = k /\
        references_in_place (fst (split_name originalName)) k
          (var_reference
             (if String.eqb k "DEFAULT" then fst (split_name originalName)
              else originalName))
          ast) ->
  updateTailwindColorConfig fuel projectRoot originalName "" newName theme parentName fs
  = (fs1, Fulfilled {| success := true; error := None |}).
Proof.
  intros Hinit Hcss_disk Hconfig_disk Hcss Hcss_print Hconfig Hconfig_print Hfuel
    Hparent Hcase.
  assert (Horiginal : Js.truthy originalName = true).
  { destruct originalName; [|reflexivity]. exfalso. apply Hparent. reflexivity. }
  assert (Hparent' : Js.truthy (fst (split_name originalName)) = true).
  { destruct (fst (split_name originalName)); [contradiction | reflexivity]. }
  set (parentKey := fst (split_name originalName)) in *.
  set (keyName := snd (split_name originalName)) in *.
  assert (Hnames := renamed_variable_same parentKey originalName newName keyName).
  destruct (updateTailwindConfigFile_same (configContent update) parentKey originalName
              keyName newName ast Hconfig) as [vu Hfile].
  { destruct Hcase as [?|(k & Hk & Hne & Hnew & Hrefs)]; [left; assumption|].
    right. exists k. repeat split; try assumption.
    rewrite Hnames; [|right; eauto]. rewrite Hk. cbn [Js.to_string fst].
    destruct (String.eqb k "DEFAULT"); exact Hrefs. }
  rewrite Hnames in Hfile
    by (destruct Hcase as [?|(k & ? & ? & ? & _)]; [left; assumption | right; eauto]).
  cbn [fst snd] in Hfile.
  unfold updateTailwindColorConfig, try_catch, bind at 1 2. rewrite Hinit, Horiginal.
  unfold promise, updateTailwindColorVariable.
  fold parentKey keyName. rewrite Hparent'. cbn [negb].
  rewrite Hnames
    by (destruct Hcase as [?|(k & ? & ? & ? & _)]; [left; assumption | right; eauto]).
  cbn [fst snd]. unfold bind at 1.
  rewrite (updateTailwindCssVariable_untouched _ _ _ _ tree _ Hcss Hfuel).
  unfold bind at 1. unfold writeFileSync at 1. rewrite Hcss_print.
  rewrite (insert_id fs1 _ _ Hcss_disk).
  unfold bind at 1. rewrite Hfile. cbn [lift ret keyUpdated valueUpdated output orb].
  destruct vu; cbn [bind writeFileSync ret adopt].
  - unfold bind, writeFileSync, ret. rewrite Hconfig_print.
    rewrite (insert_id fs1 _ _ Hconfig_disk). reflexivity.
  - reflexivity.
Qed.

(** C2, as the code has it. For a located pair of files whose texts
    parse, a rename whose new name is the name the key has (the group
    name for a root colour) and that carries no colour is fulfilled with
    [{success: true}]. It writes the stylesheet as PostCSS prints the
    tree it parsed. It writes the configuration file exactly when some
    colours object has a string leaf under the key, never for a root
    colour, as the printer prints the tree in which every string leaf
    under the key reads [var(--name)] for the property name of the rename
    (the group name for a DEFAULT key) and everything else is as it was:
    a leaf that holds any other value, a literal colour for one, is
    replaced by that reference. Both files are left with their bytes
    when the printers give back the texts that were read and every
    string leaf under the key already reads that reference. *)
Theorem rename_to_same_name (fuel : nat) (projectRoot originalName newName : string)
    (theme : option Theme) (parentName : option string) (fs fs1 : FileSystem)
    (update : ColorUpdate) (tree : Root) (ast : File) :
  initializeTailwindColorContent projectRoot fs = (fs1, Fulfilled (Some update)) ->
  postcss_parse (cssContent update) = Normal tree ->
  parse ["typescript"; "jsx"] (configContent update) = Normal ast ->
  children_count_root tree <= fuel ->
  fst (split_name originalName) <> EmptyString ->
  let p := fst (split_name originalName) in
  let keyName := snd (split_name originalName) in
  (keyName = None /\ newName = p)
  \/ (exists k, keyName = Some k /\ k <> EmptyString /\ newName = k) ->
  let name := if String.eqb (Js.to_string keyName) "DEFAULT" && Js.truthy_opt keyName
              then p else originalName in
  let written :=
    match keyName with
    | Some k => existsb (group_holds p (string_leaf_keyed k)) (colors_objects [] ast)
    | None => false
    end in
  let ast' :=
    match keyName with
    | Some k => rewrite_colors_objects (map (renamed_group p k k name)) [] ast
    | None => ast
    end in
  let fs2 : FileSystem := <[cssPath update := postcss_stringify tree]> fs1 in
  updateTailwindColorConfig fuel projectRoot originalName "" newName theme parentName fs
  = (if written then <[configPath update := generate ast' (configContent update)]> fs2
     else fs2,
     Fulfilled {| success := true; error := None |})
  /\ (forall k value,
        keyName = Some k ->
        renamed_member p k k name (ObjectProperty (Identifier k) (StringLiteral value))
        = ObjectProperty (Identifier k) (StringLiteral (var_reference name)))
  /\ (forall k nestedProp,
        string_leaf_keyed k nestedProp = false ->
        renamed_member p k k name nestedProp = nestedProp)
  /\ (forall k colorProp,
        groups_keyed p [colorProp] = [] -> renamed_group p k k name colorProp = colorProp)
  /\ ((fs1 : gmap string string) !! cssPath update = Some (cssContent update) ->
      (fs1 : gmap string string) !! configPath update = Some (configContent update) ->
      postcss_stringify tree = cssContent update ->
      generate ast (configContent update) = configContent update ->
      (forall k, keyName = Some k -> references_in_place p k (var_reference name) ast) ->
      updateTailwindColorConfig fuel projectRoot originalName "" newName theme parentName fs
      = (fs1, Fulfilled {| success := true; error := None |})).
Proof.
  intros Hinit Hcss Hconfig Hfuel Hparent p keyName Hcase name written ast' fs2.
  assert (Horiginal : Js.truthy originalName = true).
  { destruct originalName; [|reflexivity]. exfalso. apply Hparent. reflexivity. }
  assert (Hparent' : Js.truthy p = true).
  { subst p. destruct (fst (split_name originalName)); [contradiction | reflexivity]. }
  assert (Hnames := renamed_variable_same p originalName newName keyName Hcase).
  fold name in Hnames.
  split; [|split; [|split; [|split]]].
  - unfold updateTailwindColorConfig, try_catch, bind at 1 2. rewrite Hinit, Horiginal.
    unfold promise, updateTailwindColorVariable.
    fold p keyName. rewrite Hparent'. cbn [negb]. rewrite Hnames. cbn [fst snd].
    unfold bind at 1.
    rewrite (updateTailwindCssVariable_untouched _ _ _ _ tree _ Hcss Hfuel).
    unfold bind at 1. unfold writeFileSync at 1. fold fs2. unfold bind at 1.
    destruct Hcase as [[Hkey ->]|(k & Hkey & Hk & ->)].
    + subst written ast'. rewrite Hkey. rewrite (config_same_group_run _ _ _ ast Hconfig).
      reflexivity.
    + subst written ast'. rewrite Hkey.
      rewrite (config_same_key_run _ _ _ _ ast Hconfig Hk).
      cbn [lift ret keyUpdated valueUpdated output orb].
      destruct (existsb (group_holds p (string_leaf_keyed k)) (colors_objects [] ast));
        reflexivity.
  - intros k value Hkey. unfold renamed_member. cbn [rename_child].
    rewrite !String.eqb_refl. cbn [negb fst]. subst name. rewrite Hkey.
    cbn [Js.to_string Js.truthy_opt].
    destruct (String.eqb_spec k "DEFAULT") as [->|_]; reflexivity.
  - intros k [[n|source] value|kind children] Hleaf; try reflexivity.
    unfold renamed_member. cbn [rename_child]. rewrite String.eqb_refl. cbn [negb].
    destruct (String.eqb n k) eqn:Hn; [|reflexivity].
    destruct value; try reflexivity. cbn [string_leaf_keyed] in Hleaf. congruence.
  - intros k [[n|source] value|kind children] Hnone; try reflexivity.
    destruct value as [v|members|kind children]; try reflexivity.
    cbn [renamed_group]. cbn [groups_keyed flat_map] in Hnone.
    destruct (String.eqb n p); [discriminate | reflexivity].
  - intros Hcss_disk Hconfig_disk Hcss_print Hconfig_print Hrefs.
    apply (same_name_keeps_bytes fuel projectRoot originalName newName theme parentName
             fs fs1 update tree ast); try assumption.
    destruct Hcase as [[Hkey ->]|(k & Hkey & Hk & ->)]; [left; split; [exact Hkey|reflexivity]|].
    right. exists k. repeat split; try assumption.
    specialize (Hrefs k Hkey). subst name. fold keyName. rewrite Hkey in Hrefs.
    cbn [Js.to_string Js.truthy_opt] in Hrefs.
    destruct k as [|c k]; [contradiction|]. cbn [Js.truthy] in Hrefs.
    rewrite andb_true_r in Hrefs. destruct (String.eqb (String c k) "DEFAULT"); exact Hrefs.
Qed.

End SameNameGeneral.

Lemma rename_to_same_name_witness :
  let colors := [Sample.group "brand" [Sample.leaf "accent" "#ff0000"]] in
  let babel := Sample.babel [Sample.config_with colors] in
  let postcss := Sample.postcss [Sample.stylesheet] in
  let fs := Sample.project (Sample.print_expression (Sample.config_with colors))
              (Sample.print_root Sample.stylesheet) in
  @updateTailwindColorConfig babel Sample.jsx postcss Sample.engine Sample.helpers
    2 "/project" "brand-accent" "" "accent" (Some theme_light) None fs
  = (<[Sample.config_file "/project" :=
         Sample.print_expression
           (Sample.config_with
              [Sample.group "brand" [Sample.leaf "accent" "var(--brand-accent)"]])]>
       (<[Sample.css_file "/project" := Sample.print_root Sample.stylesheet]> fs),
     Fulfilled {| success := true; error := None |}).
Proof.
  intros colors babel postcss fs.
  apply (@rename_to_same_name babel Sample.jsx postcss Sample.engine Sample.helpers
           2 "/project" "brand-accent" "accent" (Some theme_light) None fs fs
           {| configPath := Sample.config_file "/project";
              cssPath := Sample.css_file "/project";
              configContent := Sample.print_expression (Sample.config_with colors);
              cssContent := Sample.print_root Sample.stylesheet |}
           Sample.stylesheet (Sample.config_with colors));
    try reflexivity; try (simpl; lia); try discriminate.
  right. exists "accent". repeat split; discriminate.
Defined.

(* ================================================================= *)
(** ** The DEFAULT variant of a group *)

Section DefaultVariant.

Context `{PostCss} `{RegExpEngine} `{Helpers}.

(** C4, as the code has it. For a group name [g] that is not empty and
    holds no hyphen, renaming the DEFAULT variant of [g] (original name
    [g-DEFAULT]) starts from the custom property [--g], never
    [--g-DEFAULT], and keeps that property name whatever the new name
    is. In the stylesheet no declaration is renamed, moved or removed:
    the callback of the walk gives every declaration back in its place,
    a declaration of [--g] with the new colour when a colour is given and
    the scope is one of the theme, and any other declaration, and every
    declaration when no colour is given, with its own value; so the
    stylesheet written is the tree read with only those values changed
    (for a stylesheet in which no [:root] or [.dark] rule is nested in a
    rule). In the configuration tree the string value of the DEFAULT
    child becomes [var(--g)], and the DEFAULT key itself takes the name
    [camelCase(newName)] when the new name is not [DEFAULT], with both
    flags raised. *)
Theorem default_variant_targets_group (g newName : string) :
  g <> EmptyString ->
  Js.has_char "-" g = false ->
  Js.truthy (fst (split_name (g +:+ "-DEFAULT"))) = true
  /\ rename_names (g +:+ "-DEFAULT") newName = (g, g)
  /\ (forall selector newColor theme prop value,
        update_declaration selector (snd (rename_names (g +:+ "-DEFAULT") newName))
          (fst (rename_names (g +:+ "-DEFAULT") newName)) newColor theme prop value
        = Normal
            (Some (Declaration prop
                     (if String.eqb prop ("--" +:+ g) &&
                         (Js.truthy newColor && in_theme theme selector)
                      then newColor else value)),
             []))
  /\ (forall fuel cssContent newColor theme tree (fs : FileSystem),
        postcss_parse cssContent = Normal tree ->
        forallb scopes_on_top tree = true ->
        children_count_root tree <= fuel ->
        updateTailwindCssVariable fuel cssContent
          (snd (rename_names (g +:+ "-DEFAULT") newName))
          (fst (rename_names (g +:+ "-DEFAULT") newName)) newColor theme fs
        = (fs, Fulfilled
                 (postcss_stringify
                    (map (rewrite_rules is_scope
                            (fun selector => map (recolored g newColor theme selector)))
                       tree))))
  /\ (forall newCssVarName value flags,
        rename_child g "DEFAULT" newName newCssVarName
          (ObjectProperty (Identifier "DEFAULT") (StringLiteral value)) flags
        = (ObjectProperty
             (Identifier (if String.eqb newName "DEFAULT" then "DEFAULT"
                          else toCamelCase newName))
             (StringLiteral (var_reference g)),
           (if String.eqb newName "DEFAULT" then fst flags else true, true))).
Proof.
  intros Hne Hg.
  assert (Hnames : rename_names (g +:+ "-DEFAULT") newName = (g, g)).
  { unfold rename_names. rewrite (split_name_default _ Hg). reflexivity. }
  split; [rewrite (split_name_default _ Hg); destruct g; [contradiction | reflexivity]|].
  split; [exact Hnames|]. rewrite Hnames. cbn [fst snd]. split; [|split].
  - intros selector newColor theme prop value.
    rewrite update_declaration_recolours. cbn [recolored].
    destruct (String.eqb prop ("--" +:+ g) && (Js.truthy newColor && in_theme theme selector));
      reflexivity.
  - intros fuel cssContent newColor theme tree fs Hparse _ Hfuel.
    apply recolour_runs; assumption.
  - intros newCssVarName value flags. cbn [rename_child].
    destruct (String.eqb newName "DEFAULT"); reflexivity.
Qed.

End DefaultVariant.

Lemma default_variant_targets_group_witness :
  Js.truthy (fst (split_name ("brand" +:+ "-DEFAULT"))) = true
  /\ rename_names ("brand" +:+ "-DEFAULT") "main" = ("brand", "brand")
  /\ (forall selector newColor theme prop value,
        @update_declaration Sample.engine selector
          (snd (rename_names ("brand" +:+ "-DEFAULT") "main"))
          (fst (rename_names ("brand" +:+ "-DEFAULT") "main")) newColor theme prop value
        = Normal
            (Some (Declaration prop
                     (if String.eqb prop ("--" +:+ "brand") &&
                         (Js.truthy newColor && in_theme theme selector)
                      then newColor else value)),
             []))
  /\ (forall fuel cssContent newColor theme tree (fs : FileSystem),
        @postcss_parse (Sample.postcss [Sample.stylesheet]) cssContent = Normal tree ->
        forallb scopes_on_top tree = true ->
        children_count_root tree <= fuel ->
        @updateTailwindCssVariable (Sample.postcss [Sample.stylesheet]) Sample.engine
          fuel cssContent
          (snd (rename_names ("brand" +:+ "-DEFAULT") "main"))
          (fst (rename_names ("brand" +:+ "-DEFAULT") "main")) newColor theme fs
        = (fs, Fulfilled
                 (Sample.print_root
                    (map (rewrite_rules is_scope
                            (fun selector => map (recolored "brand" newColor theme selector)))
                       tree))))
  /\ (forall newCssVarName value flags,
        @rename_child Sample.helpers "brand" "DEFAULT" "main" newCssVarName
          (ObjectProperty (Identifier "DEFAULT") (StringLiteral value)) flags
        = (ObjectProperty
             (Identifier (if String.eqb "main" "DEFAULT" then "DEFAULT"
                          else Sample.camelCase "main"))
             (StringLiteral (var_reference "brand")),
           (if String.eqb "main" "DEFAULT" then fst flags else true, true))).
Proof.
  apply (@default_variant_targets_group (Sample.postcss [Sample.stylesheet]) Sample.engine
           Sample.helpers "brand" "main");
    [discriminate | reflexivity].
Defined.

(* ================================================================= *)
(** ** Keys that are not identifiers *)

(** A colour under a numeric key is not found by the delete: the
    configuration file is written with the group and its member as they
    were, the stylesheet loses the line of the variable, and the result
    is a success. *)
Lemma delete_misses_numeric_key :
  let colors :=
    [Sample.group "blue"
       [ObjectProperty (OtherKey "500") (StringLiteral "var(--blue-500)")]] in
  let tree := [Rule ":root" [Declaration "--blue-500" "#3366ff"]] in
  let babel := Sample.babel [Sample.config_with colors] in
  let fs := Sample.project (Sample.print_expression (Sample.config_with colors))
              (Sample.print_root tree) in
  exists fs' : gmap string string,
    @deleteTailwindColorGroup babel Sample.helpers "/project" "blue" (Some "500") fs
    = (fs', Fulfilled {| success := true; error := None |})
    /\ fs' !! Sample.config_file "/project"
       = Some (Sample.print_expression (Sample.config_with colors))
    /\ fs' !! Sample.css_file "/project" = Some (Sample.print_root [Rule ":root" []])
    /\ fs' !! Sample.css_file "/project" <> fs !! Sample.css_file "/project".
Proof.
  intros colors tree babel fs. eexists. split; [vm_compute; reflexivity|].
  split; [vm_compute; reflexivity|]. split; [vm_compute; reflexivity|].
  vm_compute. discriminate.
Qed.
